(** * Puerto Rico elections platform: the CEE scraper and its schema

    A shallow embedding of [scraper/src/schema.py] and
    [scraper/src/cee_scraper.py], and the properties of the specification
    that were checked against it.

    Conventions.
    - A Python [str] is a sequence of code points.  The development covers
      the code points U+0000..U+00FF: one [ascii] per code point, whose
      8-bit value is the code point itself (so the e-acute of "referéndum"
      is the single character 233).  The character tables below ([is_space],
      [is_decimal], [is_digit], [is_word], [lower_char]) are CPython's on
      that range.
    - A Python [int] is a [Z]; a [float] is an element of a [PyFloat]
      structure (binary64 in the instance used by the examples).
    - A raised exception is the [Raise] case of [result]; code that writes
      files threads the output directory through the monad [M]. *)

From Stdlib Require Import ZArith List Ascii String Bool Lia ZifyBool Floats Uint63
  DecimalString.
From stdpp Require Import gmap strings list.
Import ListNotations.

#[local] Open Scope Z_scope.
#[local] Open Scope list_scope.

(** ** Python strings *)

Abbreviation pystr := (list ascii).

(** A string literal of the source. *)
Definition str (s : string) : pystr := list_ascii_of_string s.

(** [ord] and [chr] on the code points of the model. *)
Definition ord (c : ascii) : Z := Z.of_N (N_of_ascii c).
Definition chr (z : Z) : ascii := ascii_of_N (Z.to_N z).

Definition in_range (lo hi : Z) (c : ascii) : bool :=
  (lo <=? ord c) && (ord c <=? hi).

(** [str.isdecimal] on one character, which is also the regular
    expression class [\d]. *)
Definition is_decimal (c : ascii) : bool := in_range 48 57 c.

(** [str.isdigit] on one character: the decimals and the superscript
    digits U+00B2, U+00B3, U+00B9. *)
Definition is_digit (c : ascii) : bool :=
  is_decimal c || (ord c =? 178) || (ord c =? 179) || (ord c =? 185).

(** [str.isspace] on one character, which is also the class [\s] and the
    set removed by [str.strip()]. *)
Definition is_space (c : ascii) : bool :=
  in_range 9 13 c || in_range 28 32 c || (ord c =? 133) || (ord c =? 160).

(** The class [\w]: alphanumeric characters and the underscore. *)
Definition is_word (c : ascii) : bool :=
  in_range 48 57 c || in_range 65 90 c || (ord c =? 95) || in_range 97 122 c
  || (ord c =? 170) || (ord c =? 178) || (ord c =? 179) || (ord c =? 181)
  || (ord c =? 185) || (ord c =? 186) || in_range 188 190 c
  || in_range 192 214 c || in_range 216 246 c || in_range 248 255 c.

Definition is_upper (c : ascii) : bool :=
  in_range 65 90 c || (in_range 192 222 c && negb (ord c =? 215)).

Definition lower_char (c : ascii) : ascii :=
  if is_upper c then chr (ord c + 32) else c.

(** [s.lower()] *)
Definition py_lower (s : pystr) : pystr := map lower_char s.

(** Truth value of a string: [if s], [not s]. *)
Definition truthy (s : pystr) : bool :=
  match s with [] => false | _ :: _ => true end.

(** [s.isdigit()]: every character is a digit and there is at least one. *)
Definition py_isdigit (s : pystr) : bool := truthy s && forallb is_digit s.

Fixpoint lstrip (s : pystr) : pystr :=
  match s with
  | c :: s' => if is_space c then lstrip s' else s
  | [] => []
  end.

Definition rstrip (s : pystr) : pystr := rev (lstrip (rev s)).

(** [s.strip()] *)
Definition py_strip (s : pystr) : pystr := rstrip (lstrip s).

Fixpoint starts_with (p s : pystr) : bool :=
  match p, s with
  | [], _ => true
  | a :: p', b :: s' => Ascii.eqb a b && starts_with p' s'
  | _ :: _, [] => false
  end.

(** [needle in hay] on strings. *)
Fixpoint contains (needle hay : pystr) : bool :=
  starts_with needle hay
  || match hay with
     | [] => false
     | _ :: hay' => contains needle hay'
     end.

(** ** Exceptions *)

Inductive exn : Type :=
| ValueError (msg : pystr)
| RequestException (msg : pystr).

Inductive result (A : Type) : Type :=
| Ok (a : A)
| Raise (e : exn).
Arguments Ok {A} a.
Arguments Raise {A} e.

Definition rbind {A B} (r : result A) (k : A -> result B) : result B :=
  match r with
  | Ok a => k a
  | Raise e => Raise e
  end.

(** ** [int(s)] in base 10 *)

Definition digit_val (c : ascii) : Z := ord c - 48.

(** The digits of an [int] literal, with single underscores allowed
    between two digits. *)
Fixpoint int_body (acc : Z) (after_digit : bool) (s : pystr) : option Z :=
  match s with
  | [] => if after_digit then Some acc else None
  | c :: s' =>
      if is_decimal c then int_body (10 * acc + digit_val c) true s'
      else if Ascii.eqb c "_" && after_digit then int_body acc false s'
      else None
  end.

(** White space that [int] skips around the literal. *)
Definition int_space (c : ascii) : bool :=
  in_range 9 13 c || (ord c =? 32) || (ord c =? 133) || (ord c =? 160).

Fixpoint int_lskip (s : pystr) : pystr :=
  match s with
  | c :: s' => if int_space c then int_lskip s' else s
  | [] => []
  end.

Definition int_literal (s : pystr) : option Z :=
  let t := rev (int_lskip (rev (int_lskip s))) in
  match t with
  | "+"%char :: t' => int_body 0 false t'
  | "-"%char :: t' => option_map Z.opp (int_body 0 false t')
  | _ => int_body 0 false t
  end.

(** [str(n)] for an [int]. *)
Definition str_of_int (n : Z) : pystr :=
  str (DecimalString.NilZero.string_of_int (Z.to_int n)).

(** [sys.get_int_max_str_digits()]: CPython 3.11 refuses to convert between
    [str] and [int] a decimal number with more digits than this. *)
Definition int_max_str_digits : nat := 4300.

(** The digits that [int] scans before it converts them: digits with single
    underscores between them are counted up to the first other character.
    Two underscores in a row, or an underscore at either end of what was
    scanned, make the literal invalid before any digit is counted. *)
Fixpoint int_scan (digits : nat) (after_underscore : bool) (s : pystr) : option nat :=
  match s with
  | c :: s' =>
      if is_decimal c then int_scan (S digits) false s'
      else if Ascii.eqb c "_"
      then (if after_underscore then None else int_scan digits true s')
      else if after_underscore then None else Some digits
  | [] => if after_underscore then None else Some digits
  end.

Definition int_digits (s : pystr) : option nat :=
  let t := rev (int_lskip (rev (int_lskip s))) in
  let body :=
    match t with
    | "+"%char :: t' => t'
    | "-"%char :: t' => t'
    | _ => t
    end in
  match body with
  | "_"%char :: _ => None
  | _ => int_scan 0 false body
  end.

(** [str(n)] and an f-string that holds [n]: an [int] of more than 4300
    digits is refused. *)
Definition int_str_ok (n : Z) : bool :=
  (length (str_of_int (Z.abs n)) <=? int_max_str_digits)%nat.

Definition int_too_long : exn :=
  ValueError
    (str "Exceeds the limit (4300 digits) for integer string conversion; use sys.set_int_max_str_digits() to increase the limit").

Definition py_str (n : Z) : result pystr :=
  if int_str_ok n then Ok (str_of_int n) else Raise int_too_long.

(** The [ValueError] of [int(s)] for a number of [n] digits. *)
Definition too_many_digits (n : nat) : exn :=
  ValueError
    (str "Exceeds the limit (4300 digits) for integer string conversion: value has "
     ++ str_of_int (Z.of_nat n)
     ++ str " digits; use sys.set_int_max_str_digits() to increase the limit").

(** [int(s)]; the message of the first [ValueError] is kept up to the
    quoting that [repr] adds around the offending string.  The count of the
    digits comes before the conversion and before the test that nothing
    follows them. *)
Definition py_int (s : pystr) : result Z :=
  let invalid :=
    Raise (ValueError (str "invalid literal for int() with base 10: " ++ s)) in
  match int_digits s with
  | None => invalid
  | Some n =>
      if (int_max_str_digits <? n)%nat then Raise (too_many_digits n)
      else
        match int_literal s with
        | Some z => Ok z
        | None => invalid
        end
  end.

(** ** schema.py: municipality codes *)

Definition validate_municipality_code (code : pystr) : result bool :=
  if negb (truthy code) then Ok false
  else if negb (py_isdigit code) then Ok false
  else
    rbind (py_int code) (fun code_int =>
    Ok ((1 <=? code_int) && (code_int <=? 78))).

(** ** schema.py: event types *)

Inductive EventType : Type :=
| GENERAL | PRIMARY | SPECIAL | PLEBISCITE | REFERENDUM.

(** [EventType.X.value] *)
Definition EventType_value (t : EventType) : pystr :=
  match t with
  | GENERAL => str "general"
  | PRIMARY => str "primary"
  | SPECIAL => str "special"
  | PLEBISCITE => str "plebiscite"
  | REFERENDUM => str "referendum"
  end.

(** The keyword "referéndum", with its accented letter as code point 233. *)
Definition referendum_es : pystr := str "refer" ++ chr 233 :: str "ndum".

(** ** cee_scraper.py: the event-type classifier *)

Definition _determine_event_type (name : pystr) : pystr :=
  let name_lower := py_lower name in
  if contains (str "plebiscito") name_lower || contains (str "plebiscite") name_lower
  then EventType_value PLEBISCITE
  else if contains (str "primaria") name_lower || contains (str "primary") name_lower
  then EventType_value PRIMARY
  else if contains (str "especial") name_lower || contains (str "special") name_lower
  then EventType_value SPECIAL
  else if contains (str "referendum") name_lower || contains referendum_es name_lower
  then EventType_value REFERENDUM
  else EventType_value GENERAL.

(** ** Regular expressions

    The fragment of [re] the scraper uses: a pattern is a sequence of
    pieces, each a character class with a greedy bounded repetition.  A
    literal is a class of one character; a group is a run of consecutive
    pieces.  Matching backtracks as CPython's engine does: each piece first
    takes as many characters as it can and gives them back one at a time
    when the rest of the pattern fails. *)

Record piece : Type := Piece {
  p_class : ascii -> bool;
  p_min : nat;
  p_max : option nat
}.

Definition one (p : ascii -> bool) : piece := Piece p 1 (Some 1%nat).
Definition lit (c : ascii) : piece := one (Ascii.eqb c).
(** A literal under [re.IGNORECASE]. *)
Definition lit_i (c : ascii) : piece :=
  one (fun x => Ascii.eqb (lower_char x) (lower_char c)).
Definition rep (p : ascii -> bool) (lo hi : nat) : piece := Piece p lo (Some hi).
Definition plus (p : ascii -> bool) : piece := Piece p 1 None.

(** How many leading characters of [s] a class can take, up to [limit]. *)
Fixpoint span_len (p : ascii -> bool) (limit : option nat) (s : pystr) : nat :=
  match s with
  | c :: s' =>
      if p c then
        match limit with
        | Some O => O
        | Some (S k) => S (span_len p (Some k) s')
        | None => S (span_len p None s')
        end
      else O
  | [] => O
  end.

(** Try the continuation after [n], [n-1], ..., [lo] characters. *)
Fixpoint give_back {R} (k : pystr -> option R) (s : pystr) (lo n : nat)
  : option (nat * R) :=
  if (n <? lo)%nat then None
  else
    match k (drop n s) with
    | Some r => Some (n, r)
    | None =>
        match n with
        | O => None
        | S n' => give_back k s lo n'
        end
    end.

(** Match a pattern at the start of [s]: the text each piece took, and
    what is left of [s]. *)
Fixpoint match_here (ps : list piece) (s : pystr) : option (list pystr * pystr) :=
  match ps with
  | [] => Some ([], s)
  | pc :: ps' =>
      match give_back (match_here ps') s (p_min pc)
              (span_len (p_class pc) (p_max pc) s) with
      | Some (n, (caps, rest)) => Some (take n s :: caps, rest)
      | None => None
      end
  end.

(** [re.search(pattern, s)]: the leftmost match, as the text of its pieces. *)
Fixpoint re_search (ps : list piece) (s : pystr) : option (list pystr) :=
  match match_here ps s with
  | Some (caps, _) => Some caps
  | None =>
      match s with
      | [] => None
      | _ :: s' => re_search ps s'
      end
  end.

(** [match.group(0)] *)
Definition group0 (caps : list pystr) : pystr := concat caps.

(** The text of piece [i] (a group made of that single piece). *)
Definition piece_text (caps : list pystr) (i : nat) : pystr := nth i caps [].

(** [re.sub(pattern, repl, s)] for a pattern that cannot match the empty
    string, which holds of both substitutions of the scraper (every piece
    takes at least one character); on an empty match the model copies the
    character, a case those patterns never reach. *)
Fixpoint re_sub_fuel (fuel : nat) (ps : list piece) (repl s : pystr) : pystr :=
  match fuel with
  | O => s
  | S fuel' =>
      match s with
      | [] => []
      | c :: s' =>
          match match_here ps s with
          | Some (_, rest) =>
              if (length rest <? length s)%nat
              then repl ++ re_sub_fuel fuel' ps repl rest
              else c :: re_sub_fuel fuel' ps repl s'
          | None => c :: re_sub_fuel fuel' ps repl s'
          end
      end
  end.

Definition re_sub (ps : list piece) (repl s : pystr) : pystr :=
  re_sub_fuel (length s) ps repl s.


(** ** [datetime.date] *)

Record date : Type := mk_date { year : Z; month : Z; day : Z }.

Definition is_leap (y : Z) : bool :=
  (y mod 4 =? 0) && (negb (y mod 100 =? 0) || (y mod 400 =? 0)).

Definition days_in_month (y m : Z) : Z :=
  if m =? 2 then (if is_leap y then 29 else 28)
  else if (m =? 4) || (m =? 6) || (m =? 9) || (m =? 11) then 30
  else 31.

(** The constructor [date(y, m, d)], which validates its fields. *)
Definition new_date (y m d : Z) : result date :=
  if negb ((1 <=? y) && (y <=? 9999))
  then Raise (ValueError (str "year " ++ str_of_int y ++ str " is out of range"))
  else if negb ((1 <=? m) && (m <=? 12))
  then Raise (ValueError (str "month must be in 1..12"))
  else if negb ((1 <=? d) && (d <=? days_in_month y m))
  then Raise (ValueError (str "day is out of range for month"))
  else Ok (mk_date y m d).

(** The last [width] decimal digits of [z], zero padded: the [%04d] and
    [%02d] of [isoformat] on the fields of a valid date. *)
Fixpoint zfill_digits (width : nat) (z : Z) : pystr :=
  match width with
  | O => []
  | S w => zfill_digits w (z / 10) ++ [chr (48 + z mod 10)]
  end.

(** [d.isoformat()] *)
Definition isoformat (d : date) : pystr :=
  zfill_digits 4 (year d) ++ str "-" ++ zfill_digits 2 (month d)
  ++ str "-" ++ zfill_digits 2 (day d).

(** ** schema.py: [ElectoralEvent.generate_event_id] *)

(** [[^a-z0-9\s-]] *)
Definition not_id_char (c : ascii) : bool :=
  negb (in_range 97 122 c || in_range 48 57 c || is_space c || Ascii.eqb c "-").

Definition generate_event_id (name : pystr) (event_date : date) : pystr :=
  let normalized := re_sub [one not_id_char] [] (py_lower name) in
  let normalized := re_sub [plus is_space] (str "-") (py_strip normalized) in
  normalized ++ str "-" ++ isoformat event_date.

(** ** cee_scraper.py: the date classifier *)

Inductive date_format : Type :=
| fmt_mdY   (* '%m/%d/%Y' *)
| fmt_Ymd.  (* '%Y-%m-%d' *)

(** [(\d{1,2})/(\d{1,2})/(\d{4})] *)
Definition pat_mdY : list piece :=
  [rep is_decimal 1 2; lit_i "/"; rep is_decimal 1 2; lit_i "/"; rep is_decimal 4 4].

(** [(\d{4})-(\d{2})-(\d{2})] *)
Definition pat_Ymd : list piece :=
  [rep is_decimal 4 4; lit_i "-"; rep is_decimal 2 2; lit_i "-"; rep is_decimal 2 2].

(** [(\d{1,2}) de (\w+) de (\d{4})]; its groups are pieces 0, 5 and 10. *)
Definition pat_es : list piece :=
  [rep is_decimal 1 2; lit_i " "; lit_i "d"; lit_i "e"; lit_i " "; plus is_word;
   lit_i " "; lit_i "d"; lit_i "e"; lit_i " "; rep is_decimal 4 4].

(** [20\d{2}] *)
Definition pat_year : list piece := [lit "2"; lit "0"; rep is_decimal 2 2].

Definition patterns : list (list piece * option date_format) :=
  [(pat_mdY, Some fmt_mdY); (pat_Ymd, Some fmt_Ymd); (pat_es, None)].

Definition spanish_months : gmap pystr Z :=
  list_to_map
    [(str "enero", 1); (str "febrero", 2); (str "marzo", 3); (str "abril", 4);
     (str "mayo", 5); (str "junio", 6); (str "julio", 7); (str "agosto", 8);
     (str "septiembre", 9); (str "octubre", 10); (str "noviembre", 11);
     (str "diciembre", 12)].

Definition does_not_match : exn :=
  ValueError (str "time data does not match format").

(** [datetime.strptime(s, fmt).date()] on the strings the scraper passes: a
    whole match of [pat_mdY] or of [pat_Ymd].  On those, [%m] accepts the
    values 1..12, [%d] the values 1..31 and [%Y] four digits; the date is
    then built and validated.  The message of a mismatch is shortened (the
    scraper discards it). *)
Definition strptime (s : pystr) (fmt : date_format) : result date :=
  let fields :=
    match fmt with
    | fmt_mdY =>
        match match_here pat_mdY s with
        | Some (caps, []) =>
            Some (piece_text caps 4, piece_text caps 0, piece_text caps 2)
        | _ => None
        end
    | fmt_Ymd =>
        match match_here pat_Ymd s with
        | Some (caps, []) =>
            Some (piece_text caps 0, piece_text caps 2, piece_text caps 4)
        | _ => None
        end
    end in
  match fields with
  | None => Raise does_not_match
  | Some (y, m, d) =>
      rbind (py_int y) (fun y =>
      rbind (py_int m) (fun m =>
      rbind (py_int d) (fun d =>
      if negb ((1 <=? m) && (m <=? 12) && (1 <=? d) && (d <=? 31))
      then Raise does_not_match
      else new_date y m d)))
  end.

(** The outcome of one turn of a loop whose body may [return]. *)
Inductive loop_step (A : Type) : Type :=
| Return (a : A)
| Continue.
Arguments Return {A} a.
Arguments Continue {A}.

(** [try: return e  except ValueError: continue] *)
Definition return_or_continue {A} (r : result A) : result (loop_step A) :=
  match r with
  | Ok a => Ok (Return a)
  | Raise (ValueError _) => Ok Continue
  | Raise e => Raise e
  end.

(** The body of the loop over [patterns]. *)
Definition try_pattern (date_text : pystr) (p : list piece * option date_format)
  : result (loop_step date) :=
  match re_search p.1 date_text with
  | Some caps =>
      match p.2 with
      | Some date_format => return_or_continue (strptime (group0 caps) date_format)
      | None =>
          let day := piece_text caps 0 in
          let month_name := piece_text caps 5 in
          let year := piece_text caps 10 in
          match spanish_months !! py_lower month_name with
          | Some month =>
              if month =? 0 then Ok Continue
              else
                return_or_continue
                  (rbind (py_int year) (fun y =>
                   rbind (py_int day) (fun d => new_date y month d)))
          | None => Ok Continue
          end
      end
  | None => Ok Continue
  end.

Fixpoint try_patterns (date_text : pystr)
    (ps : list (list piece * option date_format)) : result (loop_step date) :=
  match ps with
  | [] => Ok Continue
  | p :: ps' =>
      rbind (try_pattern date_text p) (fun r =>
      match r with
      | Return d => Ok (Return d)
      | Continue => try_patterns date_text ps'
      end)
  end.

Definition _parse_event_date (date_text : pystr) : result (option date) :=
  let date_text := py_strip date_text in
  rbind (try_patterns date_text patterns) (fun r =>
  match r with
  | Return d => Ok (Some d)
  | Continue =>
      match re_search pat_year date_text with
      | Some caps =>
          rbind (py_int (group0 caps)) (fun year =>
          rbind (new_date year 1 1) (fun d => Ok (Some d)))
      | None => Ok None
      end
  end).

(** ** Floats

    The scraper computes percentages in binary64.  The properties below do
    not depend on rounding, so the schema is stated over any structure with
    the operations it uses: true division of two [int]s (wherever the code
    divides, the divisor is positive; the quotient of a vote count by the
    total is taken to be in the range of a float), the conversion of an
    [int], the product and the comparison [<=]. *)

Class PyFloat : Type := {
  float_t : Type;
  true_div : Z -> Z -> float_t;
  float_of_int : Z -> float_t;
  fmul : float_t -> float_t -> float_t;
  fle : float_t -> float_t -> bool
}.

(** binary64 on [int]s below 2^53, which convert exactly. *)
Definition prim_of_Z (z : Z) : PrimFloat.float :=
  if z <? 0 then PrimFloat.opp (PrimFloat.of_uint63 (Uint63.of_Z (- z)))
  else PrimFloat.of_uint63 (Uint63.of_Z z).

Definition binary64 : PyFloat := {|
  float_t := PrimFloat.float;
  true_div := fun a b => PrimFloat.div (prim_of_Z a) (prim_of_Z b);
  float_of_int := prim_of_Z;
  fmul := PrimFloat.mul;
  fle := PrimFloat.leb
|}.

(** [sum(...)] over [int]s. *)
Definition py_sum (l : list Z) : Z := fold_left Z.add l 0.

(** [l[:n]] *)
Definition slice_to {A} (n : Z) (l : list A) : list A :=
  if 0 <=? n then take (Z.to_nat n) l
  else take (Z.to_nat (Z.of_nat (length l) + n)) l.

(** [sep.join(l)] *)
Fixpoint py_join (sep : pystr) (l : list pystr) : pystr :=
  match l with
  | [] => []
  | [x] => x
  | x :: l' => x ++ sep ++ py_join sep l'
  end.

Definition CEE_BASE_URL : pystr := str "https://ww2.ceepur.org".
Definition CEE_EVENTS_URL : pystr := CEE_BASE_URL ++ str "/Home/EventosElectorales".

Section Schema.
Context {FL : PyFloat}.

(** ** schema.py: the dataclasses

    A constructor [new_X] is the generated [__init__] followed by
    [__post_init__]: it returns the record or raises. *)

Record VoteResult : Type := mk_VoteResult {
  candidate_name : pystr;
  party : option pystr;
  votes : Z;
  percentage : option float_t
}.

Definition new_VoteResult (candidate_name : pystr) (party : option pystr)
    (votes : Z) (percentage : option float_t) : result VoteResult :=
  if votes <? 0
  then rbind (py_str votes) (fun votes =>
       Raise (ValueError (str "Vote count cannot be negative: " ++ votes)))
  else
    match percentage with
    | Some p =>
        if negb (fle (float_of_int 0) p && fle p (float_of_int 100))
        then Raise (ValueError (str "Percentage must be between 0 and 100"))
        else Ok (mk_VoteResult candidate_name party votes percentage)
    | None => Ok (mk_VoteResult candidate_name party votes percentage)
    end.

Record GeographicUnit : Type := mk_GeographicUnit {
  level : pystr;
  code : pystr;
  unit_name : pystr;
  parent_code : option pystr
}.

Record ContestResult : Type := mk_ContestResult {
  office : pystr;
  office_type : option pystr;
  district : option pystr;
  geographic_unit : option GeographicUnit;
  results : list VoteResult;
  total_votes : Z;
  blank_votes : Z;
  null_votes : Z;
  registered_voters : option Z;
  participation_rate : option float_t
}.

Definition new_ContestResult (office : pystr) (results : list VoteResult)
  : result ContestResult :=
  if negb (truthy office) then Raise (ValueError (str "Office name cannot be empty"))
  else Ok (mk_ContestResult office None None None results 0 0 0 None None).

(** [result.percentage = (result.votes / self.total_votes) * 100] *)
Definition set_percentage (total_votes : Z) (r : VoteResult) : VoteResult :=
  mk_VoteResult (candidate_name r) (party r) (votes r)
    (Some (fmul (true_div (votes r) total_votes) (float_of_int 100))).

(** [ContestResult.calculate_totals]: the state of the object after the
    call.  The method updates the [VoteResult] objects in place; each
    update reads only the object's own [votes] and the new total, so a
    result listed twice receives the same value twice and the list of
    values below is the state of the objects. *)
Definition calculate_totals (self : ContestResult) : ContestResult :=
  let total := py_sum (map votes (results self)) + blank_votes self + null_votes self in
  mk_ContestResult (office self) (office_type self) (district self)
    (geographic_unit self)
    (if 0 <? total then map (set_percentage total) (results self) else results self)
    total (blank_votes self) (null_votes self)
    (registered_voters self) (participation_rate self).

Record ElectoralEvent : Type := mk_ElectoralEvent {
  event_id : pystr;
  name : pystr;
  event_type : pystr;
  event_date : date;
  description : option pystr;
  source_url : option pystr;
  results_url : option pystr;
  contests : list ContestResult;
  metadata : gmap pystr pystr
}.

Definition valid_types : list pystr :=
  map EventType_value [GENERAL; PRIMARY; SPECIAL; PLEBISCITE; REFERENDUM].

Definition new_ElectoralEvent (event_id name event_type : pystr) (event_date : date)
    (source_url results_url : option pystr) (metadata : gmap pystr pystr)
  : result ElectoralEvent :=
  if negb (truthy event_id) then Raise (ValueError (str "Event ID cannot be empty"))
  else if negb (truthy name) then Raise (ValueError (str "Event name cannot be empty"))
  else if negb (bool_decide (event_type ∈ valid_types))
  then Raise (ValueError (str "Invalid event type: " ++ event_type))
  else Ok (mk_ElectoralEvent event_id name event_type event_date None
             source_url results_url [] metadata).

Record ScrapedPage : Type := mk_ScrapedPage {
  url : pystr;
  scraped_at : pystr;
  status_code : Z;
  content_hash : pystr;
  raw_html : option pystr;
  extracted_data : option (gmap pystr pystr);
  error : option pystr
}.

Definition new_ScrapedPage (url scraped_at : pystr) (status_code : Z)
    (content_hash : pystr) (raw_html error : option pystr) : result ScrapedPage :=
  if negb (truthy url) then Raise (ValueError (str "URL cannot be empty"))
  else if (status_code <? 100) || (600 <=? status_code)
  then rbind (py_str status_code) (fun status_code =>
       Raise (ValueError (str "Invalid HTTP status code: " ++ status_code)))
  else Ok (mk_ScrapedPage url scraped_at status_code content_hash raw_html None error).

End Schema.

(** ** cee_scraper.py: the listing page as the discoverer reads it

    BeautifulSoup is outside the repository: a parsed listing page is given
    by what the four heuristics read from it. *)

(** A [td] or [th]: [get_text(strip=True)] and the [href]s of the links
    inside it that carry one, in document order. *)
Record cell : Type := mk_cell { cell_text : pystr; cell_hrefs : list pystr }.

(** A [div] or [li]: its text and the [href] of its first link with one. *)
Record block : Type := mk_block { block_text : pystr; block_href : option pystr }.

(** A link with an [href]: its text, the [href], and the text of its parent. *)
Record anchor : Type := mk_anchor {
  a_text : pystr;
  a_href : pystr;
  a_parent_text : option pystr
}.

Record listing : Type := mk_listing {
  rows : list (list cell);   (* soup.find_all('tr'), each with its td/th cells *)
  divs : list block;         (* divs whose class matches event|electoral|resultado *)
  lis : list block;          (* soup.find_all('li') *)
  anchors : list anchor      (* soup.find_all('a', href=True) *)
}.

(** An event descriptor: the dict with keys [name], [date_text],
    [event_date], [results_url] and [source_url]. *)
Record event_dict : Type := mk_event {
  ev_name : pystr;
  ev_date_text : pystr;
  ev_event_date : option date;
  ev_results_url : option pystr;
  ev_source_url : pystr
}.

(** What [session.get] does for a URL: a response, or a
    [requests.RequestException] whose [str] is [msg]. *)
Inductive http_outcome : Type :=
| Response (status_code : Z) (text : pystr)
| TransportFailure (msg : pystr).

(** [response.ok] *)
Definition response_ok (status_code : Z) : bool :=
  negb ((400 <=? status_code) && (status_code <? 600)).

Definition _is_results_link (href : pystr) : bool :=
  if negb (truthy href) then false
  else
    let href_lower := py_lower href in
    let keywords := [str "resultado"; str "result"; str "elecciones";
                     str "election"; str "ceepur.org"] in
    existsb (fun kw => contains kw href_lower) keywords.

(** [19\d{2}], the second alternative of the year test on table rows. *)
Definition pat_year19 : list piece := [lit "1"; lit "9"; rep is_decimal 2 2].

(** The key of the deduplication: [(name, results_url)]. *)
Definition dedup_key (event : event_dict) : pystr * option pystr :=
  (ev_name event, ev_results_url event).

(** The loop that removes duplicates, with its set [seen] and its list
    [unique_events]. *)
Fixpoint dedup_loop (seen : gset (pystr * option pystr))
    (unique_events events : list event_dict) : list event_dict :=
  match events with
  | [] => unique_events
  | event :: events' =>
      let key := dedup_key event in
      if bool_decide (key ∉ seen) && truthy (ev_name event)
      then dedup_loop ({[key]} ∪ seen) (unique_events ++ [event]) events'
      else dedup_loop seen unique_events events'
  end.

Definition deduplicate (events : list event_dict) : list event_dict :=
  dedup_loop ∅ [] events.

Section Discoverer.
(** [urllib.parse.urljoin]: it returns the joined URL or raises (a
    [ValueError] for an [href] such as "//[resultado", whose host opens a
    bracket that is never closed). *)
Variable urljoin : pystr -> pystr -> result pystr.

(** [results_url = urljoin(CEE_BASE_URL, href)] *)
Definition join_base (href : pystr) : result (option pystr) :=
  rbind (urljoin CEE_BASE_URL href) (fun results_url => Ok (Some results_url)).

Definition _extract_event_from_row (cells : list cell) : result (option event_dict) :=
  let text_content := py_join (str " ") (map cell_text cells) in
  if negb (bool_decide (is_Some (re_search pat_year text_content))
           || bool_decide (is_Some (re_search pat_year19 text_content)))
  then Ok None
  else
    let links := concat (map cell_hrefs cells) in
    rbind (match List.find _is_results_link links with
           | Some href => join_base href
           | None => Ok None
           end) (fun results_url =>
    let name :=
      List.find (fun cell_text => truthy cell_text && (5 <? length cell_text)%nat)
        (map cell_text cells) in
    match name with
    | None => Ok None
    | Some name =>
        rbind (_parse_event_date text_content) (fun event_date =>
        Ok (Some (mk_event name text_content event_date results_url CEE_EVENTS_URL)))
    end).

Definition _extract_event_from_div (div : block) : result (option event_dict) :=
  let text := block_text div in
  if negb (truthy text) || (length text <? 10)%nat then Ok None
  else
    rbind (match block_href div with
           | Some href => if truthy href then join_base href else Ok None
           | None => Ok None
           end) (fun results_url =>
    rbind (_parse_event_date text) (fun event_date =>
    Ok (Some (mk_event (take 200 text) text event_date results_url CEE_EVENTS_URL)))).

Definition _extract_event_from_link (li : block) (href : pystr)
  : result (option event_dict) :=
  let text := block_text li in
  if negb (truthy text) || negb (truthy href) then Ok None
  else
    rbind (_parse_event_date text) (fun event_date =>
    rbind (join_base href) (fun results_url =>
    Ok (Some (mk_event (take 200 text) text event_date results_url CEE_EVENTS_URL)))).

Definition _extract_event_from_standalone_link (link : anchor)
  : result (option event_dict) :=
  let text := a_text link in
  let href := a_href link in
  if negb (truthy text) || (length text <? 5)%nat then Ok None
  else
    let context := match a_parent_text link with Some t => t | None => text end in
    rbind (_parse_event_date context) (fun event_date =>
    rbind (join_base href) (fun results_url =>
    Ok (Some (mk_event text context event_date results_url CEE_EVENTS_URL)))).

(** [if event_info: events.append(event_info)] *)
Definition append_info (events : list event_dict) (event_info : option event_dict)
  : list event_dict :=
  match event_info with
  | Some e => events ++ [e]
  | None => events
  end.

(** One loop of [scrape_events_list]: [body] yields the descriptor of an
    element, given the events gathered so far. *)
Fixpoint gather {A} (body : list event_dict -> A -> result (option event_dict))
    (xs : list A) (events : list event_dict) : result (list event_dict) :=
  match xs with
  | [] => Ok events
  | x :: xs' =>
      rbind (body events x) (fun event_info =>
      gather body xs' (append_info events event_info))
  end.

(** The four heuristics of [scrape_events_list], in order, on one page. *)
Definition discover (soup : listing) : result (list event_dict) :=
  let events := [] in
  (* Pattern 1: table rows *)
  rbind (gather (fun _ cells =>
                   if (2 <=? length cells)%nat then _extract_event_from_row cells
                   else Ok None)
           (rows soup) events) (fun events =>
  (* Pattern 2: div blocks *)
  rbind (gather (fun _ div => _extract_event_from_div div) (divs soup) events)
    (fun events =>
  (* Pattern 3: list items with links *)
  rbind (gather (fun _ li =>
                   match block_href li with
                   | Some href =>
                       if _is_results_link href then _extract_event_from_link li href
                       else Ok None
                   | None => Ok None
                   end)
           (lis soup) events) (fun events =>
  (* Pattern 4: links with result-related keywords *)
  gather (fun events link =>
            let href := a_href link in
            if _is_results_link href && truthy (a_text link) then
              if negb (existsb (fun e => bool_decide (ev_results_url e = Some href)) events)
              then _extract_event_from_standalone_link link
              else Ok None
            else Ok None)
    (anchors soup) events))).

End Discoverer.

(** ** cee_scraper.py: the scraper

    The network, the clock, the digest, URL joining and the HTML parsers are
    outside the repository: an [environment] gives them.  The rate limiter
    only delays a request and logging only prints, so neither appears.
    [_extract_contests] is taken with its page already parsed: it returns
    the contests of a results page or raises, and writes no file. *)

Record environment {FL : PyFloat} : Type := mk_environment {
  http_get : pystr -> http_outcome;
  utcnow_isoformat : pystr;
  md5_hexdigest : pystr -> pystr;
  urljoin : pystr -> pystr -> result pystr;
  BeautifulSoup : pystr -> listing;
  _extract_contests : pystr -> pystr -> result (list ContestResult)
}.

Section Scraper.
Context {FL : PyFloat}.
Variable env : environment.

(** [self.max_events]; the other settings of [__init__] do not bear on
    what is computed. *)
Variable max_events : option Z.

Definition _fetch_page (url : pystr) : result ScrapedPage :=
  let scraped_at := utcnow_isoformat env in
  match http_get env url with
  | Response status_code content =>
      let content_hash := md5_hexdigest env content in
      new_ScrapedPage url scraped_at status_code content_hash (Some content)
        (if response_ok status_code then None
         else Some (str "HTTP " ++ str_of_int status_code))
  | TransportFailure msg =>
      new_ScrapedPage url scraped_at 0 (str "") None (Some msg)
  end.

(** One entry of the summary's [events]. *)
Record summary_entry : Type := mk_summary_entry {
  se_event_id : pystr;
  se_name : pystr;
  se_event_type : pystr;
  se_event_date : option pystr;
  se_contests_count : Z
}.

(** What [_save_json] is given, and what a file holds: the data of a call
    that returned, or what is left of a call that raised.  [open] has then
    emptied the file and [json.dump] has written the start of the text of
    its data, up to the value it could not write. *)
Inductive json_data : Type :=
| EventsList (events : list event_dict) (scraped_at : pystr)
| EventData (event : ElectoralEvent)
| Summary (total_events_found events_processed : Z) (scraped_at : pystr)
    (events : list summary_entry)
| Unfinished (data : json_data).

(** The [int]s of a contest, in the order [json.dump] writes them. *)
Definition contest_ints (c : ContestResult) : list Z :=
  map votes (results c)
  ++ [total_votes c; blank_votes c; null_votes c]
  ++ match registered_voters c with Some n => [n] | None => [] end.

(** The [int]s that [json.dump] has to convert.  An events list holds
    none, and those of a summary are lengths of lists, which are below
    [sys.maxsize]; the other values are strings, floats and dates, which
    [json.dump] with [default=str] writes whatever they are. *)
Fixpoint json_ints (data : json_data) : list Z :=
  match data with
  | EventsList _ _ => []
  | EventData event => concat (map contest_ints (contests event))
  | Summary _ _ _ _ => []
  | Unfinished data => json_ints data
  end.

(** [json.dump] returns: every [int] of the data has at most 4300 digits. *)
Definition json_dumps_ok (data : json_data) : bool :=
  forallb int_str_ok (json_ints data).

(** The files of [output_dir], by name. *)
Definition output_dir : Type := gmap pystr json_data.

(** Code that writes files: it returns or raises, and leaves a directory. *)
Definition M (A : Type) : Type := output_dir -> result A * output_dir.

Definition ret {A} (a : A) : M A := fun fs => (Ok a, fs).

Definition bind {A B} (m : M A) (k : A -> M B) : M B :=
  fun fs =>
    match m fs with
    | (Ok a, fs') => k a fs'
    | (Raise e, fs') => (Raise e, fs')
    end.

Definition lift {A} (r : result A) : M A := fun fs => (r, fs).

Notation "x <- m ;; k" := (bind m (fun x => k))
  (at level 100, m at next level, right associativity).

(** Truth value of a list. *)
Definition nonempty {A} (l : list A) : bool :=
  match l with [] => false | _ :: _ => true end.

(** Truth value of an optional string. *)
Definition truthy_opt (s : option pystr) : bool :=
  match s with Some s => truthy s | None => false end.

Definition _save_json (data : json_data) (filename : pystr) : M unit :=
  fun fs =>
    if json_dumps_ok data then (Ok tt, <[filename := data]> fs)
    else (Raise int_too_long, <[filename := Unfinished data]> fs).

Definition _save_electoral_event (event : ElectoralEvent) (filename : pystr) : M unit :=
  _save_json (EventData event) filename.

Definition scrape_events_list : M (list event_dict) :=
  page <- lift (_fetch_page CEE_EVENTS_URL) ;;
  if truthy_opt (error page) then ret []
  else
    let soup := BeautifulSoup env (default [] (raw_html page)) in
    events <- lift (discover (urljoin env) soup) ;;
    let unique_events := deduplicate events in
    _ <- _save_json (EventsList unique_events (scraped_at page)) (str "events_list.json") ;;
    ret unique_events.

(** [electoral_event.contests = contests] *)
Definition set_contests (e : ElectoralEvent) (contests : list ContestResult)
  : ElectoralEvent :=
  mk_ElectoralEvent (event_id e) (name e) (event_type e) (event_date e)
    (description e) (source_url e) (results_url e) contests (metadata e).

Definition scrape_event_results (event : event_dict) : M (option ElectoralEvent) :=
  match ev_results_url event with
  | Some results_url =>
      if negb (truthy results_url) then ret None
      else
        page <- lift (_fetch_page results_url) ;;
        if truthy_opt (error page) then ret None
        else
          let soup := default [] (raw_html page) in
          let date_ := default (mk_date 2024 1 1) (ev_event_date event) in
          let type_ := _determine_event_type (ev_name event) in
          electoral_event <- lift (new_ElectoralEvent
            (generate_event_id (ev_name event) date_)
            (ev_name event) type_ date_
            (Some (ev_source_url event)) (Some results_url)
            (<[str "scraped_at" := scraped_at page]>
               {[str "content_hash" := content_hash page]})) ;;
          contests <- lift (_extract_contests env soup results_url) ;;
          let electoral_event := set_contests electoral_event contests in
          let event_filename := str "event_" ++ event_id electoral_event ++ str ".json" in
          _ <- _save_electoral_event electoral_event event_filename ;;
          ret (Some electoral_event)
  | None => ret None
  end.

(** The cap of [run]: [if self.max_events: events = events[:self.max_events]]. *)
Definition apply_max_events (events : list event_dict) : list event_dict :=
  match max_events with
  | Some n => if n =? 0 then events else slice_to n events
  | None => events
  end.

(** The log line of the cap, [f"Limited to {self.max_events} events"]: the
    message is built before it is logged, and an [int] of more than 4300
    digits cannot be formatted.  The other log lines hold strings, lengths
    of lists and the delay, which always can. *)
Definition log_max_events : result unit :=
  match max_events with
  | Some n => if n =? 0 then Ok tt else rbind (py_str n) (fun _ => Ok tt)
  | None => Ok tt
  end.

(** The loop of [run] over the events, each turn inside
    [try ... except Exception: continue]. *)
Fixpoint scrape_each (events : list event_dict)
    (electoral_events : list ElectoralEvent) : M (list ElectoralEvent) :=
  match events with
  | [] => ret electoral_events
  | event :: events' =>
      fun fs =>
        match scrape_event_results event fs with
        | (Ok (Some electoral_event), fs') =>
            scrape_each events' (electoral_events ++ [electoral_event]) fs'
        | (Ok None, fs') => scrape_each events' electoral_events fs'
        | (Raise _, fs') => scrape_each events' electoral_events fs'
        end
  end.

Definition summary_of (e : ElectoralEvent) : summary_entry :=
  mk_summary_entry (event_id e) (name e) (event_type e)
    (Some (isoformat (event_date e))) (Z.of_nat (length (contests e))).

Definition run : M (list ElectoralEvent) :=
  events <- scrape_events_list ;;
  if negb (nonempty events) then ret []
  else
    let events := apply_max_events events in
    _ <- lift log_max_events ;;
    electoral_events <- scrape_each events [] ;;
    let summary :=
      Summary (Z.of_nat (length events)) (Z.of_nat (length electoral_events))
        (utcnow_isoformat env) (map summary_of electoral_events) in
    _ <- _save_json summary (str "scraping_summary.json") ;;
    ret electoral_events.

End Scraper.

(** * The specification's words

    Definitions that follow the text of the specification, to be compared
    with the code above. *)

(** A keyword occurs in a name case-insensitively: some substring of the
    name equals the keyword once both are lowercased. *)
Definition occurs_ci (keyword name : pystr) : Prop :=
  ∃ before w after, name = before ++ w ++ after ∧ py_lower w = py_lower keyword.

(** The bilingual keywords of each type, in the order they are checked. *)
Definition priority_order : list (EventType * list pystr) :=
  [(PLEBISCITE, [str "plebiscito"; str "plebiscite"]);
   (PRIMARY, [str "primaria"; str "primary"]);
   (SPECIAL, [str "especial"; str "special"]);
   (REFERENDUM, [str "referendum"; referendum_es])].

Definition keyword_occurs (name : pystr) (entry : EventType * list pystr) : Prop :=
  ∃ kw, kw ∈ entry.2 ∧ occurs_ci kw name.

(** The test the classifier makes for one entry of the priority order. *)
Definition entry_test (name : pystr) (entry : EventType * list pystr) : bool :=
  existsb (fun kw => contains kw (py_lower name)) entry.2.

(** "a–z, 0–9, whitespace, or hyphen" *)
Definition id_char (c : ascii) : bool :=
  in_range 97 122 c || in_range 48 57 c || is_space c || Ascii.eqb c "-".

(** "collapse internal whitespace runs to single hyphens": a white-space
    character is internal when some other character stands before it and
    some other character after it; leading and trailing white space is left
    for the trim. *)
Fixpoint collapse_internal (text_before in_run : bool) (s : pystr) : pystr :=
  match s with
  | [] => []
  | c :: s' =>
      if is_space c then
        if text_before && existsb (fun x => negb (is_space x)) s'
        then
          if in_run then collapse_internal text_before true s'
          else "-"%char :: collapse_internal text_before true s'
        else c :: collapse_internal text_before in_run s'
      else c :: collapse_internal true false s'
  end.

(** The event id as the specification derives it: lowercase, strip, collapse,
    trim, append. *)
Definition event_id_spec (name : pystr) (event_date : date) : pystr :=
  let lowered := py_lower name in
  let stripped := List.filter id_char lowered in
  let collapsed := collapse_internal false false stripped in
  let trimmed := py_strip collapsed in
  trimmed ++ str "-" ++ isoformat event_date.

(** Every white-space run becomes one hyphen. *)
Fixpoint collapse_ws (in_run : bool) (s : pystr) : pystr :=
  match s with
  | [] => []
  | c :: s' =>
      if is_space c then
        if in_run then collapse_ws true s' else "-"%char :: collapse_ws true s'
      else c :: collapse_ws false s'
  end.

(** "first occurrence wins, insertion order preserved": the descriptor at
    position [i] stays when no earlier position holds its key. *)
Definition first_occurrences (events : list event_dict) : list event_dict :=
  omap id
    (imap (fun i e =>
             if bool_decide (dedup_key e ∈ map dedup_key (take i events))
             then None else Some e)
       events).

(** [first_occurrences] on the rest of a list, the keys of the [earlier]
    positions being known. *)
Definition first_from (earlier events : list event_dict) : list event_dict :=
  omap id
    (imap (fun i e =>
             if bool_decide (dedup_key e ∈ map dedup_key (earlier ++ take i events))
             then None else Some e)
       events).

(** A descriptor with a non-empty name. *)
Definition named (e : event_dict) : Prop := truthy (ev_name e) = true.

(** The value of a string of decimal digits. *)
Definition decimal_value (s : pystr) : Z :=
  fold_left (fun acc c => 10 * acc + digit_val c) s 0.

(** * Example environments *)

(** A join that is enough for the examples: an absolute [href] is kept,
    and an [href] with an opening bracket and no closing one is refused. *)
Definition example_urljoin (base href : pystr) : result pystr :=
  if contains (str "[") href && negb (contains (str "]") href)
  then Raise (ValueError (str "Invalid IPv6 URL"))
  else Ok (if starts_with (str "http") href then href else base ++ href).

Definition results_page_url : pystr := str "https://elecciones2024.ceepur.org".

(** The listing of the integration test: one table row that names the
    event, gives its date and links to its results. *)
Definition example_listing : listing :=
  mk_listing
    [[mk_cell (str "Elecciones Generales 2024") [];
      mk_cell (str "11/05/2024") [];
      mk_cell (str "Resultados") [results_page_url]]]
    [] [] [mk_anchor (str "Resultados") results_page_url (Some (str "Resultados"))].

(** The contest of the integration test before its totals are computed. *)
Definition example_contest : @ContestResult binary64 :=
  mk_ContestResult (str "Gobernador") None None None
    [mk_VoteResult (str "Jenniffer Gonzalez") (Some (str "PNP")) 500000 None;
     mk_VoteResult (str "Juan Dalmau") (Some (str "PIP")) 450000 None]
    0 0 0 None None.

(** A listing that yields the same descriptor more than once: a table row
    that appears twice, a div without a link that appears twice, and a
    third row. *)
Definition duplicate_listing : listing :=
  let general :=
    [mk_cell (str "Elecciones Generales 2024") [];
     mk_cell (str "Resultados") [results_page_url]] in
  let primary :=
    [mk_cell (str "Primarias Locales 2024") [];
     mk_cell (str "Resultados") [str "/primarias/resultados"]] in
  let plebiscite := mk_block (str "Plebiscito 2024 sin enlace") None in
  mk_listing [general; primary; general] [plebiscite; plebiscite] [] [].

Definition duplicate_events : list event_dict :=
  Eval vm_compute in
    match discover example_urljoin duplicate_listing with
    | Ok events => events
    | Raise _ => []
    end.

(** Every request is answered with status 200. *)
Definition env_ok : @environment binary64 :=
  mk_environment binary64
    (fun _ => Response 200 (str "<html></html>"))
    (str "2024-11-06T00:00:00")
    (fun _ => str "d41d8cd98f00b204e9800998ecf8427e")
    example_urljoin
    (fun _ => example_listing)
    (fun _ _ => Ok [calculate_totals example_contest]).

(** As [env_ok], with a results page whose table has an empty caption, so
    that building the contest raises. *)
Definition env_extraction_fails : @environment binary64 :=
  mk_environment binary64
    (http_get env_ok) (utcnow_isoformat env_ok) (md5_hexdigest env_ok)
    example_urljoin (fun _ => example_listing)
    (fun _ _ => Raise (ValueError (str "Office name cannot be empty"))).

(** As [env_ok], with a listing page in which no heuristic finds an event. *)
Definition env_no_events : @environment binary64 :=
  mk_environment binary64
    (http_get env_ok) (utcnow_isoformat env_ok) (md5_hexdigest env_ok)
    example_urljoin (fun _ => mk_listing [] [] [] [])
    (_extract_contests env_ok).

(** Every request times out. *)
Definition env_offline : @environment binary64 :=
  mk_environment binary64
    (fun _ => TransportFailure (str "Read timed out."))
    (utcnow_isoformat env_ok) (md5_hexdigest env_ok)
    example_urljoin (BeautifulSoup env_ok) (_extract_contests env_ok).

(** The name of the run-level summary. *)
Definition summary_file : pystr := str "scraping_summary.json".

(** An event is lost when its results cannot be turned into an
    [ElectoralEvent]: [scrape_event_results] returns [None] or raises. *)
Definition extraction_fails {FL : PyFloat} (env : environment) (event : event_dict)
  : Prop :=
  ∀ fs e fs', scrape_event_results env event fs ≠ (Ok (Some e), fs').

(** What discovery finds and leaves behind in [env_extraction_fails],
    starting from an empty directory. *)
Definition example_events : list event_dict :=
  Eval vm_compute in
    match fst (scrape_events_list env_extraction_fails ∅) with
    | Ok events => events
    | Raise _ => []
    end.

Definition example_dir : output_dir :=
  snd (scrape_events_list env_extraction_fails ∅).

(** A computation that can only raise [ValueError]. *)
Definition only_ValueError {A} (r : result A) : Prop :=
  match r with
  | Raise (RequestException _) => False
  | _ => True
  end.

(** * More of the specification's vocabulary *)

(** A date of the calendar, as [datetime.date] accepts it. *)
Definition valid_date (d : date) : Prop :=
  1 ≤ year d ≤ 9999 ∧ 1 ≤ month d ≤ 12 ∧ 1 ≤ day d ≤ days_in_month (year d) (month d).

(** The text holds [n] consecutive decimal digits. *)
Definition has_digit_run (n : nat) (s : pystr) : Prop :=
  ∃ pre w post, s = pre ++ w ++ post ∧ length w = n ∧ forallb is_decimal w = true.

(** The test for [has_digit_run]. *)
Fixpoint digit_run_b (n : nat) (s : pystr) : bool :=
  (Nat.eqb (length (take n s)) n && forallb is_decimal (take n s))
  || match s with
     | [] => false
     | _ :: s' => digit_run_b n s'
     end.

(** What every descriptor of the discoverer holds: a name, the listing page
    as its source, and as its date what the date classifier reads in its
    date text, which is a date of the calendar when there is one. *)
Definition well_formed_descriptor (e : event_dict) : Prop :=
  named e ∧ ev_source_url e = CEE_EVENTS_URL
  ∧ _parse_event_date (ev_date_text e) = Ok (ev_event_date e)
  ∧ (∀ d, ev_event_date e = Some d → valid_date d).

(** The outcome of an extractor: what it returns is well formed, and what
    it raises was raised by [urljoin] for some [href]. *)
Definition extractor_ok (urljoin : pystr -> pystr -> result pystr)
    (r : result (option event_dict)) : Prop :=
  match r with
  | Ok info => ∀ e, info = Some e → well_formed_descriptor e
  | Raise ex => ∃ href, urljoin CEE_BASE_URL href = Raise ex
  end.

(** Every request is answered with status 404 and an empty body. *)
Definition env_404 : @environment binary64 :=
  mk_environment binary64
    (fun _ => Response 404 [])
    (utcnow_isoformat env_ok) (md5_hexdigest env_ok)
    example_urljoin (BeautifulSoup env_ok) (_extract_contests env_ok).

(** The name of the file of the events list. *)
Definition events_list_file : pystr := str "events_list.json".

Section Outcomes.
Context {FL : PyFloat}.

(** The name of the file of an event. *)
Definition event_file (e : ElectoralEvent) : pystr :=
  str "event_" ++ event_id e ++ str ".json".

(** The three kinds of file the scraper writes. *)
Definition scraper_file (f : pystr) : bool :=
  bool_decide (f = events_list_file) || bool_decide (f = summary_file)
  || starts_with (str "event_") f.

(** From [fs] to [fs'] only files of the scraper were written, and no file
    was removed. *)
Definition writes_only_scraper_files (fs fs' : output_dir) : Prop :=
  ∀ f, (scraper_file f = false → fs' !! f = fs !! f)
       ∧ (is_Some (fs !! f) → is_Some (fs' !! f)).

(** Every event of the list has its file in the directory.  The file
    holds an event of the list with that id (the last one saved), or what
    is left of an event with that id that [json.dump] could not write. *)
Definition saved (fs : output_dir) (l : list ElectoralEvent) : Prop :=
  Forall (fun e => ∃ e', event_id e' = event_id e
                         ∧ (fs !! event_file e = Some (EventData e') ∧ e' ∈ l
                            ∨ fs !! event_file e = Some (Unfinished (EventData e'))
                              ∧ json_dumps_ok (EventData e') = false)) l.

(** What every event of a run holds. *)
Definition well_formed_event (e : ElectoralEvent) : Prop :=
  truthy (name e) = true ∧ event_type e ∈ valid_types
  ∧ (∃ url, results_url e = Some url ∧ truthy url = true)
  ∧ event_id e = generate_event_id (name e) (event_date e).

End Outcomes.


(** The descriptor of the integration test. *)
Definition example_event : event_dict :=
  mk_event (str "Elecciones Generales 2024") (str "11/05/2024")
    (Some (mk_date 2024 11 5)) (Some results_page_url) CEE_EVENTS_URL.

(** The characters of an event id: a-z, 0-9 and the hyphen. *)
Definition id_alphabet (c : ascii) : bool :=
  in_range 97 122 c || in_range 48 57 c || Ascii.eqb c "-".

(** The name part of an event id. *)
Definition normalized_name (name : pystr) : pystr :=
  collapse_ws false (py_strip (List.filter id_char (py_lower name))).

(** * More of schema.py *)

(** ** [Candidate]

    The fields [name] and [party] of the source are [cand_name] and
    [cand_party] here, the plain names being those of [ElectoralEvent] and
    [VoteResult]. *)
Record Candidate : Type := mk_Candidate {
  cand_name : pystr;
  cand_party : option pystr;
  party_abbreviation : option pystr;
  incumbent : bool
}.

(** The generated [__init__] followed by [__post_init__], which replaces
    the name by the stripped name. *)
Definition new_Candidate (name : pystr) (party party_abbreviation : option pystr)
    (incumbent : bool) : result Candidate :=
  if negb (truthy name) || negb (truthy (py_strip name))
  then Raise (ValueError (str "Candidate name cannot be empty"))
  else Ok (mk_Candidate (py_strip name) party party_abbreviation incumbent).

(** ** [validate_precinct_code] *)

(** Matching a sequence of pieces followed by a test [k] on what is left:
    the pieces give characters back until [k] accepts. *)
Fixpoint match_then {R} (ps : list piece) (k : pystr -> option R) (s : pystr)
  : option (list pystr * R) :=
  match ps with
  | [] => option_map (pair []) (k s)
  | pc :: ps' =>
      match give_back (match_then ps' k) s (p_min pc)
              (span_len (p_class pc) (p_max pc) s) with
      | Some (n, (caps, r)) => Some (take n s :: caps, r)
      | None => None
      end
  end.

(** [$] without [re.MULTILINE]: the end of the string, or just before a
    newline that ends the string. *)
Definition at_end (s : pystr) : option unit :=
  match s with
  | [] => Some tt
  | [c] => if Ascii.eqb c (chr 10) then Some tt else None
  | _ => None
  end.

(** [\d{1,3}[-_]?\d{1,4}] *)
Definition pat_precinct : list piece :=
  [rep is_decimal 1 3;
   rep (fun c => Ascii.eqb c "-" || Ascii.eqb c "_") 0 1;
   rep is_decimal 1 4].

(** [re.match] tries the pattern at the start of the string only. *)
Definition validate_precinct_code (code : pystr) : bool :=
  if negb (truthy code) then false
  else bool_decide (is_Some (match_then pat_precinct at_end code)).

(** ** [ContestResult.__post_init__] on any object *)

Section ContestValidation.
Context {FL : PyFloat}.

Definition ContestResult_post_init (self : ContestResult) : result unit :=
  if negb (truthy (office self))
  then Raise (ValueError (str "Office name cannot be empty"))
  else if total_votes self <? 0
  then rbind (py_str (total_votes self)) (fun n =>
       Raise (ValueError (str "Total votes cannot be negative: " ++ n)))
  else if blank_votes self <? 0
  then rbind (py_str (blank_votes self)) (fun n =>
       Raise (ValueError (str "Blank votes cannot be negative: " ++ n)))
  else if null_votes self <? 0
  then rbind (py_str (null_votes self)) (fun n =>
       Raise (ValueError (str "Null votes cannot be negative: " ++ n)))
  else Ok tt.

End ContestValidation.

(** The shape of a precinct code: one to three digits, at most one hyphen
    or underscore, one to four digits. *)
Definition precinct_shape (s : pystr) : Prop :=
  ∃ a sep b,
    s = a ++ sep ++ b
    ∧ forallb is_decimal a = true ∧ (1 ≤ length a ≤ 3)%nat
    ∧ (sep = [] ∨ sep = str "-" ∨ sep = str "_")
    ∧ forallb is_decimal b = true ∧ (1 ≤ length b ≤ 4)%nat.

(** A piece took [cap]: characters of its class, within its bounds. *)
Definition piece_takes (pc : piece) (cap : pystr) : Prop :=
  forallb (p_class pc) cap = true
  ∧ (p_min pc ≤ length cap)%nat
  ∧ match p_max pc with
    | Some l => (length cap ≤ l)%nat
    | None => True
    end.

(** * cee_scraper.py: the contests of a results page *)

(** A [table] element as the extractor reads it: for each [tr], in
    document order, the texts of its cells ([get_text(strip=True)] of each
    [td] and [th]); the text of the [caption] and the text of the nearest
    preceding heading, when there is one. *)
Record table : Type := mk_table {
  t_rows : list (list pystr);
  t_caption : option pystr;
  t_prev_heading : option pystr
}.

(** A results page as [_extract_contests] reads it: its tables, and the
    texts ([get_text(strip=True)]) of the divs whose class matches
    [result|vote|contest]. *)
Record results_page : Type := mk_results_page {
  page_tables : list table;
  page_divs : list pystr
}.

Definition vote_keywords : list pystr :=
  [str "votos"; str "votes"; str "candidato"; str "candidate"; str "partido";
   str "party"; str "%"].

(** The four column indices, each [None] at first. *)
Record columns : Type := mk_columns {
  candidate_col : option nat;
  party_col : option nat;
  votes_col : option nat;
  percent_col : option nat
}.

(** One turn of the loop over [enumerate(headers)]. *)
Definition header_step (cols : columns) (i : nat) (header : pystr) : columns :=
  if contains (str "candidato") header || contains (str "candidate") header
     || contains (str "nombre") header
  then mk_columns (Some i) (party_col cols) (votes_col cols) (percent_col cols)
  else if contains (str "partido") header || contains (str "party") header
  then mk_columns (candidate_col cols) (Some i) (votes_col cols) (percent_col cols)
  else if contains (str "voto") header || contains (str "vote") header
  then mk_columns (candidate_col cols) (party_col cols) (Some i) (percent_col cols)
  else if contains (str "%") header || contains (str "porciento") header
          || contains (str "percent") header
  then mk_columns (candidate_col cols) (party_col cols) (votes_col cols) (Some i)
  else cols.

Fixpoint find_columns (i : nat) (headers : list pystr) (cols : columns) : columns :=
  match headers with
  | [] => cols
  | header :: headers' => find_columns (S i) headers' (header_step cols i header)
  end.

(** [if candidate_col is None and len(headers) >= 2: ...] *)
Definition infer_columns (headers : list pystr) (cols : columns) : columns :=
  match candidate_col cols with
  | None =>
      if (2 <=? length headers)%nat
      then mk_columns (Some 0%nat) (party_col cols) (Some (length headers - 1)%nat)
             (percent_col cols)
      else cols
  | Some _ => cols
  end.

Definition header_like : list pystr :=
  [str "candidato"; str "candidate"; str "total"; str "totales"].

(** [[,\s]] *)
Definition comma_or_space (c : ascii) : bool := Ascii.eqb c "," || is_space c.

(** [[\d.]+] *)
Definition pat_percent : list piece :=
  [plus (fun c => is_decimal c || Ascii.eqb c ".")].

(** [[A-Za-z\s]+], [[\s:]+] and [\d{1,3}]: the pattern of the div
    fallback up to the first digits of the count. *)
Definition ascii_letter (c : ascii) : bool := in_range 65 90 c || in_range 97 122 c.

Definition vote_prefix : list piece :=
  [plus (fun c => ascii_letter c || is_space c);
   plus (fun c => is_space c || Ascii.eqb c ":");
   rep is_decimal 1 3].

(** [(?:,\d{3})*]: what the groups take, and what is left. *)
Fixpoint thousands (s : pystr) : pystr * pystr :=
  match s with
  | c :: d1 :: d2 :: d3 :: s' =>
      if Ascii.eqb c "," && is_decimal d1 && is_decimal d2 && is_decimal d3
      then let '(taken, rest) := thousands s' in (c :: d1 :: d2 :: d3 :: taken, rest)
      else ([], s)
  | _ => ([], s)
  end.

(** [(?:votos?|votes?)?]: what is left after the optional word. *)
Definition vote_word (s : pystr) : pystr :=
  if starts_with (str "voto") s
  then (if starts_with (str "s") (drop 4 s) then drop 5 s else drop 4 s)
  else if starts_with (str "vote") s
  then (if starts_with (str "s") (drop 4 s) then drop 5 s else drop 4 s)
  else s.

(** The vote pattern at the start of [s]: its two groups and what is left.
    Everything after [\d{1,3}] can match the empty string, so the first
    way in which the three pieces of [vote_prefix] match is the match, and
    the rest of the pattern takes what it can. *)
Definition vote_match (s : pystr) : option (pystr * pystr * pystr) :=
  match match_here vote_prefix s with
  | Some (caps, rest) =>
      let '(taken, rest) := thousands rest in
      Some (piece_text caps 0, piece_text caps 2 ++ taken, vote_word (lstrip rest))
  | None => None
  end.

(** [re.findall(vote_pattern, text)]: the groups of the matches, from left
    to right, each search starting where the last match ended.  The
    pattern takes at least three characters, so the text left gets
    shorter; [fuel] is the length of the text. *)
Fixpoint findall_fuel (fuel : nat) (s : pystr) : list (pystr * pystr) :=
  match fuel with
  | O => []
  | S fuel' =>
      match s with
      | [] => []
      | _ :: s' =>
          match vote_match s with
          | Some (candidate, votes, rest) => (candidate, votes) :: findall_fuel fuel' rest
          | None => findall_fuel fuel' s'
          end
      end
  end.

Definition findall (text : pystr) : list (pystr * pystr) :=
  findall_fuel (length text) text.

Section Contests.
Context {FL : PyFloat}.

(** [float(s)] on a string; [None] when it raises [ValueError], the only
    exception it raises on a string. *)
Variable py_float : pystr -> option float_t.

(** [cells[votes_col]] read as a count: 0 unless the text without commas
    and white space is all digits. *)
Definition row_votes (cols : columns) (cells : list pystr) : result Z :=
  match votes_col cols with
  | Some j =>
      match cells !! j with
      | Some votes_text =>
          let votes_text := re_sub [one comma_or_space] [] votes_text in
          if py_isdigit votes_text then py_int votes_text else Ok 0
      | None => Ok 0
      end
  | None => Ok 0
  end.

Definition row_percentage (cols : columns) (cells : list pystr)
  : result (option float_t) :=
  match percent_col cols with
  | Some j =>
      match cells !! j with
      | Some percent_text =>
          match re_search pat_percent percent_text with
          | Some caps =>
              match py_float (group0 caps) with
              | Some percentage => Ok (Some percentage)
              | None => Raise (ValueError (str "could not convert string to float: "
                                           ++ group0 caps))
              end
          | None => Ok None
          end
      | None => Ok None
      end
  | None => Ok None
  end.

(** The body of the [try] for one row: the result to append, or [None]
    for [continue].  [cells[candidate_col]] out of range raises
    [IndexError], which the handler below turns into [continue]: it is
    [None] here. *)
Definition row_body (cols : columns) (cells : list pystr) : result (option VoteResult) :=
  match candidate_col cols with
  | None => Ok None
  | Some i =>
      match cells !! i with
      | None => Ok None
      | Some candidate_name =>
          if negb (truthy candidate_name) then Ok None
          else if bool_decide (py_lower candidate_name ∈ header_like) then Ok None
          else
            let party :=
              match party_col cols with
              | Some j => cells !! j
              | None => None
              end in
            rbind (row_votes cols cells) (fun votes =>
            rbind (row_percentage cols cells) (fun percentage =>
            rbind (new_VoteResult candidate_name party votes percentage) (fun r =>
            Ok (Some r))))
      end
  end.

(** One turn of the loop over [rows[1:]], with [except (IndexError,
    ValueError): continue]. *)
Definition table_row (cols : columns) (cells : list pystr) : result (option VoteResult) :=
  if (length cells <? 2)%nat then Ok None
  else
    match row_body cols cells with
    | Raise (ValueError _) => Ok None
    | r => r
    end.

Fixpoint table_rows (cols : columns) (rows : list (list pystr))
    (results : list VoteResult) : result (list VoteResult) :=
  match rows with
  | [] => Ok results
  | cells :: rows' =>
      rbind (table_row cols cells) (fun r =>
      table_rows cols rows'
        match r with
        | Some r => results ++ [r]
        | None => results
        end)
  end.

Definition table_office (t : table) : pystr :=
  match t_caption t with
  | Some caption => caption
  | None =>
      match t_prev_heading t with
      | Some prev => prev
      | None => str "Unknown Contest"
      end
  end.

Definition _extract_contest_from_table (t : table) : result (option ContestResult) :=
  let rows := t_rows t in
  if (length rows <? 2)%nat then Ok None
  else
    let headers := map py_lower (hd [] rows) in
    if negb (existsb (fun kw => contains kw (py_join (str " ") headers)) vote_keywords)
    then Ok None
    else
      let cols := infer_columns headers
                    (find_columns 0 headers (mk_columns None None None None)) in
      rbind (table_rows cols (tl rows) []) (fun results =>
      match results with
      | [] => Ok None
      | _ :: _ =>
          rbind (new_ContestResult (table_office t) results) (fun contest =>
          Ok (Some (calculate_totals contest)))
      end).

(** The loop over the matches of the div fallback. *)
Fixpoint div_results (matches : list (pystr * pystr)) (results : list VoteResult)
  : result (list VoteResult) :=
  match matches with
  | [] => Ok results
  | (candidate, votes) :: matches' =>
      let candidate := py_strip candidate in
      rbind (py_int (List.filter (fun c => negb (Ascii.eqb c ",")) votes)) (fun votes =>
      if truthy candidate && (0 <? votes)
      then rbind (new_VoteResult candidate None votes None) (fun r =>
           div_results matches' (results ++ [r]))
      else div_results matches' results)
  end.

Definition _extract_contest_from_div (text : pystr) : result (option ContestResult) :=
  if (length text <? 20)%nat then Ok None
  else
    match findall text with
    | [] => Ok None
    | matches =>
        rbind (div_results matches []) (fun results =>
        match results with
        | [] => Ok None
        | _ :: _ =>
            rbind (new_ContestResult (str "Extracted Contest") results) (fun contest =>
            Ok (Some (calculate_totals contest)))
        end)
    end.

(** [if contest and contest.results: contests.append(contest)] *)
Definition append_contest (contests : list ContestResult) (contest : option ContestResult)
  : list ContestResult :=
  match contest with
  | Some c => match results c with [] => contests | _ :: _ => contests ++ [c] end
  | None => contests
  end.

Fixpoint extract_each {A} (f : A -> result (option ContestResult)) (xs : list A)
    (contests : list ContestResult) : result (list ContestResult) :=
  match xs with
  | [] => Ok contests
  | x :: xs' =>
      rbind (f x) (fun contest => extract_each f xs' (append_contest contests contest))
  end.

(** [_extract_contests], on the page read from [soup]. *)
Definition extract_contests (page : results_page) : result (list ContestResult) :=
  rbind (extract_each _extract_contest_from_table (page_tables page) []) (fun contests =>
  extract_each _extract_contest_from_div (page_divs page) contests).

End Contests.

(** What the extractors keep. *)
Section Kept.
Context {FL : PyFloat}.

(** A result read from a table row: a candidate name that is not a header
    word, and a count that is not negative. *)
Definition table_result (r : VoteResult) : Prop :=
  truthy (candidate_name r) = true
  ∧ (py_lower (candidate_name r) ∉ header_like)
  ∧ 0 ≤ votes r.

(** A result read from a div: a name of ASCII letters and white space, no
    party, a positive count. *)
Definition div_result (r : VoteResult) : Prop :=
  truthy (candidate_name r) = true
  ∧ forallb (fun c => ascii_letter c || is_space c) (candidate_name r) = true
  ∧ party r = None
  ∧ 0 < votes r.

(** A contest as the extractors return it: a title, at least one result,
    no blank or null votes, the sum of the counts as its total, and the
    computed percentages when the total is positive. *)
Definition extracted_contest (c : ContestResult) : Prop :=
  truthy (office c) = true
  ∧ results c ≠ []
  ∧ Forall (fun r => 0 ≤ votes r) (results c)
  ∧ blank_votes c = 0 ∧ null_votes c = 0
  ∧ total_votes c = py_sum (map votes (results c))
  ∧ (0 < total_votes c →
     Forall (fun r => percentage r
                      = Some (fmul (true_div (votes r) (total_votes c))
                                (float_of_int 100)))
       (results c)).

End Kept.

(** The two groups of a match of the vote pattern: letters and white
    space; digits and commas that hold at least one digit. *)
Definition vote_groups (m : pystr * pystr) : Prop :=
  m.1 ≠ []
  ∧ forallb (fun c => ascii_letter c || is_space c) m.1 = true
  ∧ List.filter (fun c => negb (Ascii.eqb c ",")) m.2 ≠ []
  ∧ forallb is_decimal (List.filter (fun c => negb (Ascii.eqb c ",")) m.2) = true.

(** The digits of the count of a match: [votes.replace(',', '')]. *)
Definition count_digits (m : pystr * pystr) : pystr :=
  List.filter (fun c => negb (Ascii.eqb c ",")) m.2.

(** A match whose count has more digits than [int] converts. *)
Definition long_count (m : pystr * pystr) : bool :=
  (int_max_str_digits <? length (count_digits m))%nat.

(** The div fallback raises [ex] on the text: the text has twenty
    characters or more, and the first of its matches with a count of more
    than 4300 digits gives [ex]. *)
Definition div_too_long (text : pystr) (ex : exn) : Prop :=
  (20 ≤ length text)%nat
  ∧ ∃ m, List.find long_count (findall text) = Some m
         ∧ ex = too_many_digits (length (count_digits m)).

(** * The scraper with its contest extraction *)

Section WithExtraction.
Context {FL : PyFloat}.

(** The environment of the scraper as the code has it: the contests of a
    results page are read by [extract_contests]; what stays outside is the
    parser that finds the tables and the divs of a page, and [float]. *)
Definition with_extraction (env : environment) (py_float : pystr -> option float_t)
    (parse_results : pystr -> results_page) : environment :=
  mk_environment FL
    (http_get env) (utcnow_isoformat env) (md5_hexdigest env) (urljoin env)
    (BeautifulSoup env)
    (fun soup _ => extract_contests py_float (parse_results soup)).

(** Every contest of the event was extracted. *)
Definition extracted_event (e : ElectoralEvent) : Prop :=
  Forall extracted_contest (contests e).

End WithExtraction.

(** [float] in binary64 on the strings that [[\d.]+] matches: digits with
    at most one point and at least one digit, read as the quotient of two
    integers, which is the correctly rounded value while both convert
    exactly (fewer than sixteen digits). *)
Definition float_of_digits (s : pystr) : option PrimFloat.float :=
  let n := span_len is_decimal None s in
  let int_part := take n s in
  match drop n s with
  | [] => if truthy int_part then Some (prim_of_Z (decimal_value int_part)) else None
  | c :: frac =>
      if Ascii.eqb c "." && forallb is_decimal frac && (truthy int_part || truthy frac)
      then Some (PrimFloat.div (prim_of_Z (decimal_value (int_part ++ frac)))
                   (prim_of_Z (10 ^ Z.of_nat (length frac))))
      else None
  end.

(** The results table of the integration test, under its heading. *)
Definition example_table : table :=
  mk_table
    [[str "Candidato"; str "Partido"; str "Votos"];
     [str "Jenniffer Gonzalez"; str "PNP"; str "500,000"];
     [str "Juan Dalmau"; str "PIP"; str "450,000"]]
    None (Some (str "Gobernador")).

(** The same table with an empty [caption] element. *)
Definition untitled_table : table :=
  mk_table (t_rows example_table) (Some []) (Some (str "Gobernador")).

(** A table with a percent column: one row within range, one above 100,
    one whose count is written with a point. *)
Definition percent_table : table :=
  mk_table
    [[str "Candidato"; str "Votos"; str "%"];
     [str "Ana"; str "1 200"; str "60.5%"];
     [str "Luis"; str "700"; str "135%"];
     [str "Eva"; str "1.234"; str "4.5 %"];
     [str "Total"; str "3,134"; str "100%"]]
    (Some (str "Alcalde")) None.

(** As [env_ok], with the contests read from the page of the integration
    test. *)
Definition env_tables : @environment binary64 :=
  with_extraction env_ok float_of_digits
    (fun _ => mk_results_page [example_table] []).

(** As [env_tables], with a second table whose caption is empty. *)
Definition env_untitled : @environment binary64 :=
  with_extraction env_ok float_of_digits
    (fun _ => mk_results_page [example_table; untitled_table] []).

(** A piece that takes exactly [cap]: its bounds are equal, as in [\d{4}]
    or a literal. *)
Definition piece_takes_all (pc : piece) (cap : pystr) : Prop :=
  p_max pc = Some (p_min pc) ∧ length cap = p_min pc
  ∧ forallb (p_class pc) cap = true.

(** Case analysis on the 256 characters. *)
Ltac ascii_cases c := destruct c as [[|] [|] [|] [|] [|] [|] [|] [|]].

(** * More vocabulary: table headers, greedy matches, event keys *)

(** The test of a header cell for the candidate column. *)
Definition candidate_header (header : pystr) : bool :=
  contains (str "candidato") header || contains (str "candidate") header
  || contains (str "nombre") header.

(** Each piece takes its text and could not take more: the way the first
    try of the backtracking matcher goes. *)
Fixpoint takes_greedily (ps : list piece) (caps : list pystr) (rest : pystr) : Prop :=
  match ps, caps with
  | [], [] => True
  | pc :: ps', cap :: caps' =>
      (p_min pc ≤ length cap)%nat
      ∧ span_len (p_class pc) (p_max pc) (cap ++ concat caps' ++ rest) = length cap
      ∧ takes_greedily ps' caps' rest
  | _, _ => False
  end.

(** A referendum-style table: no header names the candidate column. *)
Definition option_table : table :=
  mk_table
    [[str "Opcion"; str "Votos"; str "%"];
     [str "Si"; str "1,200"; str "60%"];
     [str "No"; str "800"; str "40%"]]
    (Some (str "Plebiscito")) None.

Section EventKeys.
Context {FL : PyFloat}.

(** The name and the results URL of an event: the key of the descriptor it
    was made from. *)
Definition event_key (e : ElectoralEvent) : pystr * option pystr :=
  (name e, results_url e).

End EventKeys.

(** * Properties *)

(** ** Strings *)

Lemma starts_with_spec (p s : pystr) :
  starts_with p s = true ↔ ∃ post, s = p ++ post.
Proof.
  revert s. induction p as [|a p IH]; intros s; simpl.
  - split; eauto.
  - destruct s as [|b s].
    + split; [discriminate | intros [post Hp]; discriminate].
    + rewrite andb_true_iff, Ascii.eqb_eq, IH. split.
      * intros [-> [post ->]]. eauto.
      * intros [post Hp]. injection Hp as -> ->. eauto.
Qed.

Lemma contains_spec (needle hay : pystr) :
  contains needle hay = true ↔ ∃ pre post, hay = pre ++ needle ++ post.
Proof.
  induction hay as [|c hay IH]; simpl.
  - rewrite orb_false_r, starts_with_spec. split.
    + intros [post Hp]. exists [], post. done.
    + intros (pre & post & Hp). destruct pre; [eauto | discriminate].
  - rewrite orb_true_iff, starts_with_spec, IH. split.
    + intros [[post Hp] | (pre & post & ->)].
      * exists [], post. done.
      * exists (c :: pre), post. done.
    + intros (pre & post & Hp). destruct pre as [|c' pre].
      * left. eauto.
      * right. injection Hp as -> ->. eauto.
Qed.

(** Lowercasing a name and looking for a lowercase keyword is the
    case-insensitive search. *)
Lemma occurs_ci_contains (kw name : pystr) :
  occurs_ci kw name ↔ contains (py_lower kw) (py_lower name) = true.
Proof.
  rewrite contains_spec. unfold occurs_ci, py_lower. split.
  - intros (b & w & a & -> & Hw). exists (map lower_char b), (map lower_char a).
    by rewrite !map_app, Hw.
  - intros (pre & post & Hn).
    apply map_eq_app in Hn as (b & rest & -> & Hb & Hrest).
    apply map_eq_app in Hrest as (w & a & -> & Hw & Ha).
    exists b, w, a. done.
Qed.

Lemma keyword_occurs_test (name : pystr) (entry : EventType * list pystr) :
  Forall (fun kw => py_lower kw = kw) entry.2 →
  keyword_occurs name entry ↔ entry_test name entry = true.
Proof.
  intros Hlow. unfold keyword_occurs, entry_test. rewrite existsb_exists. split.
  - intros (kw & Hin & Hocc). exists kw. split; [by apply list_elem_of_In |].
    apply occurs_ci_contains in Hocc.
    rewrite Forall_forall in Hlow. by rewrite (Hlow kw Hin) in Hocc.
  - intros (kw & Hin & Hc). apply list_elem_of_In in Hin. exists kw. split; [done |].
    apply occurs_ci_contains. rewrite Forall_forall in Hlow. by rewrite (Hlow kw Hin).
Qed.

Lemma priority_order_lowercase :
  Forall (fun entry : EventType * list pystr =>
            Forall (fun kw => py_lower kw = kw) entry.2) priority_order.
Proof. repeat constructor. Qed.

(** The classifier, read off the priority order. *)
Lemma determine_event_type_find (name : pystr) :
  _determine_event_type name =
  match List.find (entry_test name) priority_order with
  | Some entry => EventType_value entry.1
  | None => EventType_value GENERAL
  end.
Proof.
  unfold _determine_event_type, priority_order, entry_test. simpl.
  rewrite !orb_false_r.
  repeat match goal with
         | |- context [if ?b then _ else _] => destruct b
         end; reflexivity.
Qed.

Lemma find_first {A} (f : A → bool) (before : list A) (x : A) (after : list A) :
  f x = true → Forall (fun y => f y = false) before →
  List.find f (before ++ x :: after) = Some x.
Proof.
  intros Hx Hb. induction Hb as [|y before Hy _ IH]; simpl.
  - by rewrite Hx.
  - by rewrite Hy.
Qed.

Lemma find_none {A} (f : A → bool) (l : list A) :
  Forall (fun y => f y = false) l → List.find f l = None.
Proof.
  intros Hl. induction Hl as [|y l Hy _ IH]; simpl; [done |]. by rewrite Hy.
Qed.

Lemma not_keyword_occurs_test (name : pystr) (entries : list (EventType * list pystr)) :
  Forall (fun entry : EventType * list pystr =>
            Forall (fun kw => py_lower kw = kw) entry.2) entries →
  Forall (fun e => ¬ keyword_occurs name e) entries →
  Forall (fun e => entry_test name e = false) entries.
Proof.
  intros Hlow Hno. induction Hlow as [|e entries He _ IH]; [constructor |].
  inversion Hno as [|? ? Hne Hrest]; subst. constructor; [| by apply IH].
  destruct (entry_test name e) eqn:Ht; [| done].
  exfalso. apply Hne. by apply keyword_occurs_test.
Qed.

(** C7, as the code has it.  For every event name the classifier answers
    with the first type of the priority order plebiscite, primary, special,
    referendum one of whose keywords occurs in the name case-insensitively,
    and with "general" when no keyword occurs.  In particular a name that
    contains both "primaria" and "especial" is never classified as special,
    and it is classified as primary when it contains neither "plebiscito"
    nor "plebiscite". *)
Theorem determine_event_type_priority (name : pystr) :
  (∀ before entry after,
     priority_order = before ++ entry :: after →
     keyword_occurs name entry →
     Forall (fun e => ¬ keyword_occurs name e) before →
     _determine_event_type name = EventType_value entry.1)
  ∧ (Forall (fun e => ¬ keyword_occurs name e) priority_order →
     _determine_event_type name = EventType_value GENERAL)
  ∧ (occurs_ci (str "primaria") name → occurs_ci (str "especial") name →
     _determine_event_type name ≠ EventType_value SPECIAL
     ∧ (¬ keyword_occurs name (PLEBISCITE, [str "plebiscito"; str "plebiscite"]) →
        _determine_event_type name = EventType_value PRIMARY)).
Proof.
  pose proof priority_order_lowercase as Hlow.
  split; [| split].
  - intros before entry after Hsplit Hocc Hnone.
    rewrite determine_event_type_find, Hsplit.
    rewrite Hsplit in Hlow. apply Forall_app in Hlow as [Hlb Hla].
    inversion Hla as [|? ? Hle _]; subst.
    rewrite (find_first (entry_test name)); [done | |].
    + by apply keyword_occurs_test.
    + by apply not_keyword_occurs_test.
  - intros Hnone. rewrite determine_event_type_find.
    by rewrite find_none; [| apply not_keyword_occurs_test].
  - intros Hprim Hesp.
    apply occurs_ci_contains in Hprim. change (py_lower (str "primaria")) with (str "primaria") in Hprim.
    split.
    + unfold _determine_event_type. cbv zeta. rewrite Hprim.
      destruct (contains (str "plebiscito") _ || _); vm_compute; discriminate.
    + intros Hno. unfold _determine_event_type. cbv zeta. rewrite Hprim.
      destruct (contains (str "plebiscito") _ || _) eqn:Hp; [| reflexivity].
      exfalso. apply Hno. apply keyword_occurs_test; [repeat constructor |].
      unfold entry_test. simpl existsb. by rewrite orb_false_r.
Qed.

(** The counterexample to C7 as it is worded: a name that contains both
    "primaria" and "especial" and is classified as plebiscite, the type
    that is checked first. *)
Lemma determine_event_type_plebiscite_first :
  occurs_ci (str "primaria") (str "Plebiscito Primaria Especial")
  ∧ occurs_ci (str "especial") (str "Plebiscito Primaria Especial")
  ∧ _determine_event_type (str "Plebiscito Primaria Especial") = str "plebiscite"
  ∧ str "plebiscite" ≠ str "primary".
Proof.
  split; [| split; [| split]].
  - by apply occurs_ci_contains.
  - by apply occurs_ci_contains.
  - reflexivity.
  - discriminate.
Qed.

(** The names of the specification's examples. *)
Example determine_event_type_examples :
  _determine_event_type (str "Elecciones Generales 2024") = str "general"
  ∧ _determine_event_type (str "Primarias Locales 2024") = str "primary"
  ∧ _determine_event_type (str "Plebiscito 2024") = str "plebiscite"
  ∧ _determine_event_type (str "Eleccion Especial Gurabo") = str "special"
  ∧ _determine_event_type (str "Primaria Especial de Gurabo") = str "primary"
  ∧ _determine_event_type (str "REFER" ++ chr 201 :: str "NDUM 1998") = str "referendum".
Proof. repeat split; reflexivity. Qed.

(** ** [int] on strings of decimal digits *)

Lemma decimal_not_int_space c : is_decimal c = true → int_space c = false.
Proof. unfold is_decimal, int_space, in_range. lia. Qed.

Lemma decimal_is_digit c : is_decimal c = true → is_digit c = true.
Proof. unfold is_digit. intros ->. done. Qed.

Lemma int_lskip_decimal (s : pystr) :
  forallb is_decimal s = true → int_lskip s = s.
Proof.
  destruct s as [|c s]; simpl; [done |].
  intros [Hc _]%andb_true_iff. by rewrite decimal_not_int_space.
Qed.

Lemma int_body_decimal (s : pystr) (acc : Z) (b : bool) :
  forallb is_decimal s = true → (s ≠ [] ∨ b = true) →
  int_body acc b s = Some (fold_left (fun acc c => 10 * acc + digit_val c) s acc).
Proof.
  revert acc b. induction s as [|c s IH]; intros acc b Hs Hne; simpl.
  - destruct Hne as [? | ->]; done.
  - simpl in Hs. apply andb_true_iff in Hs as [Hc Hs]. rewrite Hc.
    apply IH; auto.
Qed.

Lemma sign_match_decimal {A} (c : ascii) (t : pystr) (x y z : A) :
  is_decimal c = true →
  match c :: t with
  | "+"%char :: _ => x
  | "-"%char :: _ => y
  | _ => z
  end = z.
Proof.
  destruct c as [[] [] [] [] [] [] [] []]; intros H; try reflexivity; vm_compute in H; discriminate.
Qed.

Lemma forallb_rev {A} (f : A → bool) (l : list A) : forallb f (rev l) = forallb f l.
Proof.
  induction l as [|x l IH]; simpl; [done |].
  rewrite forallb_app, IH. simpl. rewrite andb_true_r. apply andb_comm.
Qed.

Lemma int_scan_decimal (s : pystr) (n : nat) :
  forallb is_decimal s = true → int_scan n false s = Some (n + length s)%nat.
Proof.
  revert n. induction s as [|c s IH]; intros n Hs; simpl.
  - f_equal. lia.
  - simpl in Hs. apply andb_true_iff in Hs as [Hc Hs]. rewrite Hc, IH by done.
    f_equal. lia.
Qed.

Lemma int_digits_decimal (s : pystr) :
  forallb is_decimal s = true → int_digits s = Some (length s).
Proof.
  intros Hs. unfold int_digits.
  rewrite (int_lskip_decimal s Hs).
  rewrite int_lskip_decimal by (by rewrite forallb_rev).
  rewrite rev_involutive. cbv zeta.
  destruct s as [|c s]; [done |].
  pose proof Hs as Hcs. simpl in Hs. apply andb_true_iff in Hs as [Hc Hs].
  rewrite (sign_match_decimal c s s s (c :: s) Hc).
  transitivity (int_scan 0 false (c :: s)); [| by apply (int_scan_decimal (c :: s) 0)].
  destruct c as [[] [] [] [] [] [] [] []]; try reflexivity; vm_compute in Hc; discriminate.
Qed.

Lemma int_literal_decimal (s : pystr) :
  s ≠ [] → forallb is_decimal s = true → int_literal s = Some (decimal_value s).
Proof.
  intros Hne Hs. unfold int_literal.
  rewrite (int_lskip_decimal s Hs).
  rewrite int_lskip_decimal by (by rewrite forallb_rev).
  rewrite rev_involutive.
  destruct s as [|c s]; [done |].
  simpl in Hs. apply andb_true_iff in Hs as [Hc Hs].
  change (match c :: s with
  | "+"%char :: t' => int_body 0 false t'
  | "-"%char :: t' => option_map Z.opp (int_body 0 false t')
  | _ => int_body 0 false (c :: s)
  end) with (match c :: s with
  | "+"%char :: _ => int_body 0 false s
  | "-"%char :: _ => option_map Z.opp (int_body 0 false s)
  | _ => int_body 0 false (c :: s)
  end).
  rewrite sign_match_decimal by done.
  rewrite int_body_decimal; [done | | by left].
  simpl. by rewrite Hc, Hs.
Qed.

(** [int] on a string of decimal digits: its value when the digits are at
    most 4300, the [ValueError] of the limit when they are more. *)
Lemma py_int_decimal (s : pystr) :
  s ≠ [] → forallb is_decimal s = true → (length s ≤ int_max_str_digits)%nat →
  py_int s = Ok (decimal_value s).
Proof.
  intros Hne Hs Hlen. unfold py_int. cbv zeta.
  rewrite int_digits_decimal by done.
  rewrite (proj2 (Nat.ltb_ge _ _)) by done.
  by rewrite int_literal_decimal.
Qed.

Lemma py_int_too_long (s : pystr) :
  forallb is_decimal s = true → (int_max_str_digits < length s)%nat →
  py_int s = Raise (too_many_digits (length s)).
Proof.
  intros Hs Hlen. unfold py_int. cbv zeta.
  rewrite int_digits_decimal by done.
  by rewrite (proj2 (Nat.ltb_lt _ _)) by done.
Qed.

(** ** The municipality code validator *)

(** Without a superscript digit, [isdigit] accepts decimal digits only. *)
Lemma isdigit_decimal (code : pystr) :
  forallb (fun c => implb (is_digit c) (is_decimal c)) code = true →
  forallb is_digit code = forallb is_decimal code.
Proof.
  induction code as [|x l IH]; [done |]. simpl.
  intros [Hx Hl]%andb_true_iff. rewrite IH by done. f_equal.
  destruct (is_digit x) eqn:Hd; simpl in Hx.
  - by rewrite Hx.
  - destruct (is_decimal x) eqn:Hdec; [| done].
    apply decimal_is_digit in Hdec. congruence.
Qed.

(** On a string with no superscript digit that is not made of decimal
    digits the validator answers false, whatever its length. *)
Lemma validate_municipality_code_not_decimal (code : pystr) :
  forallb (fun c => implb (is_digit c) (is_decimal c)) code = true →
  forallb is_decimal code = false →
  validate_municipality_code code = Ok false.
Proof.
  intros Hsup Hdec. unfold validate_municipality_code, py_isdigit.
  destruct code as [|c code']; [done |].
  set (code := c :: code') in *. change (truthy code) with true. cbn [negb andb].
  by rewrite (isdigit_decimal code Hsup), Hdec.
Qed.

(** On a string of at most 4300 characters with no superscript digit the
    validator returns, and its answer is true exactly for the non-empty
    strings of decimal digits whose value lies in 1..78. *)
Lemma validate_municipality_code_decimal (code : pystr) :
  forallb (fun c => implb (is_digit c) (is_decimal c)) code = true →
  (length code ≤ int_max_str_digits)%nat →
  validate_municipality_code code =
  Ok (truthy code && forallb is_decimal code
      && (1 <=? decimal_value code) && (decimal_value code <=? 78)).
Proof.
  intros Hsup Hlen. unfold validate_municipality_code, py_isdigit.
  destruct code as [|c code']; [done |].
  set (code := c :: code') in *. change (truthy code) with true. cbn [negb andb].
  rewrite (isdigit_decimal code Hsup).
  destruct (forallb is_decimal code) eqn:Hdec; [| done].
  by rewrite py_int_decimal.
Qed.

(** On more than 4300 decimal digits [int] raises, and so does the
    validator. *)
Lemma validate_municipality_code_too_long (code : pystr) :
  forallb is_decimal code = true → (int_max_str_digits < length code)%nat →
  validate_municipality_code code = Raise (too_many_digits (length code)).
Proof.
  intros Hdec Hlen. unfold validate_municipality_code, py_isdigit.
  destruct code as [|c code']; [simpl in Hlen; lia |].
  set (code := c :: code') in *. change (truthy code) with true. cbn [negb andb].
  assert (forallb is_digit code = true) as ->.
  { clearbody code. clear c code' Hlen. induction code as [|x l IH]; [done |].
    simpl in *. apply andb_true_iff in Hdec as [Hx Hl].
    by rewrite (decimal_is_digit x Hx), IH. }
  cbn [negb]. by rewrite py_int_too_long.
Qed.

(** The codes of the tests and of the specification. *)
Example validate_municipality_code_examples :
  validate_municipality_code (str "001") = Ok true
  ∧ validate_municipality_code (str "78") = Ok true
  ∧ validate_municipality_code (str "45") = Ok true
  ∧ validate_municipality_code (str "") = Ok false
  ∧ validate_municipality_code (str "abc") = Ok false
  ∧ validate_municipality_code (str "0") = Ok false
  ∧ validate_municipality_code (str "79") = Ok false
  ∧ validate_municipality_code (str "100") = Ok false.
Proof. repeat split; reflexivity. Qed.

(** C9.  The validator is meant to return [False] for every string that is
    not a number in range, and guards [int(code)] with [code.isdigit()].
    The guard lets the superscript digits through, which [int] refuses: on
    the one-character string U+00B2 the call raises [ValueError] and
    returns nothing. *)
Theorem validate_municipality_code_superscript :
  py_isdigit [chr 178] = true
  ∧ validate_municipality_code [chr 178] =
    Raise (ValueError (str "invalid literal for int() with base 10: " ++ [chr 178]))
  ∧ validate_municipality_code (str "7" ++ [chr 178]) =
    Raise (ValueError (str "invalid literal for int() with base 10: 7" ++ [chr 178])).
Proof. repeat split; reflexivity. Qed.

(** ** The regular-expression engine on one piece *)

Lemma give_back_nil (s : pystr) (lo n : nat) :
  give_back (match_here []) s lo n =
  if (n <? lo)%nat then None else Some (n, ([], drop n s)).
Proof. destruct n; simpl; by destruct (_ <? _)%nat. Qed.

Lemma match_here_single (pc : piece) (s : pystr) :
  match_here [pc] s =
  let n := span_len (p_class pc) (p_max pc) s in
  if (n <? p_min pc)%nat then None else Some ([take n s], drop n s).
Proof. simpl. rewrite give_back_nil. by destruct (_ <? _)%nat. Qed.

Lemma span_len_le (p : ascii → bool) (limit : option nat) (s : pystr) :
  (span_len p limit s ≤ length s)%nat.
Proof.
  revert limit. induction s as [|c s IH]; intros limit; simpl; [lia |].
  destruct (p c); [| lia].
  destruct limit as [[|k] |]; [lia | |].
  - specialize (IH (Some k)). lia.
  - specialize (IH None). lia.
Qed.

Lemma span_len_zero (p : ascii → bool) (s : pystr) : span_len p (Some O) s = O.
Proof. destruct s as [|c s]; simpl; [done |]. by destruct (p c). Qed.

Lemma drop_span_space (s : pystr) : drop (span_len is_space None s) s = lstrip s.
Proof.
  induction s as [|c s IH]; simpl; [done |].
  destruct (is_space c); [by rewrite <- IH | done].
Qed.

Lemma lstrip_length (s : pystr) : (length (lstrip s) ≤ length s)%nat.
Proof.
  induction s as [|c s IH]; simpl; [lia |]. destruct (is_space c); simpl; lia.
Qed.

Lemma collapse_ws_in_run (s : pystr) : collapse_ws true s = collapse_ws false (lstrip s).
Proof.
  induction s as [|c s IH]; simpl; [done |].
  destruct (is_space c) eqn:Hc; [done |]. simpl. by rewrite Hc.
Qed.

(** [re.sub(r'[...]', '', s)] with a class of one character removes the
    characters of the class. *)
Lemma re_sub_one (p : ascii → bool) (s : pystr) :
  re_sub [one p] [] s = List.filter (fun c => negb (p c)) s.
Proof.
  unfold re_sub. generalize (le_n (length s)). generalize (length s) at 2 3 as fuel.
  intros fuel. revert s. induction fuel as [|fuel IH]; intros s Hlen.
  - destruct s; [done | simpl in Hlen; lia].
  - destruct s as [|c s]; [done |]. cbn [re_sub_fuel].
    rewrite match_here_single. cbn [p_class p_max p_min one span_len].
    simpl in Hlen. destruct (p c) eqn:Hpc.
    + rewrite span_len_zero. simpl. rewrite drop_0, Hpc.
      replace (length s <? S (length s))%nat with true
        by (symmetry; apply Nat.ltb_lt; lia).
      simpl.
      apply IH. lia.
    + simpl. rewrite Hpc. simpl. f_equal. apply IH. lia.
Qed.

(** [re.sub(r'\s+', '-', s)] turns every white-space run into one hyphen. *)
Lemma re_sub_ws (s : pystr) :
  re_sub [plus is_space] (str "-") s = collapse_ws false s.
Proof.
  unfold re_sub. generalize (le_n (length s)). generalize (length s) at 2 3 as fuel.
  intros fuel. revert s. induction fuel as [|fuel IH]; intros s Hlen.
  - destruct s; [done | simpl in Hlen; lia].
  - destruct s as [|c s]; [done |]. cbn [re_sub_fuel].
    rewrite match_here_single. cbn [p_class p_max p_min plus].
    rewrite drop_span_space. simpl in Hlen.
    cbn [span_len lstrip collapse_ws]. destruct (is_space c) eqn:Hc.
    + cbn [Nat.ltb Nat.leb].
      pose proof (lstrip_length s) as Hl.
      cbn [length].
      replace (length (lstrip s) <=? length s)%nat with true
        by (symmetry; apply Nat.leb_le; lia).
      rewrite IH by lia. by rewrite collapse_ws_in_run.
    + cbn [Nat.ltb Nat.leb]. by rewrite IH by lia.
Qed.

(** ** Trimming *)

Lemma lstrip_app_space (l s : pystr) :
  forallb is_space l = true → lstrip (l ++ s) = lstrip s.
Proof.
  induction l as [|c l IH]; simpl; [done |].
  intros [Hc Hl]%andb_true_iff. rewrite Hc. auto.
Qed.

Lemma lstrip_split (s : pystr) :
  ∃ l, forallb is_space l = true ∧ s = l ++ lstrip s.
Proof.
  induction s as [|c s (l & Hl & Hs)]; simpl.
  - by exists [].
  - destruct (is_space c) eqn:Hc.
    + exists (c :: l). simpl. rewrite Hc, Hl. split; [done |]. by rewrite <- Hs.
    + by exists [].
Qed.

Lemma lstrip_head (s : pystr) :
  lstrip s = [] ∨ ∃ c r, lstrip s = c :: r ∧ is_space c = false.
Proof.
  induction s as [|c s IH]; simpl; [by left |].
  destruct (is_space c) eqn:Hc; [done |]. right. eauto.
Qed.

Lemma rstrip_app_space (s t : pystr) :
  forallb is_space t = true → rstrip (s ++ t) = rstrip s.
Proof.
  intros Ht. unfold rstrip. rewrite rev_app_distr, lstrip_app_space; [done |].
  by rewrite forallb_rev.
Qed.

Lemma rstrip_snoc (s : pystr) (z : ascii) :
  is_space z = false → rstrip (s ++ [z]) = s ++ [z].
Proof.
  intros Hz. unfold rstrip. rewrite rev_app_distr. simpl. rewrite Hz.
  change (z :: rev s) with (rev [z] ++ rev s). by rewrite <- rev_app_distr, rev_involutive.
Qed.

Lemma rstrip_split (s : pystr) :
  ∃ t, forallb is_space t = true ∧ s = rstrip s ++ t.
Proof.
  destruct (lstrip_split (rev s)) as (l & Hl & Hs). exists (rev l). split.
  - by rewrite forallb_rev.
  - unfold rstrip. rewrite <- rev_app_distr, <- Hs. by rewrite rev_involutive.
Qed.

Lemma rstrip_last (s : pystr) :
  rstrip s = [] ∨ ∃ r z, rstrip s = r ++ [z] ∧ is_space z = false.
Proof.
  unfold rstrip. destruct (lstrip_head (rev s)) as [-> | (c & r & -> & Hc)].
  - by left.
  - right. exists (rev r), c. done.
Qed.

(** ** Collapsing white space *)

Lemma collapse_internal_space (text_before in_run : bool) (t : pystr) :
  forallb is_space t = true → collapse_internal text_before in_run t = t.
Proof.
  induction t as [|c t IH]; simpl; [done |].
  intros [Hc Ht]%andb_true_iff. rewrite Hc, IH by done.
  replace (existsb (fun x => negb (is_space x)) t) with false; [by rewrite andb_false_r |].
  clear IH. induction t as [|d t IH]; simpl; [done |].
  simpl in Ht. apply andb_true_iff in Ht as [Hd Ht]. by rewrite Hd, <- IH.
Qed.

Lemma collapse_internal_leading (in_run : bool) (l s : pystr) :
  forallb is_space l = true →
  collapse_internal false in_run (l ++ s) = l ++ collapse_internal false in_run s.
Proof.
  induction l as [|c l IH]; simpl; [done |].
  intros [Hc Hl]%andb_true_iff. by rewrite Hc, IH.
Qed.

Lemma collapse_internal_text (in_run : bool) (r : pystr) (z : ascii) (t : pystr) :
  is_space z = false → forallb is_space t = true →
  collapse_internal true in_run (r ++ z :: t) = collapse_ws in_run (r ++ [z]) ++ t.
Proof.
  intros Hz Ht. revert in_run. induction r as [|c r IH]; intros in_run; simpl.
  - by rewrite Hz, collapse_internal_space.
  - destruct (is_space c) eqn:Hc; [| by rewrite IH].
    replace (existsb (fun x => negb (is_space x)) (r ++ z :: t)) with true.
    + destruct in_run; by rewrite IH.
    + symmetry. apply existsb_exists. exists z. rewrite Hz. split; [| done].
      apply in_app_iff. right. by left.
Qed.

Lemma collapse_ws_snoc (in_run : bool) (r : pystr) (z : ascii) :
  is_space z = false → collapse_ws in_run (r ++ [z]) = collapse_ws in_run r ++ [z].
Proof.
  intros Hz. revert in_run. induction r as [|c r IH]; intros in_run; simpl.
  - by rewrite Hz.
  - destruct (is_space c); [destruct in_run |]; by rewrite IH.
Qed.

(** Collapsing the internal runs and then trimming is trimming and then
    collapsing every run. *)
Lemma strip_collapse_internal (s : pystr) :
  py_strip (collapse_internal false false s) = collapse_ws false (py_strip s).
Proof.
  unfold py_strip.
  destruct (lstrip_split s) as (l & Hl & Hs).
  destruct (rstrip_split (lstrip s)) as (t & Ht & Hu).
  rewrite Hs at 1. rewrite collapse_internal_leading by done.
  destruct (lstrip_head s) as [Hnil | (c & u & Hcu & Hc)].
  - rewrite Hnil. simpl. rewrite app_nil_r, <- (app_nil_r l), lstrip_app_space by done.
    done.
  - destruct (rstrip_last (lstrip s)) as [Hcore | (r & z & Hcore & Hz)].
    + rewrite Hcore in Hu. simpl in Hu. rewrite Hcu in Hu. subst t.
      simpl in Ht. by rewrite Hc in Ht.
    + rewrite Hcore. rewrite Hu at 1. rewrite Hcore.
      assert (Hstart : ∃ r', r ++ [z] = c :: r').
      { rewrite Hu, Hcore in Hcu. destruct r; simpl in *; injection Hcu as -> _; eauto. }
      destruct Hstart as [r' Hr'].
      assert (Hci : collapse_internal false false ((r ++ [z]) ++ t)
                    = collapse_ws false (r ++ [z]) ++ t).
      { rewrite <- collapse_internal_text by done.
        rewrite <- app_assoc. simpl. destruct r as [|c0 r0]; simpl in *.
        - injection Hr' as -> _. by rewrite Hc.
        - injection Hr' as -> _. by rewrite Hc. }
      rewrite Hci, lstrip_app_space by done.
      assert (Hx : lstrip (collapse_ws false (r ++ [z]) ++ t)
                   = collapse_ws false (r ++ [z]) ++ t).
      { rewrite Hr'. simpl. rewrite Hc. simpl. by rewrite Hc. }
      rewrite Hx, rstrip_app_space by done.
      rewrite collapse_ws_snoc by done. by rewrite rstrip_snoc.
Qed.

(** ** The event id *)

(** C5.  The event id is a function of the name and the date alone, and it
    is the one the specification derives: lowercase the name, strip every
    character that is not a-z, 0-9, white space or a hyphen, collapse the
    internal white-space runs to single hyphens, trim, then append a hyphen
    and the ISO-8601 date.  "General Elections 2024!" on 2024-11-05 yields
    "general-elections-2024-2024-11-05". *)
Theorem generate_event_id_spec :
  (∀ name event_date,
     generate_event_id name event_date = event_id_spec name event_date)
  ∧ generate_event_id (str "General Elections 2024!") (mk_date 2024 11 5)
    = str "general-elections-2024-2024-11-05".
Proof.
  split; [| reflexivity].
  intros name event_date. unfold generate_event_id, event_id_spec. cbv zeta.
  rewrite re_sub_one, re_sub_ws, strip_collapse_internal.
  do 3 f_equal. apply filter_ext. intros c. unfold not_id_char, id_char.
  apply negb_involutive.
Qed.

(** The second example of the specification: the punctuation goes, the
    words and the date stay. *)
Example generate_event_id_special_chars :
  generate_event_id (str "Elecciones @ Generales #2024") (mk_date 2024 11 5)
  = str "elecciones-generales-2024-2024-11-05".
Proof. reflexivity. Qed.

(** ** Totals and percentages *)

Section Totals.
Context {FL : PyFloat}.

Lemma votes_set_percentage (total : Z) (l : list VoteResult) :
  map votes (map (set_percentage total) l) = map votes l.
Proof. rewrite map_map. by apply map_ext. Qed.

Lemma votes_calculate_totals (self : ContestResult) :
  map votes (results (calculate_totals self)) = map votes (results self).
Proof.
  unfold calculate_totals. simpl. destruct (0 <? _); [| done].
  apply votes_set_percentage.
Qed.

Lemma set_percentage_twice (total : Z) (l : list VoteResult) :
  map (set_percentage total) (map (set_percentage total) l)
  = map (set_percentage total) l.
Proof. rewrite map_map. by apply map_ext. Qed.

(** C4.  After [calculate_totals], [total_votes] is the sum of the votes of
    the results plus the blank and the null votes (none of which the call
    changes), and when that total is positive the percentage of every
    result is [votes / total_votes * 100]. *)
Theorem calculate_totals_correct (self : ContestResult) :
  let after := calculate_totals self in
  total_votes after
  = py_sum (map votes (results after)) + blank_votes after + null_votes after
  ∧ Forall2 (fun r r' => candidate_name r' = candidate_name r
                         ∧ party r' = party r ∧ votes r' = votes r)
      (results self) (results after)
  ∧ blank_votes after = blank_votes self
  ∧ null_votes after = null_votes self
  ∧ (0 < total_votes after →
     Forall (fun r => percentage r
                      = Some (fmul (true_div (votes r) (total_votes after))
                                (float_of_int 100)))
       (results after)).
Proof.
  cbv zeta. split; [| split; [| split; [| split]]].
  - rewrite votes_calculate_totals. reflexivity.
  - unfold calculate_totals. simpl. destruct (0 <? _).
    + generalize (py_sum (map votes (results self)) + blank_votes self + null_votes self).
      intros total. induction (results self) as [|r l IH]; simpl; constructor; try exact IH.
      by repeat split.
    + induction (results self) as [|r l IH]; constructor; try exact IH.
      by repeat split.
  - reflexivity.
  - reflexivity.
  - unfold calculate_totals. simpl. intros Hpos.
    apply Z.ltb_lt in Hpos. rewrite Hpos.
    apply List.Forall_forall. intros r Hr. apply in_map_iff in Hr as (r0 & <- & _).
    reflexivity.
Qed.

(** C6.  A second call of [calculate_totals] changes nothing: the object is
    as the first call left it, in particular its [total_votes] and the
    percentage of every result. *)
Theorem calculate_totals_idempotent (self : ContestResult) :
  calculate_totals (calculate_totals self) = calculate_totals self
  ∧ total_votes (calculate_totals (calculate_totals self))
    = total_votes (calculate_totals self)
  ∧ map percentage (results (calculate_totals (calculate_totals self)))
    = map percentage (results (calculate_totals self)).
Proof.
  assert (H : calculate_totals (calculate_totals self) = calculate_totals self).
  { unfold calculate_totals at 1. rewrite votes_calculate_totals.
    unfold calculate_totals. simpl.
    destruct (0 <? _) eqn:Hpos; [| done].
    by rewrite set_percentage_twice. }
  by rewrite H.
Qed.

End Totals.

(** The contest of the specification's end-to-end scenario, in binary64:
    950000 votes, 52.63% and 47.37%. *)
Example calculate_totals_example :
  let after := calculate_totals example_contest in
  total_votes after = 950000
  ∧ map percentage (results after)
    = [Some 0x1.a50d79435e50dp+5%float; Some 0x1.7af286bca1af2p+5%float]
  ∧ PrimFloat.ltb 52.625 0x1.a50d79435e50dp+5 = true
  ∧ PrimFloat.ltb 0x1.a50d79435e50dp+5 52.640625 = true.
Proof. repeat split; vm_compute; reflexivity. Qed.

(** ** The descriptors of the four heuristics carry a name *)

Lemma rbind_ok {A B} (r : result A) (k : A → result B) (b : B) :
  rbind r k = Ok b → ∃ a, r = Ok a ∧ k a = Ok b.
Proof. destruct r as [a | e]; simpl; [eauto | discriminate]. Qed.

Lemma truthy_take (n : nat) (s : pystr) :
  truthy s = true → truthy (take (S n) s) = true.
Proof. by destruct s. Qed.

Section Names.
Variable urljoin : pystr → pystr → result pystr.

Lemma extract_event_from_row_named (cells : list cell) (e : event_dict) :
  _extract_event_from_row urljoin cells = Ok (Some e) → named e.
Proof.
  unfold _extract_event_from_row. cbv zeta.
  destruct (negb _); [discriminate |].
  intros (results_url & _ & H)%rbind_ok. revert H.
  destruct (List.find _ (map cell_text cells)) as [name |] eqn:Hfind; [| discriminate].
  intros (d & _ & Hd)%rbind_ok. injection Hd as <-.
  apply find_some in Hfind as [_ Hname]. by apply andb_true_iff in Hname as [? _].
Qed.

Lemma extract_event_from_div_named (div : block) (e : event_dict) :
  _extract_event_from_div urljoin div = Ok (Some e) → named e.
Proof.
  unfold _extract_event_from_div. cbv zeta.
  destruct (truthy (block_text div)) eqn:Ht; simpl; [| discriminate].
  destruct (_ <? _)%nat; [discriminate |].
  intros (results_url & _ & (d & _ & Hd)%rbind_ok)%rbind_ok.
  injection Hd as <-. by apply truthy_take.
Qed.

Lemma extract_event_from_link_named (li : block) (href : pystr) (e : event_dict) :
  _extract_event_from_link urljoin li href = Ok (Some e) → named e.
Proof.
  unfold _extract_event_from_link. cbv zeta.
  destruct (truthy (block_text li)) eqn:Ht; simpl; [| discriminate].
  destruct (negb _); [discriminate |].
  intros (d & _ & (results_url & _ & Hd)%rbind_ok)%rbind_ok.
  injection Hd as <-. by apply truthy_take.
Qed.

Lemma extract_event_from_standalone_link_named (link : anchor) (e : event_dict) :
  _extract_event_from_standalone_link urljoin link = Ok (Some e) → named e.
Proof.
  unfold _extract_event_from_standalone_link. cbv zeta.
  destruct (truthy (a_text link)) eqn:Ht; simpl; [| discriminate].
  destruct (_ <? _)%nat; [discriminate |].
  intros (d & _ & (results_url & _ & Hd)%rbind_ok)%rbind_ok. by injection Hd as <-.
Qed.

Lemma gather_named {A} (body : list event_dict → A → result (option event_dict))
    (xs : list A) (events events' : list event_dict) :
  (∀ evs x e, body evs x = Ok (Some e) → named e) →
  Forall named events →
  gather body xs events = Ok events' → Forall named events'.
Proof.
  intros Hbody. revert events. induction xs as [|x xs IH]; intros events Hev; simpl.
  - by intros [= <-].
  - intros (info & Hinfo & Hrest)%rbind_ok. apply (IH _) in Hrest; [done |].
    destruct info as [e |]; simpl; [| done].
    apply Forall_app. split; [done |]. constructor; [| constructor].
    by apply (Hbody events x).
Qed.

Lemma discover_named (soup : listing) (events : list event_dict) :
  discover urljoin soup = Ok events → Forall named events.
Proof.
  unfold discover. cbv zeta.
  intros (ev1 & H1 & (ev2 & H2 & (ev3 & H3 & H4)%rbind_ok)%rbind_ok)%rbind_ok.
  apply gather_named in H1; [| | constructor].
  2:{ intros _ cells e. destruct (_ <=? _)%nat; [| discriminate].
      apply extract_event_from_row_named. }
  apply gather_named in H2; [| | done].
  2:{ intros _ div e. apply extract_event_from_div_named. }
  apply gather_named in H3; [| | done].
  2:{ intros _ li e. destruct (block_href li) as [href |]; [| discriminate].
      destruct (_is_results_link href); [| discriminate].
      apply extract_event_from_link_named. }
  apply gather_named in H4; [done | | done].
  intros evs link e. destruct (_ && _); [| discriminate].
  destruct (negb _); [| discriminate].
  apply extract_event_from_standalone_link_named.
Qed.

End Names.

(** ** Deduplication *)

Lemma first_from_nil (events : list event_dict) :
  first_occurrences events = first_from [] events.
Proof. reflexivity. Qed.

Lemma first_from_cons (earlier : list event_dict) (x : event_dict) (l : list event_dict) :
  first_from earlier (x :: l) =
  (if bool_decide (dedup_key x ∈ map dedup_key earlier) then [] else [x])
  ++ first_from (earlier ++ [x]) l.
Proof.
  unfold first_from. rewrite imap_cons. cbn [omap list_omap take]. rewrite app_nil_r.
  assert (Hext : imap ((fun i e =>
             if bool_decide (dedup_key e ∈ map dedup_key (earlier ++ take i (x :: l)))
             then None else Some e) ∘ S) l
          = imap (fun i e =>
             if bool_decide (dedup_key e ∈ map dedup_key ((earlier ++ [x]) ++ take i l))
             then None else Some e) l).
  { apply imap_ext. intros i e _. simpl. by rewrite <- app_assoc. }
  rewrite Hext. by destruct (bool_decide _).
Qed.

Lemma dedup_loop_first_from (seen : gset (pystr * option pystr))
    (unique earlier events : list event_dict) :
  (∀ k, k ∈ seen ↔ k ∈ map dedup_key earlier) →
  Forall (fun e => truthy (ev_name e) = true) events →
  dedup_loop seen unique events = unique ++ first_from earlier events.
Proof.
  intros Hseen Hnames. revert seen unique earlier Hseen.
  induction Hnames as [|x l Hx _ IH]; intros seen unique earlier Hseen.
  - simpl. unfold first_from. simpl. by rewrite app_nil_r.
  - cbn [dedup_loop]. rewrite first_from_cons, Hx, andb_true_r.
    destruct (bool_decide (dedup_key x ∉ seen)) eqn:Hin.
    + apply bool_decide_eq_true in Hin. rewrite Hseen in Hin.
      rewrite bool_decide_eq_false_2 by done.
      rewrite (IH _ _ (earlier ++ [x])).
      * by rewrite <- app_assoc.
      * intros k. rewrite map_app, elem_of_app, elem_of_union, Hseen. simpl.
        rewrite elem_of_singleton, list_elem_of_singleton. tauto.
    + apply bool_decide_eq_false in Hin. apply dec_stable in Hin. 
      pose proof Hin as Hin'. rewrite Hseen in Hin'.
      rewrite bool_decide_eq_true_2 by done. simpl.
      apply IH. intros k. rewrite map_app, elem_of_app, Hseen. simpl.
      rewrite list_elem_of_singleton. split; [tauto |].
      intros [? | ->]; done.
Qed.

Lemma first_from_sublist (earlier events : list event_dict) :
  sublist (first_from earlier events) events.
Proof.
  revert earlier. induction events as [|x l IH]; intros earlier.
  - constructor.
  - rewrite first_from_cons. destruct (bool_decide _); simpl.
    + by apply sublist_cons.
    + by apply sublist_skip.
Qed.

Lemma first_from_fresh (earlier events : list event_dict) (e : event_dict) :
  e ∈ first_from earlier events → dedup_key e ∉ map dedup_key earlier.
Proof.
  revert earlier. induction events as [|x l IH]; intros earlier.
  - unfold first_from. simpl. by intros ?%elem_of_nil.
  - rewrite first_from_cons. intros [Hin | Hin]%elem_of_app.
    + destruct (bool_decide _) eqn:Hd; [by apply elem_of_nil in Hin |].
      apply list_elem_of_singleton in Hin as ->. by apply bool_decide_eq_false in Hd.
    + apply IH in Hin. rewrite map_app, elem_of_app in Hin. tauto.
Qed.

Lemma first_from_NoDup (earlier events : list event_dict) :
  NoDup (map dedup_key (first_from earlier events)).
Proof.
  revert earlier. induction events as [|x l IH]; intros earlier.
  - constructor.
  - rewrite first_from_cons. destruct (bool_decide _); simpl; [apply IH |].
    constructor; [| apply IH].
    intros Hin. apply list_elem_of_In, in_map_iff in Hin as (e & He & Hin).
    apply list_elem_of_In, first_from_fresh in Hin. apply Hin.
    rewrite map_app, elem_of_app, He. right. simpl. apply list_elem_of_singleton. done.
Qed.

Lemma first_from_complete (earlier events : list event_dict) (e : event_dict) :
  e ∈ events →
  dedup_key e ∈ map dedup_key earlier ++ map dedup_key (first_from earlier events).
Proof.
  revert earlier. induction events as [|x l IH]; intros earlier Hin.
  - by apply elem_of_nil in Hin.
  - rewrite first_from_cons, map_app. apply elem_of_cons in Hin as [-> | Hin].
    + destruct (bool_decide _) eqn:Hd.
      * apply bool_decide_eq_true in Hd. apply elem_of_app. by left.
      * simpl. apply elem_of_app. right. by left.
    + specialize (IH (earlier ++ [x]) Hin).
      rewrite map_app in IH. simpl in IH.
      rewrite !elem_of_app in IH. rewrite !elem_of_app.
      destruct IH as [[? | Hx] | ?]; [by left | | by right; right].
      apply list_elem_of_singleton in Hx.
      destruct (bool_decide _) eqn:Hd.
      * apply bool_decide_eq_true in Hd. left. by rewrite Hx.
      * right. left. rewrite Hx. by left.
Qed.

Lemma deduplicate_named (events : list event_dict) :
  Forall named events → deduplicate events = first_occurrences events.
Proof.
  intros Hnames. unfold deduplicate.
  rewrite (dedup_loop_first_from ∅ [] [] events); [done | | done].
  intros k. simpl. rewrite elem_of_nil. set_solver.
Qed.

(** Two descriptors with the same name and results URL collapse to the
    first. *)
Lemma deduplicate_pair (a b : event_dict) :
  named a → dedup_key a = dedup_key b → deduplicate [a; b] = [a].
Proof.
  intros Ha Hkey. assert (Hb : named b).
  { unfold named in *. by injection Hkey as <- _. }
  rewrite deduplicate_named by (by repeat constructor).
  rewrite first_from_nil, !first_from_cons. simpl.
  rewrite (bool_decide_eq_true_2 (dedup_key b ∈ [dedup_key a])); [done |].
  rewrite Hkey. by left.
Qed.

(** C8.  On the descriptors that the four heuristics produce from a listing
    page, deduplication keeps exactly the first occurrence of each
    [(name, results_url)] pair, in the order of insertion: the result is the
    list of first occurrences, a subsequence of the input in which no key
    appears twice and every key of the input appears. *)
Theorem deduplicate_first_occurrence (urljoin : pystr → pystr → result pystr)
    (soup : listing) (events : list event_dict) :
  discover urljoin soup = Ok events →
  deduplicate events = first_occurrences events
  ∧ sublist (deduplicate events) events
  ∧ NoDup (map dedup_key (deduplicate events))
  ∧ (∀ e, e ∈ events → dedup_key e ∈ map dedup_key (deduplicate events))
  ∧ (∀ a b, a ∈ events → dedup_key a = dedup_key b → deduplicate [a; b] = [a]).
Proof.
  intros Hnames%discover_named.
  rewrite (deduplicate_named events Hnames), first_from_nil.
  split; [done |]. split; [apply first_from_sublist |].
  split; [apply first_from_NoDup |]. split.
  - intros e He. by apply (first_from_complete []) in He.
  - intros a b Ha Hkey. apply deduplicate_pair; [| done].
    rewrite Forall_forall in Hnames. by apply Hnames.
Qed.

Lemma deduplicate_first_occurrence_witness :
  discover example_urljoin duplicate_listing = Ok duplicate_events
  ∧ (deduplicate duplicate_events = first_occurrences duplicate_events
     ∧ sublist (deduplicate duplicate_events) duplicate_events
     ∧ NoDup (map dedup_key (deduplicate duplicate_events))
     ∧ (∀ e, e ∈ duplicate_events →
             dedup_key e ∈ map dedup_key (deduplicate duplicate_events))
     ∧ (∀ a b, a ∈ duplicate_events → dedup_key a = dedup_key b →
               deduplicate [a; b] = [a])).
Proof.
  split; [vm_compute; reflexivity |].
  apply (deduplicate_first_occurrence example_urljoin duplicate_listing).
  vm_compute; reflexivity.
Defined.

(** The listing with repeated entries: five descriptors, three of them
    kept, in the order in which they were first seen. *)
Example deduplicate_example :
  map ev_name duplicate_events
  = [str "Elecciones Generales 2024"; str "Primarias Locales 2024";
     str "Elecciones Generales 2024"; str "Plebiscito 2024 sin enlace";
     str "Plebiscito 2024 sin enlace"]
  ∧ map ev_name (deduplicate duplicate_events)
    = [str "Elecciones Generales 2024"; str "Primarias Locales 2024";
       str "Plebiscito 2024 sin enlace"].
Proof. split; vm_compute; reflexivity. Qed.

(** ** The fetcher *)

Section Orchestrator.
Context {FL : PyFloat}.
Variable env : environment.

(** A transport failure makes [_fetch_page] build a page with status 0,
    which the page's own validation refuses: the call raises. *)
Lemma fetch_page_transport_failure (url msg : pystr) :
  http_get env url = TransportFailure msg →
  ∃ m, _fetch_page env url = Raise (ValueError m).
Proof.
  intros Hget. unfold _fetch_page. rewrite Hget. unfold new_ScrapedPage.
  destruct (negb (truthy url)); eauto.
Qed.

(** On a response with an HTTP status the fetcher returns the page, with
    the digest of the body, and with an error exactly when the response is
    not "ok". *)
Lemma fetch_page_response (url content : pystr) (status : Z) :
  http_get env url = Response status content →
  truthy url = true → 100 ≤ status < 600 →
  _fetch_page env url =
  Ok (mk_ScrapedPage url (utcnow_isoformat env) status (md5_hexdigest env content)
        (Some content) None
        (if response_ok status then None else Some (str "HTTP " ++ str_of_int status))).
Proof.
  intros Hget Hurl Hst. unfold _fetch_page. rewrite Hget. unfold new_ScrapedPage.
  rewrite Hurl. simpl.
  replace ((status <? 100) || (600 <=? status)) with false by lia. done.
Qed.

(** ** The orchestrator *)

(** The loop over the events never raises: an exception of one event is
    caught and the loop goes on. *)
Lemma scrape_each_returns (events : list event_dict) (acc : list ElectoralEvent)
    (fs : output_dir) :
  ∃ electoral_events fs', scrape_each env events acc fs = (Ok electoral_events, fs').
Proof.
  revert acc fs. induction events as [|event events IH]; intros acc fs; simpl.
  - unfold ret. eauto.
  - destruct (scrape_event_results env event fs) as [[[e |] | ex] fs']; apply IH.
Qed.

Lemma scrape_each_all_fail (events : list event_dict) (acc : list ElectoralEvent)
    (fs : output_dir) :
  Forall (extraction_fails env) events →
  fst (scrape_each env events acc fs) = Ok acc.
Proof.
  intros Hfail. revert acc fs.
  induction Hfail as [|event events Hev _ IH]; intros acc fs; simpl.
  - done.
  - destruct (scrape_event_results env event fs) as [[[e |] | ex] fs'] eqn:Hres;
      try apply IH.
    by apply Hev in Hres.
Qed.

(** The log line of the cap raises only for a cap of more than 4300
    digits. *)
Lemma log_max_events_raises (max_events : option Z) (ex : exn) :
  log_max_events max_events = Raise ex →
  ex = int_too_long ∧ ∃ n, max_events = Some n ∧ int_str_ok n = false.
Proof.
  unfold log_max_events, py_str. destruct max_events as [n |]; [| discriminate].
  destruct (n =? 0); [discriminate |].
  destruct (int_str_ok n) eqn:Hn; simpl; [discriminate |].
  intros [= <-]. eauto.
Qed.

Lemma log_max_events_ok (max_events : option Z) (u : unit) :
  log_max_events max_events = Ok u → log_max_events max_events = Ok tt.
Proof. by destruct u. Qed.

(** [run] after a discovery that returned: nothing more when the list is
    empty; otherwise the log line of the cap, which can raise, then the loop
    over the capped list, then the summary. *)
Lemma run_after_discovery (max_events : option Z) (fs : output_dir)
    (events : list event_dict) (fs1 : output_dir) :
  scrape_events_list env fs = (Ok events, fs1) →
  (events = [] → run env max_events fs = (Ok [], fs1))
  ∧ (events ≠ [] →
     match log_max_events max_events with
     | Raise ex => run env max_events fs = (Raise ex, fs1)
     | Ok _ =>
         ∃ electoral_events fs2,
           scrape_each env (apply_max_events max_events events) [] fs1
           = (Ok electoral_events, fs2)
           ∧ run env max_events fs
             = (Ok electoral_events,
                <[summary_file :=
                    Summary (Z.of_nat (length (apply_max_events max_events events)))
                      (Z.of_nat (length electoral_events)) (utcnow_isoformat env)
                      (map summary_of electoral_events)]> fs2)
     end).
Proof.
  intros Hdisc. split.
  - intros ->. unfold run, bind. by rewrite Hdisc.
  - intros Hne.
    destruct (scrape_each_returns (apply_max_events max_events events) [] fs1)
      as (electoral_events & fs2 & Heach).
    unfold run, bind, lift. rewrite Hdisc.
    destruct events as [|e0 events0]; [done |]. cbn [nonempty negb].
    destruct (log_max_events max_events) as [u | ex]; [| done].
    exists electoral_events, fs2. split; [done |].
    by rewrite Heach.
Qed.

(** C2, as the code has it.  Whenever discovery returns its list of events
    and the log line of the cap can be written (there is no cap, or the cap
    is 0, or it has at most 4300 digits), the run completes.  If the list is
    not empty the run writes scraping_summary.json, with the number of
    events found and processed, also when every event fails extraction (zero
    processed events).  If discovery yields zero events the run returns the
    empty list at once and writes no summary: the directory is as discovery
    left it. *)
Theorem run_completes_with_summary (max_events : option Z) (fs : output_dir)
    (events : list event_dict) (fs1 : output_dir) :
  log_max_events max_events = Ok tt →
  scrape_events_list env fs = (Ok events, fs1) →
  ∃ electoral_events fs',
    run env max_events fs = (Ok electoral_events, fs')
    ∧ (events ≠ [] →
       fs' !! summary_file
       = Some (Summary (Z.of_nat (length (apply_max_events max_events events)))
                 (Z.of_nat (length electoral_events)) (utcnow_isoformat env)
                 (map summary_of electoral_events))
       ∧ (Forall (extraction_fails env) (apply_max_events max_events events) →
          electoral_events = []))
    ∧ (events = [] → electoral_events = [] ∧ fs' = fs1).
Proof.
  intros Hlog Hdisc.
  destruct (run_after_discovery max_events fs events fs1 Hdisc) as [Hnil Hcons].
  destruct events as [|e0 events0].
  - exists [], fs1. split; [by apply Hnil |]. split; [done | done].
  - rewrite Hlog in Hcons.
    destruct Hcons as (electoral_events & fs2 & Heach & Hrun); [done |].
    eexists _, _. split; [exact Hrun |]. split; [| done].
    intros _. split; [apply (lookup_insert_eq (M := gmap pystr)) |].
    intros Hfail. apply (scrape_each_all_fail _ [] fs1) in Hfail.
    rewrite Heach in Hfail. by injection Hfail.
Qed.

(** C10.  With [max_events = 0] the cap is skipped, as it is with [None]:
    the list of events is not truncated, the run is the run without a cap,
    and when discovery finds events all of them go through the loop and the
    summary counts all of them as found. *)
Theorem run_max_events_zero (fs : output_dir) :
  (∀ events, apply_max_events (Some 0) events = events)
  ∧ (∀ events, apply_max_events None events = events)
  ∧ run env (Some 0) fs = run env None fs
  ∧ (∀ events fs1,
       scrape_events_list env fs = (Ok events, fs1) → events ≠ [] →
       ∃ electoral_events fs2,
         scrape_each env events [] fs1 = (Ok electoral_events, fs2)
         ∧ run env (Some 0) fs
           = (Ok electoral_events,
              <[summary_file :=
                  Summary (Z.of_nat (length events))
                    (Z.of_nat (length electoral_events)) (utcnow_isoformat env)
                    (map summary_of electoral_events)]> fs2)).
Proof.
  split; [done |]. split; [done |]. split; [done |].
  intros events fs1 Hdisc Hne.
  destruct (run_after_discovery (Some 0) fs events fs1 Hdisc) as [_ Hcons].
  by apply Hcons.
Qed.

End Orchestrator.

(** A positive cap does truncate. *)
Example apply_max_events_one :
  apply_max_events (Some 1) duplicate_events = take 1 duplicate_events
  ∧ apply_max_events (Some 0) duplicate_events = duplicate_events.
Proof. split; reflexivity. Qed.

(** C1.  When every request times out, [_fetch_page] does not return a page
    with status 0: building that page raises [ValueError], and the
    exception leaves [_fetch_page]. *)
Theorem fetch_page_offline_raises :
  http_get env_offline CEE_EVENTS_URL = TransportFailure (str "Read timed out.")
  ∧ _fetch_page env_offline CEE_EVENTS_URL
    = Raise (ValueError (str "Invalid HTTP status code: 0")).
Proof. split; reflexivity. Qed.

(** The specification's 404: the page is returned, with its status and an
    error. *)
Example fetch_page_404 :
  _fetch_page
    (mk_environment binary64 (fun _ => Response 404 []) (utcnow_isoformat env_ok)
       (md5_hexdigest env_ok) example_urljoin (BeautifulSoup env_ok)
       (_extract_contests env_ok))
    (str "https://example.com/notfound")
  = Ok (mk_ScrapedPage (str "https://example.com/notfound") (utcnow_isoformat env_ok)
          404 (md5_hexdigest env_ok []) (Some []) None (Some (str "HTTP 404"))).
Proof. reflexivity. Qed.

(** The exception of the listing page's fetch is not caught by [run]. *)
Example run_offline_raises :
  run env_offline None ∅ = (Raise (ValueError (str "Invalid HTTP status code: 0")), ∅).
Proof. reflexivity. Qed.

(** The counterexample to C2: discovery yields zero events, the run
    completes, and no summary file is written. *)
Lemma run_no_events_no_summary :
  fst (scrape_events_list env_no_events ∅) = Ok []
  ∧ fst (run env_no_events None ∅) = Ok []
  ∧ snd (run env_no_events None ∅) !! summary_file = None.
Proof. repeat split; vm_compute; reflexivity. Qed.

Lemma run_completes_with_summary_witness :
  log_max_events None = Ok tt
  ∧ scrape_events_list env_extraction_fails ∅ = (Ok example_events, example_dir)
  ∧ ∃ electoral_events fs',
      run env_extraction_fails None ∅ = (Ok electoral_events, fs')
      ∧ (example_events ≠ [] →
         fs' !! summary_file
         = Some (Summary
                   (Z.of_nat (length (apply_max_events None example_events)))
                   (Z.of_nat (length electoral_events))
                   (utcnow_isoformat env_extraction_fails)
                   (map summary_of electoral_events))
         ∧ (Forall (extraction_fails env_extraction_fails)
              (apply_max_events None example_events) →
            electoral_events = []))
      ∧ (example_events = [] → electoral_events = [] ∧ fs' = example_dir).
Proof.
  split; [reflexivity |]. split; [vm_compute; reflexivity |].
  apply (run_completes_with_summary env_extraction_fails None ∅); [reflexivity |].
  vm_compute; reflexivity.
Defined.

(** In [env_extraction_fails] the one event that is found fails, and the
    summary says so: one event found, none processed. *)
Example run_extraction_fails :
  length example_events = 1%nat
  ∧ fst (run env_extraction_fails None ∅) = Ok []
  ∧ snd (run env_extraction_fails None ∅) !! summary_file
    = Some (Summary 1 0 (utcnow_isoformat env_extraction_fails) []).
Proof. repeat split; vm_compute; reflexivity. Qed.

(** ** The date classifier *)

Lemma forallb_lstrip (f : ascii → bool) (s : pystr) :
  forallb f s = true → forallb f (lstrip s) = true.
Proof.
  induction s as [|c s IH]; simpl; [done |].
  intros [Hc Hs]%andb_true_iff. destruct (is_space c); [auto |].
  simpl. by rewrite Hc, Hs.
Qed.

Lemma forallb_strip (f : ascii → bool) (s : pystr) :
  forallb f s = true → forallb f (py_strip s) = true.
Proof.
  intros Hs. unfold py_strip, rstrip.
  rewrite forallb_rev. apply forallb_lstrip. rewrite forallb_rev.
  by apply forallb_lstrip.
Qed.

(** A pattern whose first piece needs a character of a class finds nothing
    in a text without such characters. *)
Lemma re_search_first_class (pc : piece) (ps : list piece) (s : pystr) :
  (1 ≤ p_min pc)%nat →
  forallb (fun c => negb (p_class pc c)) s = true →
  re_search (pc :: ps) s = None.
Proof.
  intros Hmin. induction s as [|c s IH]; intros Hs.
  - simpl. destruct (p_min pc); [lia | done].
  - simpl in Hs. apply andb_true_iff in Hs as [Hc Hs].
    apply negb_true_iff in Hc.
    cbn [re_search match_here span_len]. rewrite Hc.
    cbn [give_back]. destruct (p_min pc) as [|n]; [lia |].
    cbn [Nat.ltb Nat.leb]. by apply IH.
Qed.

Lemma re_search_match (ps : list piece) (s : pystr) (caps : list pystr) :
  re_search ps s = Some caps →
  ∃ pre s' rest, s = pre ++ s' ∧ match_here ps s' = Some (caps, rest).
Proof.
  induction s as [|c s IH]; simpl.
  - destruct (match_here ps []) as [[caps' rest] |] eqn:Hm; [| discriminate].
    intros [= <-]. by exists [], [], rest.
  - destruct (match_here ps (c :: s)) as [[caps' rest] |] eqn:Hm.
    + intros [= <-]. by exists [], (c :: s), rest.
    + intros (pre & s' & rest & -> & Hm')%IH. by exists (c :: pre), s', rest.
Qed.

Lemma give_back_some {R} (k : pystr → option R) (s : pystr) (lo n m : nat) (r : R) :
  give_back k s lo n = Some (m, r) →
  (lo ≤ m ≤ n)%nat ∧ k (drop m s) = Some r.
Proof.
  induction n as [|n IH]; simpl.
  - destruct (0 <? lo)%nat eqn:Hlo; [discriminate |].
    apply Nat.ltb_ge in Hlo.
    destruct (k (drop 0 s)) eqn:Hk; [| discriminate].
    intros [= <- <-]. split; [lia | done].
  - destruct (S n <? lo)%nat eqn:Hlo; [discriminate |].
    apply Nat.ltb_ge in Hlo.
    destruct (k (drop (S n) s)) eqn:Hk.
    + intros [= <- <-]. split; [lia | done].
    + intros [Hm Hr]%IH. split; [lia | done].
Qed.

Lemma span_len_take (p : ascii → bool) (limit : option nat) (s : pystr) (m : nat) :
  (m ≤ span_len p limit s)%nat →
  forallb p (take m s) = true
  ∧ length (take m s) = m
  ∧ match limit with Some l => (m ≤ l)%nat | None => True end.
Proof.
  revert limit m. induction s as [|c s IH]; intros limit m; simpl.
  - intros Hm. assert (m = 0%nat) as -> by lia.
    destruct limit; repeat split; first [done | lia].
  - destruct (p c) eqn:Hc.
    + destruct m as [|m].
      { intros _. destruct limit; repeat split; first [done | lia]. }
      destruct limit as [[|l] |]; [lia | |]; intros Hm; simpl; rewrite Hc.
      * destruct (IH (Some l) m ltac:(lia)) as (? & ? & ?).
        repeat split; first [done | lia].
      * destruct (IH None m ltac:(lia)) as (? & ? & ?).
        repeat split; first [done | lia].
    + intros Hm. assert (m = 0%nat) as -> by lia.
      destruct limit; repeat split; first [done | lia].
Qed.

(** What a match is made of: the text is the pieces' texts followed by the
    rest, and each piece took characters of its class, within its bounds. *)
Lemma match_here_sound (ps : list piece) (s : pystr) (caps : list pystr) (rest : pystr) :
  match_here ps s = Some (caps, rest) →
  s = concat caps ++ rest
  ∧ Forall2 (fun pc cap =>
               forallb (p_class pc) cap = true
               ∧ (p_min pc ≤ length cap)%nat
               ∧ match p_max pc with
                 | Some l => (length cap ≤ l)%nat
                 | None => True
                 end) ps caps.
Proof.
  revert s caps rest. induction ps as [|pc ps IH]; intros s caps rest; simpl.
  - intros [= <- <-]. split; [done | constructor].
  - destruct (give_back _ _ _ _) as [[m [caps' rest']] |] eqn:Hgb; [| discriminate].
    intros [= <- <-]. apply give_back_some in Hgb as [Hm Hk].
    apply IH in Hk as [Hs Hcaps].
    destruct (span_len_take (p_class pc) (p_max pc) s m ltac:(lia)) as (Hp & Hlen & Hmax).
    split.
    + simpl. rewrite <- app_assoc, <- Hs. by rewrite take_drop.
    + constructor; [| done]. rewrite Hlen. repeat split; [done | lia | done].
Qed.

(** A match of [20\d{2}] is "20" followed by two decimal digits. *)
Lemma match_here_pat_year (s : pystr) (caps : list pystr) (rest : pystr) :
  match_here pat_year s = Some (caps, rest) →
  ∃ d1 d2, caps = [str "2"; str "0"; [d1; d2]]
           ∧ is_decimal d1 = true ∧ is_decimal d2 = true.
Proof.
  intros [_ Hcaps]%match_here_sound. unfold pat_year in Hcaps.
  inversion Hcaps as [|pc1 cap1 ps1 caps1 (H1 & H1min & H1max) Hcaps1]; subst.
  inversion Hcaps1 as [|pc2 cap2 ps2 caps2 (H2 & H2min & H2max) Hcaps2]; subst.
  inversion Hcaps2 as [|pc3 cap3 ps3 caps3 (H3 & H3min & H3max) Hcaps3]; subst.
  inversion Hcaps3; subst. unfold lit, one, rep in *.
  cbn [p_class p_min p_max] in *.
  destruct cap1 as [|x1 [|? ?]]; cbn [length forallb] in *; try lia.
  destruct cap2 as [|x2 [|? ?]]; cbn [length forallb] in *; try lia.
  destruct cap3 as [|d1 [|d2 [|? ?]]]; cbn [length forallb] in *; try lia.
  rewrite andb_true_r in H1, H2, H3.
  apply Ascii.eqb_eq in H1 as <-. apply Ascii.eqb_eq in H2 as <-.
  apply andb_true_iff in H3 as [Hd1 Hd2]. eauto.
Qed.

Lemma digit_val_bounds (c : ascii) : is_decimal c = true → 0 ≤ digit_val c ≤ 9.
Proof. unfold is_decimal, in_range, digit_val. lia. Qed.

Lemma parse_year (d1 d2 : ascii) :
  is_decimal d1 = true → is_decimal d2 = true →
  rbind (py_int (group0 [str "2"; str "0"; [d1; d2]])) (fun year =>
  rbind (new_date year 1 1) (fun d => Ok (Some d)))
  = Ok (Some (mk_date (2000 + 10 * digit_val d1 + digit_val d2) 1 1)).
Proof.
  intros H1 H2. pose proof (digit_val_bounds d1 H1). pose proof (digit_val_bounds d2 H2).
  rewrite py_int_decimal;
    [| done | by simpl; rewrite H1, H2 | simpl; unfold int_max_str_digits; lia].
  assert (Hv : decimal_value (group0 [str "2"; str "0"; [d1; d2]])
               = 2000 + 10 * digit_val d1 + digit_val d2).
  { unfold decimal_value. simpl.
    change (digit_val "2") with 2. change (digit_val "0") with 0. lia. }
  rewrite Hv. unfold new_date. simpl.
  replace (negb _) with false by lia. done.
Qed.

(** When none of the three patterns matches, the classifier answers with
    January 1 of the year of the first "20dd" in the text, and with [None]
    when there is none; it never raises. *)
Lemma parse_event_date_fallback (text : pystr) :
  let t := py_strip text in
  re_search pat_mdY t = None → re_search pat_Ymd t = None → re_search pat_es t = None →
  match re_search pat_year t with
  | Some caps =>
      ∃ d1 d2, caps = [str "2"; str "0"; [d1; d2]]
               ∧ is_decimal d1 = true ∧ is_decimal d2 = true
               ∧ _parse_event_date text
                 = Ok (Some (mk_date (2000 + 10 * digit_val d1 + digit_val d2) 1 1))
  | None => _parse_event_date text = Ok None
  end.
Proof.
  intros t H1 H2 H3. unfold _parse_event_date. fold t.
  assert (Hloop : try_patterns t patterns = Ok Continue).
  { unfold patterns, try_patterns, try_pattern. simpl. by rewrite H1, H2, H3. }
  rewrite Hloop. simpl.
  destruct (re_search pat_year t) as [caps |] eqn:Hy; [| done].
  apply re_search_match in Hy as (pre & s' & rest & _ & Hm).
  apply match_here_pat_year in Hm as (d1 & d2 & -> & Hd1 & Hd2).
  exists d1, d2. repeat split; try done. by apply parse_year.
Qed.

(** A text without a decimal digit has no date. *)
Lemma parse_event_date_no_digit (text : pystr) :
  forallb (fun c => negb (is_decimal c)) text = true →
  _parse_event_date text = Ok None.
Proof.
  intros Hno%forallb_strip.
  pose proof (parse_event_date_fallback text) as Hfb. cbv zeta in Hfb.
  assert (Hy : re_search pat_year (py_strip text) = None).
  { apply re_search_first_class; [simpl; lia |].
    apply forallb_forall. intros c Hc.
    rewrite forallb_forall in Hno. specialize (Hno c Hc).
    cbn [p_class lit one]. destruct (Ascii.eqb_spec "2" c) as [<- | _]; [| done].
    discriminate. }
  rewrite Hy in Hfb. apply Hfb; by apply re_search_first_class; [simpl; lia |].
Qed.

Lemma only_ValueError_rbind {A B} (r : result A) (k : A → result B) :
  only_ValueError r → (∀ a, only_ValueError (k a)) → only_ValueError (rbind r k).
Proof. destruct r as [a | [m | m]]; simpl; auto. Qed.

Lemma only_ValueError_py_int (s : pystr) : only_ValueError (py_int s).
Proof.
  unfold py_int. cbv zeta. destruct (int_digits s) as [n |]; [| done].
  destruct (_ <? _)%nat; [done |]. by destruct (int_literal s).
Qed.

Lemma only_ValueError_new_date (y m d : Z) : only_ValueError (new_date y m d).
Proof. unfold new_date. repeat (destruct (negb _); [done |]). done. Qed.

Lemma only_ValueError_strptime (s : pystr) (fmt : date_format) :
  only_ValueError (strptime s fmt).
Proof.
  unfold strptime.
  destruct (match fmt with fmt_mdY => _ | fmt_Ymd => _ end) as [[[y m] d] |]; [| done].
  repeat (apply only_ValueError_rbind; [apply only_ValueError_py_int | intros ?]).
  destruct (negb _); [done | apply only_ValueError_new_date].
Qed.

Lemma return_or_continue_ok {A} (r : result A) :
  only_ValueError r → ∃ step, return_or_continue r = Ok step.
Proof. destruct r as [a | [m | m]]; simpl; [eauto | eauto | done]. Qed.

Lemma try_pattern_ok (date_text : pystr) (p : list piece * option date_format) :
  ∃ step, try_pattern date_text p = Ok step.
Proof.
  unfold try_pattern. destruct (re_search p.1 date_text) as [caps |]; [| eauto].
  destruct p.2 as [fmt |].
  - apply return_or_continue_ok, only_ValueError_strptime.
  - destruct (spanish_months !! _) as [month |]; [| eauto].
    destruct (month =? 0); [eauto |].
    apply return_or_continue_ok.
    repeat (apply only_ValueError_rbind; [apply only_ValueError_py_int | intros ?]).
    apply only_ValueError_new_date.
Qed.

Lemma try_patterns_ok (date_text : pystr) (ps : list (list piece * option date_format)) :
  ∃ step, try_patterns date_text ps = Ok step.
Proof.
  induction ps as [|p ps IH]; simpl; [eauto |].
  destruct (try_pattern_ok date_text p) as [[d |] ->]; simpl; eauto.
Qed.

(** The classifier never raises: an unresolvable date is an absent value. *)
Lemma parse_event_date_returns (text : pystr) :
  ∃ d, _parse_event_date text = Ok d.
Proof.
  unfold _parse_event_date.
  destruct (try_patterns_ok (py_strip text) patterns) as [[d |] ->]; simpl; [eauto |].
  destruct (re_search pat_year (py_strip text)) as [caps |] eqn:Hy; [| eauto].
  apply re_search_match in Hy as (pre & s' & rest & _ & Hm).
  apply match_here_pat_year in Hm as (d1 & d2 & -> & Hd1 & Hd2).
  rewrite parse_year by done. eauto.
Qed.

(** The dates of the specification's examples. *)
Example parse_event_date_examples :
  _parse_event_date (str "11/05/2024") = Ok (Some (mk_date 2024 11 5))
  ∧ _parse_event_date (str "2024-11-05") = Ok (Some (mk_date 2024 11 5))
  ∧ _parse_event_date (str "5 de noviembre de 2024") = Ok (Some (mk_date 2024 11 5))
  ∧ _parse_event_date (str "Elecciones 2024") = Ok (Some (mk_date 2024 1 1))
  ∧ _parse_event_date (str "Elecciones Generales") = Ok None.
Proof. repeat split; vm_compute; reflexivity. Qed.

(** C3.  The fallback looks for "20dd" only.  In "Elecciones 1996" none of
    the three date patterns matches and the text holds the four-digit token
    1996, which begins with "19"; the classifier answers [None], not
    January 1 of 1996. *)
Theorem parse_event_date_1996 :
  let text := str "Elecciones 1996" in
  re_search pat_mdY (py_strip text) = None
  ∧ re_search pat_Ymd (py_strip text) = None
  ∧ re_search pat_es (py_strip text) = None
  ∧ contains (str "1996") text = true
  ∧ _parse_event_date text = Ok None.
Proof. repeat split; vm_compute; reflexivity. Qed.

(** The row heuristic does take "19dd" for a year: it accepts a row of
    1996, whose descriptor then has no date. *)
Example extract_event_from_row_1996 :
  _extract_event_from_row example_urljoin
    [mk_cell (str "Elecciones Generales 1996") [];
     mk_cell (str "Resultados") [results_page_url]]
  = Ok (Some (mk_event (str "Elecciones Generales 1996")
                (str "Elecciones Generales 1996 Resultados") None
                (Some results_page_url) CEE_EVENTS_URL)).
Proof. vm_compute; reflexivity. Qed.

(** * Further properties of the code *)

(** ** The date classifier: what it returns *)

Lemma new_date_valid (y m d : Z) (x : date) : new_date y m d = Ok x → valid_date x.
Proof.
  unfold new_date, valid_date.
  destruct (negb ((1 <=? y) && (y <=? 9999))) eqn:Hy; [discriminate |].
  destruct (negb ((1 <=? m) && (m <=? 12))) eqn:Hm; [discriminate |].
  destruct (negb ((1 <=? d) && (d <=? days_in_month y m))) eqn:Hd; [discriminate |].
  intros [= <-]. simpl. lia.
Qed.

Lemma strptime_valid (s : pystr) (fmt : date_format) (x : date) :
  strptime s fmt = Ok x → valid_date x.
Proof.
  unfold strptime.
  destruct (match fmt with fmt_mdY => _ | fmt_Ymd => _ end) as [[[y m] d] |]; [| discriminate].
  intros (y' & _ & (m' & _ & (d' & _ & H)%rbind_ok)%rbind_ok)%rbind_ok.
  destruct (negb _); [discriminate |]. by apply new_date_valid in H.
Qed.

Lemma return_or_continue_return {A} (r : result A) (a : A) :
  return_or_continue r = Ok (Return a) → r = Ok a.
Proof. destruct r as [a' | [m | m]]; simpl; congruence. Qed.

Lemma try_pattern_valid (date_text : pystr) (p : list piece * option date_format)
    (x : date) :
  try_pattern date_text p = Ok (Return x) → valid_date x.
Proof.
  unfold try_pattern. destruct (re_search p.1 date_text) as [caps |]; [| discriminate].
  destruct p.2 as [fmt |].
  - intros H%return_or_continue_return. by apply strptime_valid in H.
  - destruct (spanish_months !! _) as [month |]; [| discriminate].
    destruct (month =? 0); [discriminate |].
    intros H%return_or_continue_return.
    apply rbind_ok in H as (y & _ & (d & _ & H)%rbind_ok).
    by apply new_date_valid in H.
Qed.

Lemma try_patterns_valid (date_text : pystr)
    (ps : list (list piece * option date_format)) (x : date) :
  try_patterns date_text ps = Ok (Return x) → valid_date x.
Proof.
  induction ps as [|p ps IH]; simpl; [discriminate |].
  intros ([x' |] & Hp & Hrest)%rbind_ok.
  - injection Hrest as <-. by apply try_pattern_valid in Hp.
  - by apply IH.
Qed.

Lemma parse_event_date_valid (text : pystr) (d : date) :
  _parse_event_date text = Ok (Some d) → valid_date d.
Proof.
  unfold _parse_event_date.
  intros ([x |] & Hloop & Hrest)%rbind_ok.
  - injection Hrest as <-. by apply try_patterns_valid in Hloop.
  - destruct (re_search pat_year (py_strip text)) as [caps |]; [| discriminate].
    apply rbind_ok in Hrest as (y & _ & (x & Hx & Hd)%rbind_ok).
    injection Hd as <-. by apply new_date_valid in Hx.
Qed.

(** X1.  [_parse_event_date] never raises, whatever the text, and a date it
    returns is a date of the calendar: the [ValueError]s of [strptime] and
    of [date] are all caught, and nothing is returned that did not pass
    their validation. *)
Theorem parse_event_date_total_valid (text : pystr) :
  ∃ r, _parse_event_date text = Ok r ∧ (∀ d, r = Some d → valid_date d).
Proof.
  destruct (parse_event_date_returns text) as [r Hr]. exists r. split; [done |].
  intros d ->. by apply (parse_event_date_valid text).
Qed.

Lemma digit_run_app (n : nat) (a s b : pystr) :
  has_digit_run n s → has_digit_run n (a ++ s ++ b).
Proof.
  intros (pre & w & post & -> & Hlen & Hw).
  exists (a ++ pre), w, (post ++ b). by rewrite <- !app_assoc.
Qed.

Lemma digit_run_test (n : nat) (s : pystr) :
  has_digit_run n s → digit_run_b n s = true.
Proof.
  intros (pre & w & post & -> & Hlen & Hw).
  induction pre as [|c pre IH]; simpl.
  - destruct (w ++ post) eqn:Hwp; simpl.
    + destruct w; [| discriminate]. simpl in *. subst n. done.
    + rewrite <- Hwp, take_app_length' by done. rewrite Hlen, Nat.eqb_refl, Hw. done.
  - rewrite IH. apply orb_true_r.
Qed.

(** A match of a pattern one of whose pieces is [\d{4}] holds four
    consecutive digits. *)
Lemma match_digit_run (ps : list piece) (i : nat) (s : pystr) (caps : list pystr) :
  ps !! i = Some (rep is_decimal 4 4) →
  re_search ps s = Some caps → has_digit_run 4 s.
Proof.
  intros Hi (pre & s' & rest & -> & Hm)%re_search_match.
  apply match_here_sound in Hm as [-> Hcaps].
  destruct (Forall2_lookup_l _ _ _ _ _ Hcaps Hi) as (w & Hw & Hcls & Hmin & Hmax).
  cbn [p_class p_min p_max rep] in *.
  rewrite <- (take_drop_middle caps i w Hw), concat_app. simpl.
  exists (pre ++ concat (take i caps)), w, (concat (drop (S i) caps) ++ rest).
  split; [by rewrite <- !app_assoc |]. split; [lia | done].
Qed.

Lemma strip_digit_run (n : nat) (s : pystr) :
  has_digit_run n (py_strip s) → has_digit_run n s.
Proof.
  unfold py_strip. intros H.
  destruct (lstrip_split s) as (l & _ & Hs).
  destruct (rstrip_split (lstrip s)) as (t & _ & Hu).
  rewrite Hs, Hu. by apply digit_run_app.
Qed.

(** X2.  Every date the classifier finds comes with a four-digit year: on a
    text that has no four consecutive decimal digits, in particular on one
    without digits, [_parse_event_date] returns [None]. *)
Theorem parse_event_date_needs_year (text : pystr) :
  ¬ has_digit_run 4 text → _parse_event_date text = Ok None.
Proof.
  intros Hno.
  assert (Hnone : ∀ ps i, ps !! i = Some (rep is_decimal 4 4) →
                          re_search ps (py_strip text) = None).
  { intros ps i Hi. destruct (re_search ps (py_strip text)) as [caps |] eqn:Hs; [| done].
    exfalso. apply Hno, strip_digit_run. by apply (match_digit_run ps i _ caps). }
  pose proof (parse_event_date_fallback text
                (Hnone pat_mdY 4%nat eq_refl) (Hnone pat_Ymd 0%nat eq_refl)
                (Hnone pat_es 10%nat eq_refl)) as Hfb.
  destruct (re_search pat_year (py_strip text)) as [caps |] eqn:Hy; [| done].
  exfalso. apply Hno, strip_digit_run.
  apply re_search_match in Hy as (pre & s' & rest & -> & Hm).
  pose proof Hm as [-> _]%match_here_sound.
  apply match_here_pat_year in Hm as (d1 & d2 & -> & Hd1 & Hd2).
  apply digit_run_app. exists [], [("2":ascii); ("0":ascii); d1; d2], [].
  repeat split. simpl. by rewrite Hd1, Hd2.
Qed.

Lemma parse_event_date_needs_year_witness :
  ¬ has_digit_run 4 (str "5 de mayo del 24")
  ∧ _parse_event_date (str "5 de mayo del 24") = Ok None.
Proof.
  assert (H : ¬ has_digit_run 4 (str "5 de mayo del 24")).
  { intros H%digit_run_test. vm_compute in H. discriminate. }
  split; [exact H |].
  apply (parse_event_date_needs_year (str "5 de mayo del 24")). exact H.
Defined.

(** ** The municipality code validator on decimal digits *)

(** X3.  On a string that holds no superscript digit (U+00B2, U+00B3,
    U+00B9), so that the only characters [isdigit] accepts in it are the
    decimal digits 0..9: a run of more than 4300 decimal digits makes
    [validate_municipality_code] raise the [ValueError] of [int]'s limit on
    the digits of a number; on every other such string it returns, and its
    answer is true exactly when the string is a non-empty run of decimal
    digits whose value lies in 1..78, leading zeros included. *)
Theorem validate_municipality_code_range (code : pystr) :
  forallb (fun c => implb (is_digit c) (is_decimal c)) code = true →
  if forallb is_decimal code && (int_max_str_digits <? length code)%nat
  then validate_municipality_code code = Raise (too_many_digits (length code))
  else ∃ b, validate_municipality_code code = Ok b
            ∧ (b = true ↔ code ≠ [] ∧ forallb is_decimal code = true
                          ∧ 1 ≤ decimal_value code ≤ 78).
Proof.
  intros H. destruct (forallb is_decimal code) eqn:Hdec; cbn [andb].
  - destruct (int_max_str_digits <? length code)%nat eqn:Hlen.
    + apply Nat.ltb_lt in Hlen. by apply validate_municipality_code_too_long.
    + apply Nat.ltb_ge in Hlen.
      rewrite (validate_municipality_code_decimal code H Hlen), Hdec.
      eexists. split; [reflexivity |].
      destruct code as [|c code]; simpl truthy.
      * simpl. split; [discriminate | by intros [? _]].
      * rewrite !andb_true_iff. split.
        -- intros [[[_ ?] ?] ?]. repeat split; [done | lia | lia].
        -- intros (_ & ? & ? & ?). repeat split; [lia | lia].
  - exists false. split; [by apply validate_municipality_code_not_decimal |].
    split; [discriminate | by intros (_ & ? & _)].
Qed.

Lemma validate_municipality_code_range_witness :
  forallb (fun c => implb (is_digit c) (is_decimal c)) (str "0078") = true
  ∧ ∃ b, validate_municipality_code (str "0078") = Ok b
         ∧ (b = true ↔ str "0078" ≠ [] ∧ forallb is_decimal (str "0078") = true
                       ∧ 1 ≤ decimal_value (str "0078") ≤ 78).
Proof.
  split; [reflexivity |].
  exact (validate_municipality_code_range (str "0078") eq_refl).
Defined.

(** 4300 zeros followed by a one are too many digits for [int]. *)
Example validate_municipality_code_long :
  validate_municipality_code (repeat "0"%char 4300 ++ str "1")
  = Raise (too_many_digits 4301)
  ∧ validate_municipality_code (repeat "0"%char 4299 ++ str "1") = Ok true.
Proof. split; vm_compute; reflexivity. Qed.

(** ** The discoverer raises only what [urljoin] raises *)

Section DiscovererTotal.
Variable urljoin : pystr → pystr → result pystr.

Lemma extractor_ok_none : extractor_ok urljoin (Ok None).
Proof. intros e. discriminate. Qed.

Lemma extractor_ok_date (name text : pystr) (url : option pystr) :
  truthy name = true →
  extractor_ok urljoin
    (rbind (_parse_event_date text) (fun event_date =>
     Ok (Some (mk_event name text event_date url CEE_EVENTS_URL)))).
Proof.
  intros Hname. destruct (parse_event_date_returns text) as [d Hd]. rewrite Hd. simpl.
  intros e [= <-].
  split; [done |]. split; [done |]. split; [done |]. simpl.
  intros x ->. by apply (parse_event_date_valid text).
Qed.

Lemma extractor_ok_join (name text href : pystr) :
  truthy name = true →
  extractor_ok urljoin
    (rbind (_parse_event_date text) (fun event_date =>
     rbind (join_base urljoin href) (fun results_url =>
     Ok (Some (mk_event name text event_date results_url CEE_EVENTS_URL))))).
Proof.
  intros Hname. destruct (parse_event_date_returns text) as [d Hd]. rewrite Hd. simpl.
  unfold join_base. destruct (urljoin CEE_BASE_URL href) as [u | ex] eqn:Hjoin; simpl.
  - intros e [= <-].
    split; [done |]. split; [done |]. split; [done |]. simpl.
    intros x ->. by apply (parse_event_date_valid text).
  - by exists href.
Qed.

Lemma extract_event_from_row_ok (cells : list cell) :
  extractor_ok urljoin (_extract_event_from_row urljoin cells).
Proof.
  unfold _extract_event_from_row. cbv zeta.
  destruct (negb _); [apply extractor_ok_none |].
  assert (Hrest : ∀ results_url,
            extractor_ok urljoin
              match List.find (fun cell_text => truthy cell_text
                                                && (5 <? length cell_text)%nat)
                      (map cell_text cells) with
              | Some name =>
                  rbind (_parse_event_date (py_join (str " ") (map cell_text cells)))
                    (fun event_date =>
                     Ok (Some (mk_event name (py_join (str " ") (map cell_text cells))
                                 event_date results_url CEE_EVENTS_URL)))
              | None => Ok None
              end).
  { intros results_url.
    destruct (List.find _ (map cell_text cells)) as [name |] eqn:Hfind;
      [| apply extractor_ok_none].
    apply extractor_ok_date.
    apply find_some in Hfind as [_ Hname]. by apply andb_true_iff in Hname as [? _]. }
  destruct (List.find _is_results_link _) as [href |]; [| apply Hrest].
  unfold join_base. destruct (urljoin CEE_BASE_URL href) as [u | ex] eqn:Hjoin;
    [apply Hrest | by exists href].
Qed.

Lemma extract_event_from_div_ok (div : block) :
  extractor_ok urljoin (_extract_event_from_div urljoin div).
Proof.
  unfold _extract_event_from_div. cbv zeta.
  destruct (truthy (block_text div)) eqn:Ht; simpl; [| apply extractor_ok_none].
  destruct (_ <? _)%nat; [apply extractor_ok_none |].
  assert (Hrest : ∀ results_url,
            extractor_ok urljoin
              (rbind (_parse_event_date (block_text div)) (fun event_date =>
               Ok (Some (mk_event (take 200 (block_text div)) (block_text div)
                           event_date results_url CEE_EVENTS_URL)))))
    by (intros results_url; apply extractor_ok_date; by apply truthy_take).
  destruct (block_href div) as [href |]; [| apply Hrest].
  destruct (truthy href); [| apply Hrest].
  unfold join_base. destruct (urljoin CEE_BASE_URL href) as [u | ex] eqn:Hjoin;
    [apply Hrest | by exists href].
Qed.

Lemma extract_event_from_link_ok (li : block) (href : pystr) :
  extractor_ok urljoin (_extract_event_from_link urljoin li href).
Proof.
  unfold _extract_event_from_link. cbv zeta.
  destruct (truthy (block_text li)) eqn:Ht; simpl; [| apply extractor_ok_none].
  destruct (negb _); [apply extractor_ok_none |].
  apply extractor_ok_join. by apply truthy_take.
Qed.

Lemma extract_event_from_standalone_link_ok (link : anchor) :
  extractor_ok urljoin (_extract_event_from_standalone_link urljoin link).
Proof.
  unfold _extract_event_from_standalone_link. cbv zeta.
  destruct (truthy (a_text link)) eqn:Ht; simpl; [| apply extractor_ok_none].
  destruct (_ <? _)%nat; [apply extractor_ok_none |].
  by apply extractor_ok_join.
Qed.

(** A loop of the discoverer raises only what [urljoin] raised; when it
    returns it has added at most one descriptor per element, and kept the
    descriptors well formed. *)
Lemma gather_ok {A} (body : list event_dict → A → result (option event_dict))
    (xs : list A) (events : list event_dict) :
  (∀ evs x, extractor_ok urljoin (body evs x)) →
  Forall well_formed_descriptor events →
  match gather body xs events with
  | Ok events' =>
      Forall well_formed_descriptor events'
      ∧ (length events ≤ length events' ≤ length events + length xs)%nat
  | Raise ex => ∃ href, urljoin CEE_BASE_URL href = Raise ex
  end.
Proof.
  intros Hbody. revert events. induction xs as [|x xs IH]; intros events Hev; simpl.
  - split; [done | lia].
  - pose proof (Hbody events x) as Hx.
    destruct (body events x) as [info | ex]; simpl; [| exact Hx].
    assert (Hwf : Forall well_formed_descriptor (append_info events info)).
    { destruct info as [e |]; simpl; [| done].
      apply Forall_app. split; [done |]. constructor; [by apply Hx | constructor]. }
    specialize (IH (append_info events info) Hwf).
    destruct (gather body xs (append_info events info)) as [events' | ex]; [| exact IH].
    destruct IH as [Hwf' Hlen]. split; [done |].
    destruct info; simpl in Hlen; rewrite ?length_app in Hlen; simpl in Hlen; lia.
Qed.

(** The four heuristics raise only what [urljoin] raised for some [href] of
    the page; when they return, the list has at most one descriptor per
    table row, marked div, list item and link, and every descriptor is well
    formed. *)
Lemma discover_ok (soup : listing) :
  match discover urljoin soup with
  | Ok events =>
      Forall well_formed_descriptor events
      ∧ (length events
         ≤ length (rows soup) + length (divs soup) + length (lis soup)
           + length (anchors soup))%nat
  | Raise ex => ∃ href, urljoin CEE_BASE_URL href = Raise ex
  end.
Proof.
  unfold discover. cbv zeta.
  pose proof (gather_ok
              (fun _ cells => if (2 <=? length cells)%nat
                              then _extract_event_from_row urljoin cells else Ok None)
              (rows soup) []) as H1.
  destruct (gather _ (rows soup) []) as [ev1 | ex]; simpl.
  2:{ apply H1; [| constructor]. intros _ cells. destruct (_ <=? _)%nat;
        [apply extract_event_from_row_ok | apply extractor_ok_none]. }
  destruct H1 as [Hwf1 Hlen1]; [| constructor |].
  { intros _ cells. destruct (_ <=? _)%nat;
      [apply extract_event_from_row_ok | apply extractor_ok_none]. }
  pose proof (gather_ok (fun _ div => _extract_event_from_div urljoin div)
                (divs soup) ev1 (fun _ div => extract_event_from_div_ok div) Hwf1) as H2.
  destruct (gather _ (divs soup) ev1) as [ev2 | ex]; simpl; [| exact H2].
  destruct H2 as [Hwf2 Hlen2].
  pose proof (gather_ok
              (fun _ li => match block_href li with
                           | Some href =>
                               if _is_results_link href
                               then _extract_event_from_link urljoin li href
                               else Ok None
                           | None => Ok None
                           end)
              (lis soup) ev2) as H3.
  destruct (gather _ (lis soup) ev2) as [ev3 | ex]; simpl.
  2:{ apply H3; [| exact Hwf2]. intros _ li.
      destruct (block_href li) as [href |]; [| apply extractor_ok_none].
      destruct (_is_results_link href);
        [apply extract_event_from_link_ok | apply extractor_ok_none]. }
  destruct H3 as [Hwf3 Hlen3]; [| exact Hwf2 |].
  { intros _ li. destruct (block_href li) as [href |]; [| apply extractor_ok_none].
    destruct (_is_results_link href);
      [apply extract_event_from_link_ok | apply extractor_ok_none]. }
  match goal with
  | |- context [gather ?b (anchors soup) ev3] =>
      pose proof (gather_ok b (anchors soup) ev3) as H4
  end.
  assert (Hbody : ∀ (evs : list event_dict) (link : anchor),
            extractor_ok urljoin
              (let href := a_href link in
               if _is_results_link href && truthy (a_text link)
               then if negb (existsb (fun e => bool_decide (ev_results_url e = Some href))
                               evs)
                    then _extract_event_from_standalone_link urljoin link
                    else Ok None
               else Ok None)).
  { intros evs link. cbv zeta. destruct (_ && _); [| apply extractor_ok_none].
    destruct (negb _);
      [apply extract_event_from_standalone_link_ok | apply extractor_ok_none]. }
  specialize (H4 Hbody Hwf3).
  destruct (gather _ (anchors soup) ev3) as [ev4 | ex]; [| exact H4].
  destruct H4 as [Hwf4 Hlen4]. split; [done |]. simpl in *. lia.
Qed.

End DiscovererTotal.

(** ** The fetcher and the two scraping steps *)

Section ScraperOutcomes.
Context {FL : PyFloat}.
Variable env : environment.

Lemma new_ScrapedPage_ok (url stamp : pystr) (status : Z) (hash : pystr)
    (raw err : option pystr) (page : ScrapedPage) :
  new_ScrapedPage url stamp status hash raw err = Ok page →
  truthy url = true ∧ 100 ≤ status < 600
  ∧ page = mk_ScrapedPage url stamp status hash raw None err.
Proof.
  unfold new_ScrapedPage. destruct (truthy url); simpl; [| discriminate].
  destruct ((status <? 100) || (600 <=? status)) eqn:Hs;
    [by destruct (py_str status) |].
  intros [= <-]. split; [done |]. split; [lia | done].
Qed.

Lemma truthy_opt_http_error (status : Z) :
  truthy_opt (if response_ok status then None
              else Some (str "HTTP " ++ str_of_int status))
  = negb (response_ok status).
Proof. by destruct (response_ok status). Qed.

(** X4.  A page that [_fetch_page] returns comes from a response, never
    from a transport failure: its status lies in 100..599, it holds the
    body and the digest of the body, and it carries an error exactly when
    the status is 400 or more. *)
Theorem fetch_page_returned (url : pystr) (page : ScrapedPage) :
  _fetch_page env url = Ok page →
  ∃ status content,
    http_get env url = Response status content
    ∧ truthy url = true ∧ 100 ≤ status < 600
    ∧ page = mk_ScrapedPage url (utcnow_isoformat env) status
               (md5_hexdigest env content) (Some content) None
               (if 400 <=? status then Some (str "HTTP " ++ str_of_int status)
                else None)
    ∧ (truthy_opt (error page) = true ↔ 400 ≤ status).
Proof.
  unfold _fetch_page. destruct (http_get env url) as [status content | msg].
  - intros (Hurl & Hst & ->)%new_ScrapedPage_ok. exists status, content.
    split; [done |]. split; [done |]. split; [done |].
    cbn [error]. rewrite truthy_opt_http_error. unfold response_ok.
    replace (status <? 600) with true by lia. rewrite andb_true_r.
    destruct (400 <=? status) eqn:H400; simpl; (split; [done | lia]).
  - intros (_ & Hst & _)%new_ScrapedPage_ok. lia.
Qed.

Lemma new_ScrapedPage_ValueError (url stamp : pystr) (status : Z) (hash : pystr)
    (raw err : option pystr) (ex : exn) :
  new_ScrapedPage url stamp status hash raw err = Raise ex → ∃ m, ex = ValueError m.
Proof.
  unfold new_ScrapedPage, py_str, int_too_long.
  destruct (negb (truthy url)); [intros [= <-]; eauto |].
  destruct (_ || _); [| discriminate].
  destruct (int_str_ok status); simpl; intros [= <-]; eauto.
Qed.

Lemma fetch_page_raises (url : pystr) (ex : exn) :
  _fetch_page env url = Raise ex → ∃ m, ex = ValueError m.
Proof.
  unfold _fetch_page.
  destruct (http_get env url) as [status content | msg];
    apply new_ScrapedPage_ValueError.
Qed.

Lemma sublist_Forall_well_formed (l k : list event_dict) :
  sublist l k → Forall well_formed_descriptor k → Forall well_formed_descriptor l.
Proof.
  induction 1 as [| x l k _ IH | x l k _ IH]; [done | |].
  - intros [Hx Hk]%Forall_cons. constructor; auto.
  - intros [_ Hk]%Forall_cons. auto.
Qed.

Lemma well_formed_named (l : list event_dict) :
  Forall well_formed_descriptor l → Forall named l.
Proof. intros H. eapply Forall_impl; [exact H |]. by intros e [? _]. Qed.

Lemma new_ScrapedPage_raises (url stamp : pystr) (status : Z) (hash : pystr)
    (raw err : option pystr) :
  truthy url = true → (status <? 100) || (600 <=? status) = true →
  ∃ m, new_ScrapedPage url stamp status hash raw err = Raise (ValueError m).
Proof.
  intros Hurl Hst. unfold new_ScrapedPage, py_str, int_too_long. rewrite Hurl, Hst.
  cbn [negb]. destruct (int_str_ok status); simpl; eauto.
Qed.

(** X5.  What discovery does, by the answer to the request for the listing
    page.  A transport failure, or a status outside 100..599, raises
    [ValueError] and writes nothing.  A status from 400 to 599 gives the
    empty list and writes nothing.  Any other status runs the four
    heuristics on the body.  They raise only what [urljoin] raised for some
    [href] (a [ValueError] for a link such as "//[resultado"), and then
    discovery raises it and writes nothing.  When they return, discovery
    returns the first occurrences of what they found and writes exactly
    that list to events_list.json; every descriptor it returns has a name,
    the listing page as its source and the classifier's reading of its date
    text as its date, and no two of them share a key. *)
Theorem scrape_events_list_outcome (fs : output_dir) :
  match http_get env CEE_EVENTS_URL with
  | TransportFailure _ =>
      ∃ m, scrape_events_list env fs = (Raise (ValueError m), fs)
  | Response status content =>
      if (status <? 100) || (600 <=? status)
      then ∃ m, scrape_events_list env fs = (Raise (ValueError m), fs)
      else if 400 <=? status then scrape_events_list env fs = (Ok [], fs)
      else
        match discover (urljoin env) (BeautifulSoup env content) with
        | Raise ex =>
            scrape_events_list env fs = (Raise ex, fs)
            ∧ ∃ href, urljoin env CEE_BASE_URL href = Raise ex
        | Ok found =>
            scrape_events_list env fs
            = (Ok (first_occurrences found),
               <[events_list_file :=
                   EventsList (first_occurrences found) (utcnow_isoformat env)]> fs)
            ∧ Forall well_formed_descriptor (first_occurrences found)
            ∧ NoDup (map dedup_key (first_occurrences found))
        end
  end.
Proof.
  unfold scrape_events_list, bind, lift, _fetch_page.
  destruct (http_get env CEE_EVENTS_URL) as [status content | msg].
  - destruct ((status <? 100) || (600 <=? status)) eqn:Hrange.
    { destruct (new_ScrapedPage_raises CEE_EVENTS_URL (utcnow_isoformat env) status
                  (md5_hexdigest env content) (Some content)
                  (if response_ok status then None
                   else Some (str "HTTP " ++ str_of_int status)) eq_refl Hrange)
        as [m ->]. eauto. }
    unfold new_ScrapedPage. change (truthy CEE_EVENTS_URL) with true. cbn [negb].
    rewrite Hrange.
    cbn [error raw_html scraped_at]. rewrite truthy_opt_http_error. unfold response_ok.
    replace (status <? 600) with true by lia. rewrite andb_true_r, negb_involutive.
    destruct (400 <=? status) eqn:H400; [done |].
    change (default [] (Some content)) with content.
    pose proof (discover_ok (urljoin env) (BeautifulSoup env content)) as Hd.
    destruct (discover (urljoin env) (BeautifulSoup env content)) as [found | ex];
      [| by split].
    destruct Hd as [Hwf _].
    rewrite (deduplicate_named found) by (by apply well_formed_named).
    split; [done |]. rewrite first_from_nil. split.
    + apply (sublist_Forall_well_formed _ found); [| done]. apply first_from_sublist.
    + apply first_from_NoDup.
  - destruct (new_ScrapedPage_raises CEE_EVENTS_URL (utcnow_isoformat env) 0
                (str "") None (Some msg) eq_refl eq_refl) as [m ->]. eauto.
Qed.

(** *** Writing only the scraper's files *)

Lemma writes_only_refl (fs : output_dir) : writes_only_scraper_files fs fs.
Proof. by intros f. Qed.

Lemma writes_only_trans (fs1 fs2 fs3 : output_dir) :
  writes_only_scraper_files fs1 fs2 → writes_only_scraper_files fs2 fs3 →
  writes_only_scraper_files fs1 fs3.
Proof.
  intros H12 H23 f. destruct (H12 f) as [Ha Hb]. destruct (H23 f) as [Hc Hd].
  split; [| auto]. intros Hf. by rewrite Hc, Ha.
Qed.

Lemma writes_only_insert (fs : output_dir) (f : pystr) (data : json_data) :
  scraper_file f = true → writes_only_scraper_files fs (<[f := data]> fs).
Proof.
  intros Hf g. split.
  - intros Hg. apply (lookup_insert_ne (M := gmap pystr)). by intros ->; congruence.
  - intros Hsome. destruct (decide (f = g)) as [-> |].
    + exists data. apply (lookup_insert_eq (M := gmap pystr)).
    + destruct Hsome as [x Hx]. exists x. rewrite <- Hx.
      by apply (lookup_insert_ne (M := gmap pystr)).
Qed.

Lemma scraper_file_event (e : ElectoralEvent) : scraper_file (event_file e) = true.
Proof.
  unfold scraper_file. apply orb_true_iff. right.
  apply starts_with_spec. by eexists.
Qed.

Lemma event_file_inj (a b : ElectoralEvent) :
  event_file a = event_file b → event_id a = event_id b.
Proof.
  unfold event_file. intros H%app_inv_head. by apply app_inv_tail in H.
Qed.

Lemma event_file_not_summary (e : ElectoralEvent) : event_file e ≠ summary_file.
Proof.
  intros H. apply (f_equal (starts_with (str "event_"))) in H.
  rewrite (proj2 (starts_with_spec (str "event_") (event_file e))) in H by (by eexists).
  vm_compute in H. discriminate.
Qed.

(** The path of discovery through the directory. *)
Lemma scrape_events_list_dir (fs : output_dir) :
  match scrape_events_list env fs with
  | (Raise ex, fs') =>
      fs' = fs
      ∧ (_fetch_page env CEE_EVENTS_URL = Raise ex
         ∨ ∃ href, urljoin env CEE_BASE_URL href = Raise ex)
  | (Ok events, fs') => writes_only_scraper_files fs fs'
  end.
Proof.
  unfold scrape_events_list, bind, lift.
  destruct (_fetch_page env CEE_EVENTS_URL) as [page | ex]; [| by split; [| left]].
  destruct (truthy_opt (error page)); [apply writes_only_refl |].
  pose proof (discover_ok (urljoin env) (BeautifulSoup env (default [] (raw_html page))))
    as Hd.
  destruct (discover _ _) as [found | ex]; [| by split; [| right]].
  apply writes_only_insert. reflexivity.
Qed.

(** *** One event *)

Lemma determine_event_type_valid (name : pystr) :
  _determine_event_type name ∈ valid_types.
Proof.
  unfold _determine_event_type. cbv zeta.
  repeat (destruct (_ || _)); apply list_elem_of_In; vm_compute; tauto.
Qed.

Lemma generate_event_id_truthy (name : pystr) (d : date) :
  truthy (generate_event_id name d) = true.
Proof.
  unfold generate_event_id. cbv zeta.
  by destruct (re_sub [plus is_space] (str "-") _).
Qed.

Lemma new_ElectoralEvent_ok (id nm ty : pystr) (d : date) (src res : option pystr)
    (md : gmap pystr pystr) (e : ElectoralEvent) :
  new_ElectoralEvent id nm ty d src res md = Ok e →
  truthy id = true ∧ truthy nm = true ∧ ty ∈ valid_types
  ∧ e = mk_ElectoralEvent id nm ty d None src res [] md.
Proof.
  unfold new_ElectoralEvent.
  destruct (truthy id); simpl; [| discriminate].
  destruct (truthy nm); simpl; [| discriminate].
  destruct (bool_decide (ty ∈ valid_types)) eqn:Hty; simpl; [| discriminate].
  apply bool_decide_eq_true in Hty. by intros [= <-].
Qed.

(** What one event leaves in the directory: its file when it is returned,
    the start of its file when writing it raised, and nothing otherwise. *)
Lemma scrape_event_results_dir (event : event_dict) (fs : output_dir) :
  match scrape_event_results env event fs with
  | (Ok (Some e), fs') =>
      fs' = <[event_file e := EventData e]> fs ∧ well_formed_event e
      ∧ json_dumps_ok (EventData e) = true
  | (Ok None, fs') => fs' = fs
  | (Raise ex, fs') =>
      fs' = fs
      ∨ ∃ e, fs' = <[event_file e := Unfinished (EventData e)]> fs
             ∧ json_dumps_ok (EventData e) = false
  end.
Proof.
  unfold scrape_event_results, bind, lift, ret.
  destruct (ev_results_url event) as [url |]; [| done].
  destruct (truthy url) eqn:Hurl; simpl; [| done].
  destruct (_fetch_page env url) as [page | ex]; [| by left].
  destruct (truthy_opt (error page)); [done |].
  destruct (new_ElectoralEvent _ _ _ _ _ _ _) as [e0 | ex] eqn:Hnew; [| by left].
  destruct (_extract_contests env _ url) as [contests | ex]; [| by left].
  unfold _save_electoral_event, _save_json.
  destruct (json_dumps_ok _) eqn:Hdump; [| right; by exists (set_contests e0 contests)].
  apply new_ElectoralEvent_ok in Hnew as (Hid & Hname & Hty & ->).
  split; [done |]. split; [| done]. unfold well_formed_event, set_contests. cbn.
  split; [done |]. split; [done |]. split; [eauto | done].
Qed.

(** X6.  How one event can fail.  For a descriptor with a name (every
    descriptor of discovery has one) [scrape_event_results] raises only
    what [_fetch_page] raised for the event's results URL, what
    [_extract_contests] raised for that URL, or the [ValueError] of
    [json.dump] for an [int] of more than 4300 digits among the counts and
    totals of the event: building the [ElectoralEvent] never fails, since
    the generated id is never empty and the classifier only returns valid
    types.  When the fetch or the extraction raised, and when it returns
    [None], it writes nothing; when [json.dump] raised, the event's file
    event_<id>.json has been opened and is left with the start of the text
    of the event; when it returns an event, the event carries the
    descriptor's name, the classifier's type and the generated id, every
    [int] of it can be written, and its file event_<id>.json holds it. *)
Theorem scrape_event_results_outcome (event : event_dict) (fs : output_dir) :
  named event →
  match scrape_event_results env event fs with
  | (Raise ex, fs') =>
      ∃ url, ev_results_url event = Some url
             ∧ ((fs' = fs
                 ∧ (_fetch_page env url = Raise ex
                    ∨ ∃ soup, _extract_contests env soup url = Raise ex))
                ∨ ∃ e soup,
                    ex = int_too_long
                    ∧ json_dumps_ok (EventData e) = false
                    ∧ fs' = <[event_file e := Unfinished (EventData e)]> fs
                    ∧ name e = ev_name event
                    ∧ event_id e = generate_event_id (name e) (event_date e)
                    ∧ _extract_contests env soup url = Ok (contests e))
  | (Ok None, fs') => fs' = fs
  | (Ok (Some e), fs') =>
      fs' = <[event_file e := EventData e]> fs
      ∧ json_dumps_ok (EventData e) = true
      ∧ name e = ev_name event
      ∧ event_type e = _determine_event_type (ev_name event)
      ∧ event_date e = default (mk_date 2024 1 1) (ev_event_date event)
      ∧ event_id e = generate_event_id (name e) (event_date e)
      ∧ results_url e = ev_results_url event
      ∧ source_url e = Some (ev_source_url event)
      ∧ ∃ url soup, ev_results_url event = Some url
                    ∧ _extract_contests env soup url = Ok (contests e)
  end.
Proof.
  intros Hnamed. unfold scrape_event_results, bind, lift, ret.
  destruct (ev_results_url event) as [url |] eqn:Hres; [| done].
  destruct (truthy url) eqn:Hurl; simpl; [| done].
  destruct (_fetch_page env url) as [page | ex] eqn:Hfetch; [| by eauto 7].
  destruct (truthy_opt (error page)); [done |].
  destruct (new_ElectoralEvent _ _ _ _ _ _ _) as [e0 | ex] eqn:Hnew.
  - destruct (_extract_contests env _ url) as [contests | ex] eqn:Hext; [| by eauto 9].
    unfold _save_electoral_event, _save_json.
    destruct (json_dumps_ok _) eqn:Hdump.
    + apply new_ElectoralEvent_ok in Hnew as (_ & _ & _ & ->).
      unfold set_contests. cbn. repeat split; eauto.
    + exists url. split; [done |]. right.
      exists (set_contests e0 contests), (default [] (raw_html page)).
      apply new_ElectoralEvent_ok in Hnew as (_ & _ & _ & ->).
      split; [done |]. split; [exact Hdump |]. split; [done |].
      unfold set_contests. cbn. split; [done |]. split; [done |]. exact Hext.
  - exfalso. revert Hnew. unfold new_ElectoralEvent.
    rewrite generate_event_id_truthy, Hnamed. cbn [negb].
    by rewrite bool_decide_eq_true_2 by apply determine_event_type_valid.
Qed.

(** *** The loop and the run *)

Lemma saved_snoc (fs : output_dir) (acc : list ElectoralEvent) (e : ElectoralEvent) :
  saved fs acc → saved (<[event_file e := EventData e]> fs) (acc ++ [e]).
Proof.
  intros Hacc. apply Forall_app. split.
  - eapply Forall_impl; [exact Hacc |]. intros x (e' & Hid & Hfile). simpl.
    destruct (decide (event_file e = event_file x)) as [Heq | Hne].
    + exists e. split; [by apply event_file_inj |]. left.
      split; [rewrite <- Heq; apply (lookup_insert_eq (M := gmap pystr)) |].
      apply elem_of_app. right. by left.
    + exists e'. split; [done |].
      destruct Hfile as [[Hlook Hin] | [Hlook Hbad]]; [left | right]; split; try done.
      * rewrite <- Hlook. by apply (lookup_insert_ne (M := gmap pystr)).
      * apply elem_of_app. by left.
      * rewrite <- Hlook. by apply (lookup_insert_ne (M := gmap pystr)).
  - constructor; [| constructor]. exists e. split; [done |]. left.
    split; [apply (lookup_insert_eq (M := gmap pystr)) |].
    apply elem_of_app. right. by left.
Qed.

(** A later event with the id of a saved one, whose file could not be
    written, leaves the start of its own text in the file of both. *)
Lemma saved_unfinished (fs : output_dir) (acc : list ElectoralEvent) (e : ElectoralEvent) :
  json_dumps_ok (EventData e) = false →
  saved fs acc → saved (<[event_file e := Unfinished (EventData e)]> fs) acc.
Proof.
  intros Hbad Hacc. eapply Forall_impl; [exact Hacc |].
  intros x (e' & Hid & Hfile). simpl.
  destruct (decide (event_file e = event_file x)) as [Heq | Hne].
  - exists e. split; [by apply event_file_inj |]. right.
    split; [rewrite <- Heq; apply (lookup_insert_eq (M := gmap pystr)) | done].
  - exists e'. split; [done |].
    destruct Hfile as [[Hlook Hin] | [Hlook Hbad']]; [left | right]; split; try done.
    + rewrite <- Hlook. by apply (lookup_insert_ne (M := gmap pystr)).
    + rewrite <- Hlook. by apply (lookup_insert_ne (M := gmap pystr)).
Qed.

Lemma scrape_each_inv (events : list event_dict) (acc : list ElectoralEvent)
    (fs : output_dir) (l : list ElectoralEvent) (fs' : output_dir) :
  scrape_each env events acc fs = (Ok l, fs') →
  saved fs acc →
  Forall (fun e => well_formed_event e ∧ json_dumps_ok (EventData e) = true) acc →
  saved fs' l
  ∧ Forall (fun e => well_formed_event e ∧ json_dumps_ok (EventData e) = true) l
  ∧ writes_only_scraper_files fs fs'
  ∧ (length acc ≤ length l ≤ length acc + length events)%nat.
Proof.
  revert acc fs. induction events as [|event events IH]; intros acc fs; simpl.
  - unfold ret. intros [= <- <-] Hs Hwf.
    split; [done |]. split; [done |]. split; [apply writes_only_refl | lia].
  - pose proof (scrape_event_results_dir event fs) as Hdir.
    destruct (scrape_event_results env event fs) as [[[e |] | ex] fs1].
    + destruct Hdir as (-> & Hwe & Hdump). intros Heach Hs Hwf.
      apply IH in Heach as (Hs' & Hwf' & Hw & Hlen).
      * split; [done |]. split; [done |]. split.
        -- eapply writes_only_trans; [| exact Hw].
           apply writes_only_insert, scraper_file_event.
        -- rewrite length_app in Hlen. simpl in Hlen. lia.
      * by apply saved_snoc.
      * apply Forall_app. split; [done |]. by constructor.
    + subst fs1. intros Heach Hs Hwf.
      apply IH in Heach as (Hs' & Hwf' & Hw & Hlen); [| done | done].
      split; [done |]. split; [done |]. split; [done | lia].
    + destruct Hdir as [-> | (e & -> & Hbad)]; intros Heach Hs Hwf.
      * apply IH in Heach as (Hs' & Hwf' & Hw & Hlen); [| done | done].
        split; [done |]. split; [done |]. split; [done | lia].
      * apply IH in Heach as (Hs' & Hwf' & Hw & Hlen);
          [| by apply saved_unfinished | done].
        split; [done |]. split; [done |]. split; [| lia].
        eapply writes_only_trans; [| exact Hw].
        apply writes_only_insert, scraper_file_event.
Qed.

Lemma saved_summary (fs : output_dir) (l : list ElectoralEvent) (data : json_data) :
  saved fs l → saved (<[summary_file := data]> fs) l.
Proof.
  intros H. eapply Forall_impl; [exact H |]. clear H.
  intros x (e' & Hid & Hfile). exists e'. split; [done |].
  assert (Hne : summary_file ≠ event_file x)
    by (intros H; by apply (event_file_not_summary x)).
  destruct Hfile as [[Hlook Hin] | [Hlook Hbad]]; [left | right]; split; try done;
    rewrite <- Hlook; by apply (lookup_insert_ne (M := gmap pystr)).
Qed.

(** X7.  What a run leaves behind.  [run] raises only what the fetch of the
    listing page raised, which is a [ValueError] (a transport exception
    never gets out), or what [urljoin] raised for some [href] while the
    listing was read, and in both cases it has written nothing; or the
    [ValueError] of the log line of a cap of more than 4300 digits, after a
    discovery that found events and wrote its list.  When it returns, every
    event of its result is well formed (a name, a valid type, a results
    URL, the generated id), every [int] of it could be written, and its
    file event_<id>.json is in the directory.  The file holds an event of
    the result with that id, or, when a later event with the same id could
    not be written, the start of the text of that event.  When the result
    is not empty the summary is in the directory, lists the returned events
    in order and counts them as processed, and their number is at most the
    number of events found. *)
Theorem run_outcome (max_events : option Z) (fs : output_dir) :
  match run env max_events fs with
  | (Raise ex, fs') =>
      (fs' = fs
       ∧ ((_fetch_page env CEE_EVENTS_URL = Raise ex ∧ ∃ m, ex = ValueError m)
          ∨ ∃ href, urljoin env CEE_BASE_URL href = Raise ex))
      ∨ (ex = int_too_long
         ∧ (∃ n, max_events = Some n ∧ int_str_ok n = false)
         ∧ ∃ events, events ≠ [] ∧ scrape_events_list env fs = (Ok events, fs'))
  | (Ok electoral_events, fs') =>
      saved fs' electoral_events
      ∧ Forall well_formed_event electoral_events
      ∧ Forall (fun e => json_dumps_ok (EventData e) = true) electoral_events
      ∧ (electoral_events ≠ [] →
         ∃ found stamp,
           fs' !! summary_file
           = Some (Summary found (Z.of_nat (length electoral_events)) stamp
                     (map summary_of electoral_events))
           ∧ Z.of_nat (length electoral_events) ≤ found)
  end.
Proof.
  pose proof (scrape_events_list_dir fs) as Hdir.
  destruct (scrape_events_list env fs) as [[events | ex] fs1] eqn:Hdisc.
  - destruct (run_after_discovery env max_events fs events fs1 Hdisc) as [Hnil Hcons].
    destruct events as [|e0 events0].
    + rewrite Hnil by done. repeat split; [constructor | constructor | constructor | done].
    + specialize (Hcons ltac:(done)).
      destruct (log_max_events max_events) as [u | ex] eqn:Hlog.
      * destruct Hcons as (l & fs2 & Heach & ->).
        apply scrape_each_inv in Heach as (Hs & Hwf & _ & Hlen);
          [| constructor | constructor].
        split; [by apply saved_summary |].
        split; [eapply Forall_impl; [exact Hwf |]; by intros e [? _] |].
        split; [eapply Forall_impl; [exact Hwf |]; by intros e [_ ?] |].
        intros _. eexists _, _. split; [apply (lookup_insert_eq (M := gmap pystr)) |].
        simpl in Hlen. lia.
      * rewrite Hcons. right. apply log_max_events_raises in Hlog as [-> Hn].
        split; [done |]. split; [done |]. by exists (e0 :: events0).
  - unfold run, bind. rewrite Hdisc. destruct Hdir as [-> [Hfetch | Hjoin]]; left.
    + split; [done |]. left. split; [done |]. by apply (fetch_page_raises CEE_EVENTS_URL).
    + split; [done |]. by right.
Qed.

(** X8.  A run touches no file but its own: whatever happens, every file
    of the output directory whose name is not events_list.json,
    scraping_summary.json or event_<...> is as it was before the run, and
    no file is removed. *)
Theorem run_writes_only_scraper_files (max_events : option Z) (fs : output_dir) :
  writes_only_scraper_files fs (snd (run env max_events fs)).
Proof.
  pose proof (scrape_events_list_dir fs) as Hdir.
  destruct (scrape_events_list env fs) as [[events | ex] fs1] eqn:Hdisc.
  - destruct (run_after_discovery env max_events fs events fs1 Hdisc) as [Hnil Hcons].
    destruct events as [|e0 events0].
    + by rewrite Hnil.
    + specialize (Hcons ltac:(done)).
      destruct (log_max_events max_events) as [u | ex]; [| by rewrite Hcons].
      destruct Hcons as (l & fs2 & Heach & ->). simpl.
      apply scrape_each_inv in Heach as (_ & _ & Hw & _); [| constructor | constructor].
      eapply writes_only_trans; [exact Hdir |].
      eapply writes_only_trans; [exact Hw |].
      apply writes_only_insert. reflexivity.
  - unfold run, bind. rewrite Hdisc. simpl. destruct Hdir as [-> _].
    apply writes_only_refl.
Qed.

(** X9.  A positive cap bounds the work: with [max_events = n > 0] at most
    [n] events are returned. *)
Theorem run_respects_cap (n : Z) (fs : output_dir) :
  0 < n →
  match run env (Some n) fs with
  | (Ok electoral_events, _) => Z.of_nat (length electoral_events) ≤ n
  | (Raise _, _) => True
  end.
Proof.
  intros Hn.
  destruct (scrape_events_list env fs) as [[events | ex] fs1] eqn:Hdisc.
  - destruct (run_after_discovery env (Some n) fs events fs1 Hdisc) as [Hnil Hcons].
    destruct events as [|e0 events0].
    + rewrite Hnil by done. simpl. lia.
    + specialize (Hcons ltac:(done)).
      destruct (log_max_events (Some n)) as [u | ex]; [| by rewrite Hcons].
      destruct Hcons as (l & fs2 & Heach & ->).
      apply scrape_each_inv in Heach as (_ & _ & _ & Hlen); [| constructor | constructor].
      revert Hlen. unfold apply_max_events, slice_to.
      replace (n =? 0) with false by lia. replace (0 <=? n) with true by lia.
      rewrite length_take. simpl. lia.
  - unfold run, bind. by rewrite Hdisc.
Qed.

End ScraperOutcomes.

(** ** Event ids *)

Lemma id_alphabet_char (c : ascii) :
  id_alphabet c = true →
  id_char c = true ∧ is_space c = false ∧ lower_char c = c.
Proof.
  intros H.
  assert (Hb : implb (id_alphabet c)
                 (id_char c && negb (is_space c) && Ascii.eqb (lower_char c) c) = true)
    by (clear H; ascii_cases c; reflexivity).
  rewrite H in Hb. simpl in Hb.
  apply andb_true_iff in Hb as [[H1 H2]%andb_true_iff H3].
  apply negb_true_iff in H2. by apply Ascii.eqb_eq in H3.
Qed.

Lemma id_char_alphabet (c : ascii) :
  id_char c = true → is_space c = false → id_alphabet c = true.
Proof.
  intros H1 H2.
  assert (Hb : implb (id_char c && negb (is_space c)) (id_alphabet c) = true)
    by (clear H1 H2; ascii_cases c; reflexivity).
  by rewrite H1, H2 in Hb.
Qed.

Lemma forallb_filter_same {A} (f : A → bool) (l : list A) :
  forallb f (List.filter f l) = true.
Proof.
  induction l as [|x l IH]; simpl; [done |].
  destruct (f x) eqn:Hx; simpl; [by rewrite Hx |]; done.
Qed.

Lemma filter_all {A} (f : A → bool) (l : list A) :
  forallb f l = true → List.filter f l = l.
Proof.
  induction l as [|x l IH]; simpl; [done |].
  intros [Hx Hl]%andb_true_iff. by rewrite Hx, IH.
Qed.

Lemma collapse_ws_alphabet (in_run : bool) (s : pystr) :
  forallb id_char s = true → forallb id_alphabet (collapse_ws in_run s) = true.
Proof.
  revert in_run. induction s as [|c s IH]; intros in_run; simpl; [done |].
  intros [Hc Hs]%andb_true_iff. destruct (is_space c) eqn:Hsp.
  - destruct in_run; simpl; auto.
  - simpl. by rewrite id_char_alphabet, IH.
Qed.

Lemma collapse_ws_no_space (in_run : bool) (s : pystr) :
  forallb (fun c => negb (is_space c)) s = true → collapse_ws in_run s = s.
Proof.
  revert in_run. induction s as [|c s IH]; intros in_run; simpl; [done |].
  intros [Hc Hs]%andb_true_iff. apply negb_true_iff in Hc. by rewrite Hc, IH.
Qed.

Lemma strip_no_space (s : pystr) :
  forallb (fun c => negb (is_space c)) s = true → py_strip s = s.
Proof.
  assert (Hl : ∀ t, forallb (fun c => negb (is_space c)) t = true → lstrip t = t).
  { intros [|c t]; simpl; [done |]. intros [Hc _]%andb_true_iff.
    apply negb_true_iff in Hc. by rewrite Hc. }
  intros Hs. unfold py_strip, rstrip. rewrite (Hl s Hs), Hl, rev_involutive; [done |].
  by rewrite forallb_rev.
Qed.

Lemma alphabet_fixed (n : pystr) :
  forallb id_alphabet n = true →
  py_lower n = n ∧ forallb id_char n = true
  ∧ forallb (fun c => negb (is_space c)) n = true.
Proof.
  unfold py_lower. induction n as [|c n IH]; simpl; [done |].
  intros [Hc Hn]%andb_true_iff. destruct (IH Hn) as (Hl & Hi & Hs).
  destruct (id_alphabet_char c Hc) as (H1 & H2 & H3).
  by rewrite H1, H2, H3, Hl, Hi, Hs.
Qed.

Lemma zfill_digits_decimal (width : nat) (z : Z) :
  forallb is_decimal (zfill_digits width z) = true.
Proof.
  revert z. induction width as [|w IH]; intros z; simpl; [done |].
  rewrite forallb_app, IH. simpl. rewrite andb_true_r.
  pose proof (Z.mod_pos_bound z 10 ltac:(lia)) as Hb.
  assert (Hk : z mod 10 = 0 ∨ z mod 10 = 1 ∨ z mod 10 = 2 ∨ z mod 10 = 3
               ∨ z mod 10 = 4 ∨ z mod 10 = 5 ∨ z mod 10 = 6 ∨ z mod 10 = 7
               ∨ z mod 10 = 8 ∨ z mod 10 = 9) by lia.
  repeat destruct Hk as [-> | Hk]; try reflexivity. by rewrite Hk.
Qed.

Lemma decimal_alphabet (s : pystr) :
  forallb is_decimal s = true → forallb id_alphabet s = true.
Proof.
  induction s as [|c s IH]; simpl; [done |].
  intros [Hc Hs]%andb_true_iff. rewrite IH by done. unfold id_alphabet.
  unfold is_decimal in Hc. by rewrite Hc, orb_true_r.
Qed.

Lemma isoformat_alphabet (d : date) : forallb id_alphabet (isoformat d) = true.
Proof.
  unfold isoformat. rewrite !forallb_app.
  rewrite (decimal_alphabet (zfill_digits 4 (year d))),
    (decimal_alphabet (zfill_digits 2 (month d))),
    (decimal_alphabet (zfill_digits 2 (day d))) by apply zfill_digits_decimal.
  reflexivity.
Qed.

Lemma generate_event_id_normalized (name : pystr) (d : date) :
  generate_event_id name d = normalized_name name ++ str "-" ++ isoformat d.
Proof.
  unfold generate_event_id, normalized_name. cbv zeta.
  rewrite re_sub_one, re_sub_ws. do 3 f_equal.
  apply filter_ext. intros c. unfold not_id_char, id_char. apply negb_involutive.
Qed.

Lemma normalized_name_alphabet (name : pystr) :
  forallb id_alphabet (normalized_name name) = true.
Proof.
  unfold normalized_name. apply collapse_ws_alphabet, forallb_strip, forallb_filter_same.
Qed.

(** X10.  An event id is made of a-z, 0-9 and hyphens only, so that
    event_<id>.json is a plain file name whatever the event is called; it is
    the normalized name, a hyphen and the ISO date; and normalizing is
    idempotent: the normalized name is its own normalized name, so a name
    and its normalized form get the same id. *)
Theorem generate_event_id_alphabet (name : pystr) (d : date) :
  forallb id_alphabet (generate_event_id name d) = true
  ∧ generate_event_id name d = normalized_name name ++ str "-" ++ isoformat d
  ∧ normalized_name (normalized_name name) = normalized_name name
  ∧ generate_event_id (normalized_name name) d = generate_event_id name d.
Proof.
  pose proof (normalized_name_alphabet name) as Ha.
  destruct (alphabet_fixed _ Ha) as (Hl & Hi & Hs).
  assert (Hidem : normalized_name (normalized_name name) = normalized_name name).
  { unfold normalized_name at 1.
    by rewrite Hl, (filter_all _ _ Hi), (strip_no_space _ Hs), collapse_ws_no_space. }
  split; [| split; [apply generate_event_id_normalized | split; [done |]]].
  - rewrite generate_event_id_normalized, !forallb_app, Ha, isoformat_alphabet. done.
  - by rewrite !generate_event_id_normalized, Hidem.
Qed.

(** ** The link test *)

Lemma contains_trans (a b s : pystr) :
  contains a b = true → contains b s = true → contains a s = true.
Proof.
  rewrite !contains_spec. intros (p1 & q1 & ->) (p2 & q2 & ->).
  exists (p2 ++ p1), (q1 ++ q2). by rewrite <- !app_assoc.
Qed.

(** X11.  [_is_results_link] holds of a link exactly when "result",
    "elecciones", "election" or "ceepur.org" occurs in it, in any case: the
    keyword "resultado" of the code adds nothing, and the empty link is
    refused. *)
Theorem is_results_link_spec (href : pystr) :
  _is_results_link href = true
  ↔ occurs_ci (str "result") href ∨ occurs_ci (str "elecciones") href
    ∨ occurs_ci (str "election") href ∨ occurs_ci (str "ceepur.org") href.
Proof.
  rewrite !occurs_ci_contains.
  change (py_lower (str "result")) with (str "result").
  change (py_lower (str "elecciones")) with (str "elecciones").
  change (py_lower (str "election")) with (str "election").
  change (py_lower (str "ceepur.org")) with (str "ceepur.org").
  unfold _is_results_link. destruct href as [|c href].
  - simpl. split; [discriminate |]. intros [H | [H | [H | H]]]; discriminate.
  - change (truthy (c :: href)) with true. cbv zeta. cbn [negb existsb].
    rewrite orb_false_r, !orb_true_iff. split.
    + intros [H | [H | [H | [H | H]]]]; auto.
      left. by apply (contains_trans _ (str "resultado")).
    + intros [H | [H | [H | H]]]; auto.
Qed.

(** ** Deduplication of any list *)

Lemma dedup_loop_filter (seen : gset (pystr * option pystr))
    (unique events : list event_dict) :
  dedup_loop seen unique events
  = dedup_loop seen unique (List.filter (fun e => truthy (ev_name e)) events).
Proof.
  revert seen unique. induction events as [|e events IH]; intros seen unique; [done |].
  cbn [dedup_loop List.filter]. destruct (truthy (ev_name e)) eqn:He.
  - cbn [dedup_loop]. rewrite He. destruct (bool_decide _); simpl; apply IH.
  - rewrite andb_false_r. apply IH.
Qed.

Lemma first_from_distinct (earlier l : list event_dict) :
  NoDup (map dedup_key l) →
  (∀ e, e ∈ l → dedup_key e ∉ map dedup_key earlier) →
  first_from earlier l = l.
Proof.
  revert earlier. induction l as [|x l IH]; intros earlier Hnd Hfresh; [done |].
  rewrite first_from_cons. simpl in Hnd. apply NoDup_cons in Hnd as [Hx Hl].
  rewrite bool_decide_eq_false_2 by (apply Hfresh; by left). simpl. f_equal.
  apply IH; [done |]. intros e He. rewrite map_app, elem_of_app. simpl.
  intros [Hin | Hin%list_elem_of_singleton].
  - by apply (Hfresh e); [right |].
  - apply Hx. rewrite <- Hin. apply list_elem_of_In, in_map, list_elem_of_In, He.
Qed.

(** X12.  On any list of descriptors, with or without names, [deduplicate]
    drops the descriptors without a name and keeps the first occurrence of
    each key among the others, in order; what it returns has no two
    descriptors with the same key and is a fixed point: deduplicating
    twice is deduplicating once. *)
Theorem deduplicate_any (events : list event_dict) :
  deduplicate events
  = first_occurrences (List.filter (fun e => truthy (ev_name e)) events)
  ∧ Forall named (deduplicate events)
  ∧ sublist (deduplicate events) events
  ∧ NoDup (map dedup_key (deduplicate events))
  ∧ deduplicate (deduplicate events) = deduplicate events.
Proof.
  set (l := List.filter (fun e => truthy (ev_name e)) events).
  assert (Hl : Forall named l).
  { apply List.Forall_forall. intros e He. by apply filter_In in He as [_ He]. }
  assert (Heq : deduplicate events = first_occurrences l).
  { unfold deduplicate. rewrite dedup_loop_filter. by apply deduplicate_named. }
  assert (Hsub : sublist (first_occurrences l) l)
    by (rewrite first_from_nil; apply first_from_sublist).
  assert (Hnamed : Forall named (first_occurrences l)).
  { clear Heq. induction Hsub as [| x a b _ IH | x a b _ IH]; [done | |].
    - apply Forall_cons in Hl as [Hx Hb]. constructor; auto.
    - apply Forall_cons in Hl as [_ Hb]. auto. }
  assert (Hnd : NoDup (map dedup_key (first_occurrences l)))
    by (rewrite first_from_nil; apply first_from_NoDup).
  rewrite Heq. split; [done |]. split; [done |]. split.
  - etrans; [exact Hsub |]. subst l. clear. induction events as [|e events IH]; simpl.
    + constructor.
    + destruct (truthy (ev_name e)); [by apply sublist_skip | by apply sublist_cons].
  - split; [done |]. rewrite (deduplicate_named _ Hnamed), first_from_nil.
    apply first_from_distinct; [done |]. intros e _. simpl. apply not_elem_of_nil.
Qed.

(** ** The pattern engine: matches are exactly the decompositions *)

Lemma match_then_sound {R} (ps : list piece) (k : pystr → option R) (s : pystr)
    (caps : list pystr) (r : R) :
  match_then ps k s = Some (caps, r) →
  ∃ rest, s = concat caps ++ rest ∧ Forall2 piece_takes ps caps ∧ k rest = Some r.
Proof.
  revert s caps. induction ps as [|pc ps IH]; intros s caps; simpl.
  - destruct (k s) as [r' |] eqn:Hk; [| discriminate]. simpl.
    intros [= <- <-]. exists s. split; [done |]. split; [constructor | done].
  - destruct (give_back _ _ _ _) as [[m [caps' r']] |] eqn:Hgb; [| discriminate].
    intros [= <- <-]. apply give_back_some in Hgb as [Hm Hk].
    apply IH in Hk as (rest & Hs & Hcaps & Hr).
    destruct (span_len_take (p_class pc) (p_max pc) s m ltac:(lia)) as (Hp & Hlen & Hmax).
    exists rest. split; [| split; [| done]].
    + simpl. rewrite <- app_assoc, <- Hs. by rewrite take_drop.
    + constructor; [| done]. unfold piece_takes. rewrite Hlen.
      split; [done |]. split; [lia | done].
Qed.

Lemma span_len_app (p : ascii → bool) (limit : option nat) (cap t : pystr) :
  forallb p cap = true →
  match limit with Some l => (length cap ≤ l)%nat | None => True end →
  (length cap ≤ span_len p limit (cap ++ t))%nat.
Proof.
  revert limit. induction cap as [|c cap IH]; intros limit; simpl; [lia |].
  intros [Hc Hcap]%andb_true_iff Hl. rewrite Hc.
  destruct limit as [[|l] |]; [lia | |].
  - specialize (IH (Some l) Hcap). simpl in IH. specialize (IH ltac:(lia)). lia.
  - specialize (IH None Hcap I). lia.
Qed.

Lemma give_back_complete {R} (k : pystr → option R) (s : pystr) (lo n m : nat) :
  (lo ≤ n ≤ m)%nat → is_Some (k (drop n s)) → is_Some (give_back k s lo m).
Proof.
  intros Hn Hk. induction m as [|m IH]; simpl.
  - assert (n = 0%nat) as -> by lia. assert (lo = 0%nat) as -> by lia. simpl.
    destruct Hk as [r ->]. eauto.
  - replace (S m <? lo)%nat with false by (symmetry; apply Nat.ltb_ge; lia).
    destruct (k (drop (S m) s)) as [r |] eqn:Hm; [eauto |].
    apply IH. destruct (decide (n = S m)) as [-> |]; [| lia].
    rewrite Hm in Hk. by destruct Hk.
Qed.

Lemma match_then_complete {R} (ps : list piece) (k : pystr → option R)
    (caps : list pystr) (rest : pystr) :
  Forall2 piece_takes ps caps → is_Some (k rest) →
  is_Some (match_then ps k (concat caps ++ rest)).
Proof.
  intros Hcaps Hk. induction Hcaps as [|pc cap ps caps (Hp & Hmin & Hmax) _ IH]; simpl.
  - destruct Hk as [r ->]. simpl. eauto.
  - rewrite <- app_assoc.
    destruct (give_back_complete (match_then ps k) (cap ++ concat caps ++ rest)
                (p_min pc) (length cap)
                (span_len (p_class pc) (p_max pc) (cap ++ concat caps ++ rest)))
      as [[m [caps' r]] Hgb].
    + split; [done |]. by apply span_len_app.
    + by rewrite drop_app_length.
    + rewrite Hgb. eauto.
Qed.

(** The matcher without a test on the rest is [match_here]. *)
Lemma match_then_here (ps : list piece) (s : pystr) :
  match_then ps Some s = match_here ps s.
Proof.
  revert s. induction ps as [|pc ps IH]; intros s; simpl; [done |].
  assert (Hext : ∀ n, give_back (match_then ps Some) s (p_min pc) n
                      = give_back (match_here ps) s (p_min pc) n).
  { induction n as [|n IHn]; simpl; rewrite IH; [done |]. by rewrite IHn. }
  by rewrite Hext.
Qed.

(** ** Precinct codes *)

Lemma at_end_spec (s : pystr) : is_Some (at_end s) ↔ s = [] ∨ s = [chr 10].
Proof.
  destruct s as [|c [|c' s]]; simpl.
  - split; [by left | eauto].
  - destruct (Ascii.eqb c (chr 10)) eqn:Hc.
    + apply Ascii.eqb_eq in Hc as ->. split; [by right | eauto].
    + apply Ascii.eqb_neq in Hc. split; [by intros [? ?] |].
      intros [? | [= ?]]; done.
  - split; [by intros [? ?] | intros [? | ?]; discriminate].
Qed.

(** X13.  [validate_precinct_code] accepts exactly the strings made of one
    to three decimal digits, at most one hyphen or underscore, and one to
    four decimal digits, and the same strings followed by one newline: [$]
    also matches before a final newline. *)
Theorem validate_precinct_code_spec (code : pystr) :
  validate_precinct_code code = true
  ↔ precinct_shape code ∨ ∃ s, code = s ++ [chr 10] ∧ precinct_shape s.
Proof.
  unfold validate_precinct_code. split.
  - destruct (truthy code); cbn [negb]; [| discriminate].
    intros [[caps []] Hm]%bool_decide_eq_true.
    apply match_then_sound in Hm as (rest & -> & Hcaps & Hend).
    unfold pat_precinct in Hcaps.
    inversion Hcaps as [|pc1 a ps1 caps1 (Ha & Hamin & Hamax) Hcaps1]; subst.
    inversion Hcaps1 as [|pc2 sep ps2 caps2 (Hs & _ & Hsmax) Hcaps2]; subst.
    inversion Hcaps2 as [|pc3 b ps3 caps3 (Hb & Hbmin & Hbmax) Hcaps3]; subst.
    inversion Hcaps3; subst. cbn [p_class p_min p_max rep] in *.
    assert (Hshape : precinct_shape (a ++ sep ++ b)).
    { exists a, sep, b. split; [done |]. split; [done |]. split; [lia |].
      split; [| split; [done | lia]].
      destruct sep as [|c [|? ?]]; simpl in *; [by left | | lia].
      rewrite andb_true_r in Hs.
      apply orb_true_iff in Hs as [->%Ascii.eqb_eq | ->%Ascii.eqb_eq]; auto. }
    assert (Hrest : rest = [] ∨ rest = [chr 10]) by (apply at_end_spec; eauto).
    simpl. rewrite app_nil_r.
    destruct Hrest as [-> | ->]; [left | right].
    + by rewrite !app_nil_r.
    + exists (a ++ sep ++ b). by rewrite <- !app_assoc.
  - intros Hcode.
    assert (Hm : ∃ a sep b rest,
               code = concat [a; sep; b] ++ rest
               ∧ Forall2 piece_takes pat_precinct [a; sep; b]
               ∧ is_Some (at_end rest) ∧ (1 ≤ length a)%nat).
    { assert (Hsh : ∀ s rest, precinct_shape s → is_Some (at_end rest) →
                ∃ a sep b rest',
                  s ++ rest = concat [a; sep; b] ++ rest'
                  ∧ Forall2 piece_takes pat_precinct [a; sep; b]
                  ∧ is_Some (at_end rest') ∧ (1 ≤ length a)%nat).
      { intros s rest (a & sep & b & -> & Ha & Hla & Hsep & Hb & Hlb) Hrest.
        exists a, sep, b, rest. split; [simpl; by rewrite app_nil_r, <- !app_assoc |].
        split; [| split; [done | lia]].
        assert (Hs : forallb (fun c => Ascii.eqb c "-" || Ascii.eqb c "_") sep = true
                     ∧ (length sep ≤ 1)%nat).
        { destruct Hsep as [-> | [-> | ->]]; (split; [reflexivity | simpl; lia]). }
        destruct Hs as [Hs1 Hs2]. unfold pat_precinct.
        do 3 (constructor;
              [unfold piece_takes; cbn [p_class p_min p_max rep];
               split; [done | split; lia] |]).
        constructor. }
      destruct Hcode as [Hs | (s & -> & Hs)].
      - rewrite <- (app_nil_r code). apply Hsh; [done |]. by apply at_end_spec; left.
      - apply Hsh; [done |]. by apply at_end_spec; right. }
    destruct Hm as (a & sep & b & rest & -> & Hcaps & Hend & Hla).
    replace (truthy _) with true by (destruct a; simpl in *; [lia | done]).
    simpl negb. cbv iota. apply bool_decide_eq_true. by apply match_then_complete.
Qed.

(** The format of the docstring, a seven-digit run and a code followed by
    a newline are accepted; one digit, eight digits and two separators are
    not. *)
Example validate_precinct_code_examples :
  validate_precinct_code (str "001-001") = true
  ∧ validate_precinct_code (str "1234567") = true
  ∧ validate_precinct_code (str "001-001" ++ [chr 10]) = true
  ∧ validate_precinct_code (str "1") = false
  ∧ validate_precinct_code (str "12345678") = false
  ∧ validate_precinct_code (str "001--001") = false
  ∧ validate_precinct_code [] = false.
Proof. repeat split; vm_compute; reflexivity. Qed.

(** ** Candidates *)

Lemma lstrip_nil_iff (s : pystr) : lstrip s = [] ↔ forallb is_space s = true.
Proof.
  induction s as [|c s IH]; simpl; [done |].
  destruct (is_space c); simpl; [done |]. split; discriminate.
Qed.

Lemma strip_nil_iff (s : pystr) : py_strip s = [] ↔ forallb is_space s = true.
Proof.
  unfold py_strip, rstrip. split.
  - intros H. apply (f_equal (@rev ascii)) in H. rewrite rev_involutive in H.
    simpl in H. apply lstrip_nil_iff in H. rewrite forallb_rev in H.
    destruct (lstrip_head s) as [Hnil | (c & r & Hcr & Hc)].
    + by apply lstrip_nil_iff.
    + rewrite Hcr in H. simpl in H. by rewrite Hc in H.
  - intros H. apply lstrip_nil_iff in H. by rewrite H.
Qed.

Lemma strip_idempotent (s : pystr) : py_strip (py_strip s) = py_strip s.
Proof.
  destruct (rstrip_last (lstrip s)) as [Hnil | (r & z & Hrz & Hz)].
  - unfold py_strip at 2 3. by rewrite Hnil.
  - assert (Hhead : lstrip (py_strip s) = py_strip s).
    { unfold py_strip. destruct (rstrip_split (lstrip s)) as (t & _ & Hu).
      destruct (lstrip_head s) as [Hs | (c & u & Hcu & Hc)].
      - by rewrite Hs.
      - rewrite Hrz in *. rewrite Hcu in Hu.
        destruct r as [|c' r]; simpl in Hu; injection Hu as <- _; simpl.
        + by rewrite Hz.
        + by rewrite Hc. }
    unfold py_strip at 1. rewrite Hhead. unfold py_strip. rewrite Hrz.
    by apply rstrip_snoc.
Qed.

(** X14.  A candidate is refused exactly when the name is empty or all
    white space; otherwise the stored name is the stripped name, which is
    not empty, and a candidate built from a stored name is the same
    candidate: validation changes nothing the second time. *)
Theorem new_Candidate_name (name : pystr) (party abbreviation : option pystr)
    (inc : bool) :
  if forallb is_space name
  then new_Candidate name party abbreviation inc
       = Raise (ValueError (str "Candidate name cannot be empty"))
  else ∃ c, new_Candidate name party abbreviation inc = Ok c
            ∧ cand_name c = py_strip name
            ∧ truthy (cand_name c) = true
            ∧ new_Candidate (cand_name c) party abbreviation inc = Ok c.
Proof.
  unfold new_Candidate. destruct (forallb is_space name) eqn:Hsp.
  - apply strip_nil_iff in Hsp. rewrite Hsp. simpl. by rewrite orb_true_r.
  - assert (Hne : truthy (py_strip name) = true).
    { destruct (py_strip name) eqn:Hs; [| done].
      apply strip_nil_iff in Hs. congruence. }
    assert (Hn : truthy name = true) by (by destruct name).
    rewrite Hn, Hne. simpl. eexists. split; [done |]. simpl.
    rewrite strip_idempotent, Hne. done.
Qed.

(** ** Contest totals keep a contest valid *)

Lemma py_sum_from (l : list Z) (a : Z) : fold_left Z.add l a = a + py_sum l.
Proof.
  unfold py_sum. revert a. induction l as [|x l IH]; intros a; cbn [fold_left]; [lia |].
  rewrite (IH (a + x)), (IH (0 + x)). lia.
Qed.

Lemma py_sum_cons (x : Z) (l : list Z) : py_sum (x :: l) = x + py_sum l.
Proof. unfold py_sum at 1. cbn [fold_left]. rewrite py_sum_from. lia. Qed.

Lemma py_sum_bounds (l : list Z) :
  Forall (fun v => 0 ≤ v) l → 0 ≤ py_sum l ∧ Forall (fun v => v ≤ py_sum l) l.
Proof.
  induction 1 as [|x l Hx _ [IH1 IH2]]; [by split; [| constructor] |].
  rewrite py_sum_cons. split; [lia |]. constructor; [lia |].
  eapply Forall_impl; [exact IH2 |]. simpl. lia.
Qed.

(** X15.  [calculate_totals] keeps a contest valid: on a contest that
    passes [__post_init__] and whose results have the non-negative votes
    that [VoteResult] validates, the contest after the call passes
    [__post_init__] again, its total is not negative and no result has more
    votes than the total. *)
Theorem calculate_totals_keeps_valid {FL : PyFloat} (self : ContestResult) :
  ContestResult_post_init self = Ok tt →
  Forall (fun r => 0 ≤ votes r) (results self) →
  ContestResult_post_init (calculate_totals self) = Ok tt
  ∧ 0 ≤ total_votes (calculate_totals self)
  ∧ Forall (fun r => 0 ≤ votes r ≤ total_votes (calculate_totals self))
      (results (calculate_totals self)).
Proof.
  intros Hinit Hv.
  assert (Hfields : truthy (office self) = true
                    ∧ 0 ≤ blank_votes self ∧ 0 ≤ null_votes self).
  { revert Hinit. unfold ContestResult_post_init.
    destruct (truthy (office self)); cbn [negb]; [| discriminate].
    destruct (total_votes self <? 0); [by destruct (py_str _) |].
    destruct (blank_votes self <? 0) eqn:Hb; [by destruct (py_str _) |].
    destruct (null_votes self <? 0) eqn:Hn; [by destruct (py_str _) |]. intros _. lia. }
  destruct Hfields as (Ho & Hb & Hn).
  destruct (py_sum_bounds (map votes (results self))) as [Hsum Hle].
  { by apply Forall_map. }
  rewrite Forall_map in Hle.
  assert (Htot : total_votes (calculate_totals self)
                 = py_sum (map votes (results self)) + blank_votes self + null_votes self)
    by done.
  assert (Hres : Forall (fun r => 0 ≤ votes r ≤ total_votes (calculate_totals self))
                   (results self)).
  { rewrite Htot. apply Forall_and. split; [done |].
    eapply Forall_impl; [exact Hle |]. simpl. lia. }
  split; [| split; [lia |]].
  - unfold ContestResult_post_init. rewrite Htot.
    change (office (calculate_totals self)) with (office self).
    change (blank_votes (calculate_totals self)) with (blank_votes self).
    change (null_votes (calculate_totals self)) with (null_votes self).
    rewrite Ho. cbn [negb].
    replace (py_sum _ + _ + _ <? 0) with false by lia.
    replace (blank_votes self <? 0) with false by lia.
    by replace (null_votes self <? 0) with false by lia.
  - unfold calculate_totals at 2. cbn [results]. destruct (0 <? _); [| done].
    apply Forall_map. eapply Forall_impl; [exact Hres |]. done.
Qed.

(** ** The contests of a results page *)

Section ContestsProperties.
Context {FL : PyFloat}.
Variable py_float : pystr → option float_t.

Lemma new_VoteResult_ok (n : pystr) (p : option pystr) (v : Z) (pc : option float_t)
    (r : VoteResult) :
  new_VoteResult n p v pc = Ok r → r = mk_VoteResult n p v pc ∧ 0 ≤ v.
Proof.
  unfold new_VoteResult. destruct (v <? 0) eqn:Hv; [by destruct (py_str v) |].
  destruct pc as [x |]; [destruct (negb _); [discriminate |] |];
    intros [= <-]; (split; [done | lia]).
Qed.

Lemma only_ValueError_new_VoteResult (n : pystr) (p : option pystr) (v : Z)
    (pc : option float_t) :
  only_ValueError (new_VoteResult n p v pc).
Proof.
  unfold new_VoteResult.
  destruct (v <? 0); [unfold py_str, int_too_long; by destruct (int_str_ok v) |].
  destruct pc as [x |]; [| done]. by destruct (negb _).
Qed.

Lemma only_ValueError_row_body (cols : columns) (cells : list pystr) :
  only_ValueError (row_body py_float cols cells).
Proof.
  unfold row_body. destruct (candidate_col cols) as [i |]; [| done].
  destruct (cells !! i) as [candidate_name |]; [| done].
  destruct (negb _); [done |]. destruct (bool_decide _); [done |].
  apply only_ValueError_rbind.
  { unfold row_votes. destruct (votes_col cols) as [j |]; [| done].
    destruct (cells !! j); [| done]. cbv zeta.
    destruct (py_isdigit _); [apply only_ValueError_py_int | done]. }
  intros votes. apply only_ValueError_rbind.
  { unfold row_percentage. destruct (percent_col cols) as [j |]; [| done].
    destruct (cells !! j); [| done]. destruct (re_search _ _); [| done].
    by destruct (py_float _). }
  intros percentage. apply only_ValueError_rbind; [| done].
  apply only_ValueError_new_VoteResult.
Qed.

Lemma row_body_kept (cols : columns) (cells : list pystr) (r : VoteResult) :
  row_body py_float cols cells = Ok (Some r) →
  (∃ i, candidate_col cols = Some i ∧ cells !! i = Some (candidate_name r))
  ∧ table_result r
  ∧ party r = (party_col cols ≫= fun j => cells !! j)
  ∧ row_votes cols cells = Ok (votes r)
  ∧ row_percentage py_float cols cells = Ok (percentage r).
Proof.
  unfold row_body.
  destruct (candidate_col cols) as [i |]; [| discriminate].
  destruct (cells !! i) as [candidate_name |] eqn:Hi; [| discriminate].
  destruct (truthy candidate_name) eqn:Hname; cbn [negb]; [| discriminate].
  destruct (bool_decide _) eqn:Hhdr; [discriminate |].
  apply bool_decide_eq_false in Hhdr.
  intros (v & Hv & (pc & Hpc & (r' & Hr & [= <-])%rbind_ok)%rbind_ok)%rbind_ok.
  apply new_VoteResult_ok in Hr as [-> Hpos]. simpl.
  split; [eauto |]. split; [by repeat split |].
  split; [by destruct (party_col cols) | done].
Qed.

Lemma table_row_returns (cols : columns) (cells : list pystr) :
  ∃ o, table_row py_float cols cells = Ok o
       ∧ ∀ r, o = Some r →
              (2 ≤ length cells)%nat ∧ row_body py_float cols cells = Ok (Some r).
Proof.
  unfold table_row. destruct (length cells <? 2)%nat eqn:Hlen.
  { exists None. split; [done | discriminate]. }
  apply Nat.ltb_ge in Hlen.
  pose proof (only_ValueError_row_body cols cells) as Honly.
  destruct (row_body py_float cols cells) as [o | [m | m]] eqn:Hbody; [| | done].
  - exists o. split; [done |]. by intros r ->.
  - exists None. split; [done | discriminate].
Qed.

(** X16.  One row of a results table never stops the extraction: every
    exception of its [try] is caught and the row is skipped.  A row that is
    kept has at least two cells; its candidate is the text of the candidate
    cell, which is not empty and not a header word; its party is the text of
    the party cell when the row has one; its count is not negative. *)
Theorem table_row_outcome (cols : columns) (cells : list pystr) :
  ∃ o, table_row py_float cols cells = Ok o
       ∧ ∀ r, o = Some r →
              (2 ≤ length cells)%nat
              ∧ (∃ i, candidate_col cols = Some i
                      ∧ cells !! i = Some (candidate_name r))
              ∧ table_result r
              ∧ party r = (party_col cols ≫= fun j => cells !! j)
              ∧ row_votes cols cells = Ok (votes r)
              ∧ row_percentage py_float cols cells = Ok (percentage r).
Proof.
  destruct (table_row_returns cols cells) as (o & Ho & Hr). exists o.
  split; [done |]. intros r Hor. destruct (Hr r Hor) as [Hlen Hbody].
  split; [done |]. by apply row_body_kept.
Qed.

Lemma table_rows_ok (cols : columns) (rows : list (list pystr))
    (results : list VoteResult) :
  Forall table_result results →
  ∃ results', table_rows py_float cols rows results = Ok results'
              ∧ Forall table_result results'
              ∧ (length results ≤ length results' ≤ length results + length rows)%nat.
Proof.
  revert results. induction rows as [|cells rows IH]; intros results Hres; simpl.
  - exists results. split; [done |]. split; [done | lia].
  - destruct (table_row_returns cols cells) as (o & -> & Ho). simpl.
    destruct o as [r |].
    + destruct (Ho r eq_refl) as [_ (_ & Hr & _)%row_body_kept].
      destruct (IH (results ++ [r])) as (results' & -> & Hwf & Hlen).
      { apply Forall_app. split; [done |]. by constructor. }
      exists results'. split; [done |]. split; [done |].
      rewrite length_app in Hlen. simpl in Hlen. lia.
    + destruct (IH results Hres) as (results' & -> & Hwf & Hlen).
      exists results'. split; [done |]. split; [done | lia].
Qed.

Lemma extracted_contest_totals (title : pystr) (rs : list VoteResult)
    (c : ContestResult) :
  rs ≠ [] → Forall (fun r => 0 ≤ votes r) rs →
  new_ContestResult title rs = Ok c →
  extracted_contest (calculate_totals c)
  ∧ office (calculate_totals c) = title
  ∧ map candidate_name (results (calculate_totals c)) = map candidate_name rs
  ∧ map votes (results (calculate_totals c)) = map votes rs
  ∧ map party (results (calculate_totals c)) = map party rs.
Proof.
  intros Hne Hv. unfold new_ContestResult.
  destruct (truthy title) eqn:Ho; cbn [negb]; [| discriminate]. intros [= <-].
  unfold calculate_totals. cbn [results office blank_votes null_votes total_votes].
  rewrite !Z.add_0_r. set (total := py_sum (map votes rs)).
  assert (Hmap : ∀ {B} (f : VoteResult → B),
             (∀ t r, f (set_percentage t r) = f r) →
             map f (if 0 <? total then map (set_percentage total) rs else rs)
             = map f rs).
  { intros B f Hf. destruct (0 <? total); [| done].
    rewrite map_map. apply map_ext. intros r. apply Hf. }
  split; [| split; [done |]; split; [| split]; by apply Hmap].
  unfold extracted_contest. cbn [results office blank_votes null_votes total_votes].
  rewrite (Hmap Z votes) by done. split; [done |]. split.
  { destruct (0 <? total); [| done]. by destruct rs. }
  split.
  { apply Forall_map. rewrite (Hmap Z votes) by done. by apply Forall_map in Hv. }
  split; [done |]. split; [done |]. split; [done |].
  intros Hpos. replace (0 <? total) with true by lia.
  apply Forall_map. by apply Forall_true.
Qed.

Lemma Forall_same_fields (P : VoteResult → Prop) (l1 l2 : list VoteResult) :
  (∀ r r', candidate_name r = candidate_name r' → votes r = votes r' →
           party r = party r' → P r' → P r) →
  map candidate_name l1 = map candidate_name l2 →
  map votes l1 = map votes l2 → map party l1 = map party l2 →
  Forall P l2 → Forall P l1.
Proof.
  intros HP. revert l2. induction l1 as [|r l1 IH]; intros [|r' l2]; simpl;
    try discriminate; [constructor |].
  intros [= Hn Hns] [= Hv Hvs] [= Hp Hps] [Hr Hl]%Forall_cons.
  constructor; [by apply (HP r r') | by apply (IH l2)].
Qed.

(** What [_extract_contest_from_table] comes to: nothing, or a contest
    built from the rows that were kept. *)
Lemma extract_contest_from_table_cases (t : table) :
  _extract_contest_from_table py_float t = Ok None
  ∨ ∃ rs, rs ≠ [] ∧ Forall table_result rs
          ∧ (length rs < length (t_rows t))%nat
          ∧ _extract_contest_from_table py_float t
            = rbind (new_ContestResult (table_office t) rs) (fun contest =>
              Ok (Some (calculate_totals contest))).
Proof.
  unfold _extract_contest_from_table. cbv zeta.
  destruct (length (t_rows t) <? 2)%nat eqn:Hlen; [by left |].
  apply Nat.ltb_ge in Hlen. destruct (negb _); [by left |].
  match goal with
  | |- context [table_rows py_float ?cols (tl (t_rows t)) []] =>
      destruct (table_rows_ok cols (tl (t_rows t)) []) as (rs & -> & Hrs & Hn);
        [constructor |]
  end.
  cbn [rbind]. destruct rs as [|r rs]; [by left |]. right.
  exists (r :: rs). split; [done |]. split; [done |]. split; [| done].
  destruct (t_rows t); simpl in *; lia.
Qed.

Lemma new_ContestResult_raises (title : pystr) (rs : list VoteResult) (ex : exn) :
  new_ContestResult title rs = Raise ex →
  ex = ValueError (str "Office name cannot be empty") ∧ title = [].
Proof.
  unfold new_ContestResult. destruct title; cbn [truthy negb]; [| discriminate].
  by intros [= <-].
Qed.

(** X17.  A results table.  The only exception that leaves
    [_extract_contest_from_table] is the [ValueError] of a contest without
    a title, raised when rows were kept and the caption (or, without a
    caption, the preceding heading) is empty.  A contest that is returned
    has the title the table gives it, at least one result and fewer results
    than the table has rows; every result has a candidate that is not a
    header word; the total is the sum of the counts, and when it is
    positive the percentages are the computed ones, whatever the page
    said. *)
Theorem extract_contest_from_table_outcome (t : table) :
  match _extract_contest_from_table py_float t with
  | Raise ex =>
      ex = ValueError (str "Office name cannot be empty") ∧ table_office t = []
  | Ok None => True
  | Ok (Some c) =>
      extracted_contest c
      ∧ office c = table_office t
      ∧ Forall table_result (results c)
      ∧ (length (results c) < length (t_rows t))%nat
  end.
Proof.
  destruct (extract_contest_from_table_cases t) as [-> | (rs & Hne & Hrs & Hn & ->)];
    [done |].
  destruct (new_ContestResult (table_office t) rs) as [c | ex] eqn:Hnew; cbn [rbind].
  - destruct (extracted_contest_totals (table_office t) rs c)
      as (Hc & Ho & Hnames & Hvotes & Hparty); [done | | done |].
    { eapply Forall_impl; [exact Hrs |]. by intros x (_ & _ & ?). }
    split; [done |]. split; [done |]. split.
    + apply (Forall_same_fields table_result _ rs); [| done | done | done | done].
      intros x x' Hn' Hv' _ (H1 & H2 & H3). unfold table_result.
      by rewrite Hn', Hv'.
    + apply (f_equal length) in Hvotes. rewrite !length_map in Hvotes. by rewrite Hvotes.
  - by apply new_ContestResult_raises in Hnew.
Qed.

(** *** The div fallback *)

Lemma thousands_spec (s : pystr) :
  s = (thousands s).1 ++ (thousands s).2
  ∧ forallb is_decimal
      (List.filter (fun c => negb (Ascii.eqb c ",")) (thousands s).1) = true.
Proof.
  assert (H : ∀ n s, (length s ≤ n)%nat →
              s = (thousands s).1 ++ (thousands s).2
              ∧ forallb is_decimal
                  (List.filter (fun c => negb (Ascii.eqb c ",")) (thousands s).1) = true).
  { clear s. induction n as [|n IH]; intros s Hn.
    - destruct s; [done | simpl in Hn; lia].
    - destruct s as [|c [|d1 [|d2 [|d3 s']]]]; try done.
      cbn [thousands].
      destruct (Ascii.eqb c "," && is_decimal d1 && is_decimal d2 && is_decimal d3)
        eqn:Hc; [| done].
      apply andb_true_iff in Hc as [[[Hc H1]%andb_true_iff H2]%andb_true_iff H3].
      destruct (IH s') as [Hs Hd]; [simpl in Hn; lia |].
      destruct (thousands s') as [taken rest]. cbn [fst snd] in *.
      split; [by rewrite Hs at 1 |].
      cbn [List.filter]. rewrite Hc. cbn [negb].
      assert (Hnc : ∀ d, is_decimal d = true → negb (Ascii.eqb d ",") = true).
      { intros d Hd'. apply negb_true_iff, Ascii.eqb_neq. intros ->. discriminate. }
      rewrite !Hnc by done. cbn [forallb]. by rewrite H1, H2, H3, Hd. }
  by apply (H (length s)).
Qed.

Lemma filter_decimal_commas (d : pystr) :
  forallb is_decimal d = true → List.filter (fun c => negb (Ascii.eqb c ",")) d = d.
Proof.
  intros Hd. apply filter_all. induction d as [|x d IH]; [done |].
  cbn [forallb] in *. apply andb_true_iff in Hd as [Hx Hd]. rewrite IH by done.
  rewrite andb_true_r. apply negb_true_iff, Ascii.eqb_neq. intros ->. discriminate.
Qed.

Lemma vote_match_groups (s candidate votes rest : pystr) :
  vote_match s = Some (candidate, votes, rest) → vote_groups (candidate, votes).
Proof.
  unfold vote_match.
  destruct (match_here vote_prefix s) as [[caps rest0] |] eqn:Hm; [| discriminate].
  pose proof (thousands_spec rest0) as [_ Hth].
  destruct (thousands rest0) as [taken rest1]. cbn [fst snd] in Hth.
  intros [= <- <- <-].
  apply match_here_sound in Hm as [_ Hcaps]. unfold vote_prefix in Hcaps.
  inversion Hcaps as [|pc1 g1 ps1 caps1 (Hg1 & Hg1min & _) Hcaps1]; subst.
  inversion Hcaps1 as [|pc2 sep ps2 caps2 _ Hcaps2]; subst.
  inversion Hcaps2 as [|pc3 d ps3 caps3 (Hd & Hdmin & _) Hcaps3]; subst.
  inversion Hcaps3; subst. cbn [p_class p_min p_max plus rep] in *.
  unfold vote_groups, piece_text. cbn [nth fst snd].
  pose proof (filter_decimal_commas d Hd) as Hfd.
  rewrite List.filter_app, Hfd, forallb_app, Hd, Hth.
  split; [by destruct g1; [simpl in Hg1min; lia |] |]. split; [done |].
  split; [| done]. destruct d; [simpl in Hdmin; lia | done].
Qed.

Lemma findall_groups (text : pystr) : Forall vote_groups (findall text).
Proof.
  unfold findall. generalize (length text) as fuel. intros fuel. revert text.
  induction fuel as [|fuel IH]; intros text; simpl; [constructor |].
  destruct text as [|c text]; [constructor |].
  destruct (vote_match (c :: text)) as [[[candidate votes] rest] |] eqn:Hm; [| apply IH].
  constructor; [by apply vote_match_groups in Hm | apply IH].
Qed.

(** The loop of the div fallback stops at the first count of more than
    4300 digits, with the [ValueError] of [int]; without one it returns. *)
Lemma div_results_ok (matches : list (pystr * pystr)) (rs : list VoteResult) :
  Forall vote_groups matches → Forall div_result rs →
  match List.find long_count matches with
  | Some m => div_results matches rs = Raise (too_many_digits (length (count_digits m)))
  | None =>
      ∃ rs', div_results matches rs = Ok rs' ∧ Forall div_result rs'
             ∧ (length rs ≤ length rs' ≤ length rs + length matches)%nat
  end.
Proof.
  intros Hm. revert rs. induction Hm as [|[candidate count] matches Hg _ IH];
    intros rs Hrs; simpl.
  - exists rs. split; [done |]. split; [done | lia].
  - destruct Hg as (_ & Hletters & Hne & Hdigits). cbn [fst snd] in *.
    unfold long_count at 1, count_digits at 1. cbn [snd].
    destruct (int_max_str_digits <? _)%nat eqn:Hlong.
    { apply Nat.ltb_lt in Hlong. unfold count_digits. cbn [snd].
      by rewrite py_int_too_long. }
    apply Nat.ltb_ge in Hlong.
    rewrite py_int_decimal by done. cbn [rbind].
    destruct (truthy (py_strip candidate) && (0 <? decimal_value _)) eqn:Hkeep.
    + apply andb_true_iff in Hkeep as [Hname Hpos].
      unfold new_VoteResult. replace (decimal_value _ <? 0) with false by lia.
      cbn [rbind].
      specialize (IH (rs ++ [mk_VoteResult (py_strip candidate) None
                             (decimal_value
                                (List.filter (fun c => negb (Ascii.eqb c ",")) count))
                             None])).
      destruct (List.find long_count matches) as [m |].
      { apply IH. apply Forall_app. split; [done |]. constructor; [| constructor].
        unfold div_result. cbn [candidate_name party votes].
        split; [done |]. split; [by apply forallb_strip |]. split; [done | lia]. }
      destruct IH as (rs' & -> & Hwf & Hlen).
      { apply Forall_app. split; [done |]. constructor; [| constructor].
        unfold div_result. cbn [candidate_name party votes].
        split; [done |]. split; [by apply forallb_strip |]. split; [done | lia]. }
      exists rs'. split; [done |]. split; [done |].
      rewrite length_app in Hlen. simpl in Hlen. lia.
    + specialize (IH rs Hrs). destruct (List.find long_count matches) as [m |]; [done |].
      destruct IH as (rs' & -> & Hwf & Hlen).
      exists rs'. split; [done |]. split; [done | lia].
Qed.

(** What [_extract_contest_from_div] comes to: nothing on a short text;
    the [ValueError] of [int] when a count has more than 4300 digits;
    otherwise nothing, or the contest built from the matches that were
    kept. *)
Lemma extract_contest_from_div_cases (text : pystr) :
  if (length text <? 20)%nat then _extract_contest_from_div text = Ok None
  else
    match List.find long_count (findall text) with
    | Some m =>
        _extract_contest_from_div text
        = Raise (too_many_digits (length (count_digits m)))
    | None =>
        _extract_contest_from_div text = Ok None
        ∨ ∃ rs c, rs ≠ [] ∧ Forall div_result rs
                  ∧ (length rs ≤ length (findall text))%nat
                  ∧ new_ContestResult (str "Extracted Contest") rs = Ok c
                  ∧ _extract_contest_from_div text = Ok (Some (calculate_totals c))
    end.
Proof.
  unfold _extract_contest_from_div.
  destruct (length text <? 20)%nat eqn:Hlen; [done |].
  pose proof (div_results_ok (findall text) [] (findall_groups text)
                ltac:(constructor)) as Hdiv.
  destruct (findall text) as [|m matches] eqn:Hfind; [by left |].
  destruct (List.find long_count (m :: matches)) as [m' |].
  { by rewrite Hdiv. }
  destruct Hdiv as (rs & Hrs & Hwf & Hn).
  rewrite Hrs. cbn [rbind]. destruct rs as [|r rs]; [by left |]. right.
  exists (r :: rs). eexists. split; [done |]. split; [done |].
  split; [simpl in *; lia |]. split; reflexivity.
Qed.

(** X18.  The div fallback.  A text of fewer than twenty characters gives
    nothing.  On a longer text, the first match of the vote pattern whose
    count has more than 4300 digits makes the fallback raise the
    [ValueError] of [int]'s limit on the digits of a number, whatever the
    other matches are; without such a match it returns.  A contest that is
    returned is called "Extracted Contest"; it has at least one result and
    at most one per match of the vote pattern; every result has a positive
    count, no party and a name made of ASCII letters and white space (a
    name with an accent or a digit is cut at that character); the total is
    positive and is the sum of the counts, and every percentage is the
    computed one. *)
Theorem extract_contest_from_div_outcome (text : pystr) :
  if (length text <? 20)%nat then _extract_contest_from_div text = Ok None
  else
    match List.find long_count (findall text) with
    | Some m =>
        _extract_contest_from_div text
        = Raise (too_many_digits (length (count_digits m)))
    | None =>
        ∃ o, _extract_contest_from_div text = Ok o
             ∧ ∀ c, o = Some c →
                    extracted_contest c
                    ∧ office c = str "Extracted Contest"
                    ∧ Forall div_result (results c)
                    ∧ 0 < total_votes c
                    ∧ (length (results c) ≤ length (findall text))%nat
    end.
Proof.
  pose proof (extract_contest_from_div_cases text) as Hcases.
  destruct (length text <? 20)%nat; [done |].
  destruct (List.find long_count (findall text)) as [m |]; [done |].
  destruct Hcases as [-> | (rs & c & Hne & Hwf & Hn & Hnew & ->)].
  { exists None. split; [done | discriminate]. }
  exists (Some (calculate_totals c)). split; [done |].
  intros c' [= <-].
  destruct (extracted_contest_totals (str "Extracted Contest") rs c)
    as (Hc & Ho & Hnames & Hvotes & Hparty); [done | | done |].
  { eapply Forall_impl; [exact Hwf |]. intros x (_ & _ & _ & ?). lia. }
  assert (Hdiv : Forall div_result (results (calculate_totals c))).
  { apply (Forall_same_fields div_result _ rs); [| done | done | done | done].
    intros x x' Hn' Hv' Hp' (H1 & H2 & H3 & H4). unfold div_result.
    by rewrite Hn', Hv', Hp'. }
  split; [done |]. split; [done |]. split; [done |]. split.
  - destruct Hc as (_ & _ & _ & _ & _ & -> & _). rewrite Hvotes.
    destruct rs as [|r rs]; [done |].
    apply Forall_cons in Hwf as [(_ & _ & _ & Hr) Hrest].
    cbn [map]. rewrite py_sum_cons.
    destruct (py_sum_bounds (map votes rs)) as [Hsum _]; [| lia].
    apply Forall_map. eapply Forall_impl; [exact Hrest |].
    intros x (_ & _ & _ & ?). simpl. lia.
  - apply (f_equal length) in Hvotes. rewrite !length_map in Hvotes. by rewrite Hvotes.
Qed.

(** *** The page *)

Lemma append_contest_ok (contests : list ContestResult) (o : option ContestResult) :
  Forall extracted_contest contests →
  (∀ c, o = Some c → extracted_contest c) →
  Forall extracted_contest (append_contest contests o)
  ∧ (length contests ≤ length (append_contest contests o) ≤ S (length contests))%nat.
Proof.
  intros Hcs Ho. unfold append_contest. destruct o as [c |]; [| split; [done | lia]].
  destruct (results c); [split; [done | lia] |]. split.
  - apply Forall_app. split; [done |]. constructor; [by apply Ho | constructor].
  - rewrite length_app. simpl. lia.
Qed.

Lemma extract_each_tables (ts : list table) (contests : list ContestResult) :
  Forall extracted_contest contests →
  match extract_each (_extract_contest_from_table py_float) ts contests with
  | Raise ex =>
      ex = ValueError (str "Office name cannot be empty")
      ∧ ∃ t, t ∈ ts ∧ table_office t = []
  | Ok contests' =>
      Forall extracted_contest contests'
      ∧ (length contests ≤ length contests' ≤ length contests + length ts)%nat
  end.
Proof.
  revert contests. induction ts as [|t ts IH]; intros contests Hcs; simpl.
  - split; [done | lia].
  - assert (Hstep : ∀ o, (∀ c, o = Some c → extracted_contest c) →
               match extract_each (_extract_contest_from_table py_float) ts
                       (append_contest contests o) with
               | Raise ex =>
                   ex = ValueError (str "Office name cannot be empty")
                   ∧ ∃ t', t' ∈ t :: ts ∧ table_office t' = []
               | Ok contests' =>
                   Forall extracted_contest contests'
                   ∧ (length contests ≤ length contests'
                      ≤ length contests + S (length ts))%nat
               end).
    { intros o Ho. destruct (append_contest_ok contests o Hcs Ho) as [Hwf Hlen].
      specialize (IH _ Hwf).
      destruct (extract_each _ ts (append_contest contests o)) as [cs | ex].
      - destruct IH as [? ?]. split; [done | lia].
      - destruct IH as [-> (t' & Ht' & Hoff)]. split; [done |].
        exists t'. split; [by right | done]. }
    destruct (extract_contest_from_table_cases t) as [-> | (rs & Hne & Hrs & Hn & ->)].
    { cbn [rbind]. by apply Hstep. }
    destruct (new_ContestResult (table_office t) rs) as [c | ex] eqn:Hnew; cbn [rbind].
    + apply Hstep. intros c' [= <-].
      destruct (extracted_contest_totals (table_office t) rs c) as [Hc _];
        [done | | done | done].
      eapply Forall_impl; [exact Hrs |]. by intros x (_ & _ & ?).
    + apply new_ContestResult_raises in Hnew as [-> Hoff]. split; [done |].
      exists t. split; [by left | done].
Qed.

Lemma extract_each_divs (texts : list pystr) (contests : list ContestResult) :
  Forall extracted_contest contests →
  match extract_each _extract_contest_from_div texts contests with
  | Raise ex => ∃ text, text ∈ texts ∧ div_too_long text ex
  | Ok contests' =>
      Forall extracted_contest contests'
      ∧ (length contests ≤ length contests' ≤ length contests + length texts)%nat
  end.
Proof.
  revert contests. induction texts as [|text texts IH]; intros contests Hcs; simpl.
  - split; [done | lia].
  - assert (Ho : match _extract_contest_from_div text with
                 | Raise ex => div_too_long text ex
                 | Ok o => ∀ c, o = Some c → extracted_contest c
                 end).
    { pose proof (extract_contest_from_div_cases text) as Hcases.
      destruct (length text <? 20)%nat eqn:Hlen; [rewrite Hcases; discriminate |].
      apply Nat.ltb_ge in Hlen.
      destruct (List.find long_count (findall text)) as [m |] eqn:Hfind.
      { rewrite Hcases. split; [done |]. exists m. by rewrite Hfind. }
      destruct Hcases as [-> | (rs & c & Hne & Hwf & _ & Hnew & ->)]; [discriminate |].
      intros c' [= <-].
      destruct (extracted_contest_totals (str "Extracted Contest") rs c) as [Hc _];
        [done | | done | done].
      eapply Forall_impl; [exact Hwf |]. intros x (_ & _ & _ & ?). lia. }
    destruct (_extract_contest_from_div text) as [o | ex]; cbn [rbind].
    2:{ exists text. split; [by left | done]. }
    destruct (append_contest_ok contests o Hcs Ho) as [Hwf Hlen].
    specialize (IH _ Hwf).
    destruct (extract_each _ texts (append_contest contests o)) as [cs | ex].
    + destruct IH as [Hcs' Hlen']. split; [done | lia].
    + destruct IH as (text' & Hin & Hlong). exists text'. split; [by right | done].
Qed.

Lemma extract_contests_extracted (page : results_page) :
  match extract_contests py_float page with
  | Raise ex =>
      (ex = ValueError (str "Office name cannot be empty")
       ∧ ∃ t, t ∈ page_tables page ∧ table_office t = [])
      ∨ ∃ text, text ∈ page_divs page ∧ div_too_long text ex
  | Ok contests =>
      Forall extracted_contest contests
      ∧ (length contests ≤ length (page_tables page) + length (page_divs page))%nat
  end.
Proof.
  unfold extract_contests.
  pose proof (extract_each_tables (page_tables page) [] ltac:(constructor)) as Ht.
  destruct (extract_each _ (page_tables page) []) as [cs | ex]; cbn [rbind];
    [| by left].
  destruct Ht as [Hcs Hlen].
  pose proof (extract_each_divs (page_divs page) cs Hcs) as Hd.
  destruct (extract_each _ (page_divs page) cs) as [cs' | ex]; [| by right].
  destruct Hd as [Hcs' Hlen']. split; [done |]. simpl in Hlen. lia.
Qed.

(** X19.  The contests of a page.  [_extract_contests] raises only the
    [ValueError] of a contest without a title, when some table of the page
    has an empty title, or the [ValueError] of [int]'s limit on the digits
    of a number, when the text of some marked div has twenty characters or
    more and a match of the vote pattern whose count has more than 4300
    digits: the contests of the other tables and divs are then lost with it.
    Otherwise it returns at most one contest per table and per div, tables
    first, and every contest has a title, at least one result, the sum of
    the counts as its total and the computed percentages when the total is
    positive. *)
Theorem extract_contests_outcome (page : results_page) :
  match extract_contests py_float page with
  | Raise ex =>
      (ex = ValueError (str "Office name cannot be empty")
       ∧ ∃ t, t ∈ page_tables page ∧ table_office t = [])
      ∨ ∃ text, text ∈ page_divs page ∧ div_too_long text ex
  | Ok contests =>
      Forall extracted_contest contests
      ∧ (length contests ≤ length (page_tables page) + length (page_divs page))%nat
  end.
Proof.
  unfold extract_contests.
  pose proof (extract_each_tables (page_tables page) [] ltac:(constructor)) as Ht.
  destruct (extract_each _ (page_tables page) []) as [cs | ex]; cbn [rbind];
    [| by left].
  destruct Ht as [Hcs Hlen].
  pose proof (extract_each_divs (page_divs page) cs Hcs) as Hd.
  destruct (extract_each _ (page_divs page) cs) as [cs' | ex]; [| by right].
  destruct Hd as [Hcs' Hlen']. split; [done |]. simpl in Hlen. lia.
Qed.

End ContestsProperties.

(** ** The scraper with its contest extraction *)

Section WithExtractionProperties.
Context {FL : PyFloat}.
Variable env : environment.
Variable py_float : pystr → option float_t.
Variable parse_results : pystr → results_page.

Lemma new_ElectoralEvent_named (nm : pystr) (d : date) (src res : option pystr)
    (md : gmap pystr pystr) :
  truthy nm = true →
  new_ElectoralEvent (generate_event_id nm d) nm (_determine_event_type nm) d src res md
  = Ok (mk_ElectoralEvent (generate_event_id nm d) nm (_determine_event_type nm) d
          None src res [] md).
Proof.
  intros Hn. unfold new_ElectoralEvent.
  rewrite generate_event_id_truthy, Hn. cbn [negb].
  by rewrite bool_decide_eq_true_2 by apply determine_event_type_valid.
Qed.

Lemma fetch_page_with_extraction (url : pystr) :
  _fetch_page (with_extraction env py_float parse_results) url = _fetch_page env url.
Proof. reflexivity. Qed.

(** X20.  One event, with the extraction as the code has it.  For a
    descriptor with a name, [scrape_event_results] raises only: what
    [_fetch_page] raised for the results URL; the [ValueError] of a contest
    without a title, when some table of the results page has an empty
    title; the [ValueError] of [int], when a marked div of the page holds a
    count of more than 4300 digits; or the [ValueError] of [json.dump], when
    a count or a total of the extracted contests has more than 4300 digits.
    In the first three cases the event is lost and nothing is written; in
    the last the event is lost and its file is left with the start of its
    text.  An event that is returned holds only extracted contests: each
    with a title, at least one result, the sum of its counts as total and
    the computed percentages when the total is positive; every [int] of it
    can be written, and its file holds it. *)
Theorem scrape_event_results_with_extraction (event : event_dict) (fs : output_dir) :
  named event →
  match scrape_event_results (with_extraction env py_float parse_results) event fs with
  | (Raise ex, fs') =>
      ∃ url, ev_results_url event = Some url
             ∧ ((fs' = fs ∧ _fetch_page env url = Raise ex)
                ∨ ∃ page,
                    _fetch_page env url = Ok page
                    ∧ ((fs' = fs
                        ∧ ex = ValueError (str "Office name cannot be empty")
                        ∧ ∃ t, t ∈ page_tables
                                     (parse_results (default [] (raw_html page)))
                               ∧ table_office t = [])
                       ∨ (fs' = fs
                          ∧ ∃ text, text ∈ page_divs
                                             (parse_results (default [] (raw_html page)))
                                    ∧ div_too_long text ex)
                       ∨ (ex = int_too_long
                          ∧ ∃ e, extracted_event e
                                 ∧ json_dumps_ok (EventData e) = false
                                 ∧ fs' = <[event_file e := Unfinished (EventData e)]> fs)))
  | (Ok None, fs') => fs' = fs
  | (Ok (Some e), fs') =>
      fs' = <[event_file e := EventData e]> fs ∧ extracted_event e
      ∧ json_dumps_ok (EventData e) = true
  end.
Proof.
  intros Hnamed. unfold scrape_event_results, bind, lift, ret.
  destruct (ev_results_url event) as [url |] eqn:Hres; [| done].
  destruct (truthy url) eqn:Hurl; cbn [negb]; [| done].
  rewrite fetch_page_with_extraction.
  destruct (_fetch_page env url) as [page | ex] eqn:Hfetch; [| by eauto].
  destruct (truthy_opt (error page)); [done |].
  rewrite new_ElectoralEvent_named by done.
  cbn [_extract_contests with_extraction].
  pose proof (extract_contests_extracted py_float
                (parse_results (default [] (raw_html page)))) as Hext.
  destruct (extract_contests py_float _) as [contests | ex].
  - destruct Hext as [Hext _]. unfold _save_electoral_event, _save_json.
    destruct (json_dumps_ok _) eqn:Hdump; [by split |].
    exists url. split; [done |]. right. exists page. split; [done |].
    right. right. split; [done |]. eexists. split; [| split; [exact Hdump | done]].
    exact Hext.
  - exists url. split; [done |]. right. exists page. split; [done |].
    destruct Hext as [[-> Ht] | Hdiv]; [left | right; left]; by repeat split.
Qed.

Lemma scrape_event_results_contests (event : event_dict) (fs : output_dir)
    (e : ElectoralEvent) (fs' : output_dir) :
  scrape_event_results (with_extraction env py_float parse_results) event fs
  = (Ok (Some e), fs') →
  extracted_event e.
Proof.
  unfold scrape_event_results, bind, lift, ret.
  destruct (ev_results_url event) as [url |]; [| discriminate].
  destruct (truthy url); cbn [negb]; [| discriminate].
  destruct (_fetch_page _ url) as [page | ex]; [| discriminate].
  destruct (truthy_opt (error page)); [discriminate |].
  destruct (new_ElectoralEvent _ _ _ _ _ _ _) as [e0 | ex]; [| discriminate].
  cbn [_extract_contests with_extraction].
  pose proof (extract_contests_extracted py_float
                (parse_results (default [] (raw_html page)))) as Hext.
  destruct (extract_contests py_float _) as [contests | ex]; [| discriminate].
  destruct Hext as [Hext _].
  unfold _save_electoral_event, _save_json.
  destruct (json_dumps_ok _); [| discriminate]. by intros [= <- _].
Qed.

Lemma scrape_each_Forall (env' : environment) (P : ElectoralEvent → Prop)
    (events : list event_dict) (acc : list ElectoralEvent) (fs : output_dir)
    (l : list ElectoralEvent) (fs' : output_dir) :
  (∀ event fs0 e fs1, scrape_event_results env' event fs0 = (Ok (Some e), fs1) → P e) →
  Forall P acc → scrape_each env' events acc fs = (Ok l, fs') → Forall P l.
Proof.
  intros HP. revert acc fs. induction events as [|event events IH]; intros acc fs; simpl.
  - unfold ret. by intros Hacc [= <- _].
  - destruct (scrape_event_results env' event fs) as [[[e |] | ex] fs1] eqn:Hres;
      intros Hacc; apply IH; try done.
    apply Forall_app. split; [done |]. constructor; [| constructor].
    by apply (HP event fs e fs1).
Qed.

(** X21.  A whole run, with the extraction as the code has it: every
    contest of every event that [run] returns, and so of every event it
    lists in the summary, is an extracted contest, with a title, at least
    one result, the sum of its counts as total and the computed percentages
    when the total is positive. *)
Theorem run_with_extraction (max_events : option Z) (fs : output_dir) :
  match run (with_extraction env py_float parse_results) max_events fs with
  | (Ok electoral_events, _) => Forall extracted_event electoral_events
  | (Raise _, _) => True
  end.
Proof.
  set (env' := with_extraction env py_float parse_results).
  destruct (scrape_events_list env' fs) as [[events | ex] fs1] eqn:Hdisc.
  - destruct (run_after_discovery env' max_events fs events fs1 Hdisc) as [Hnil Hcons].
    destruct events as [|e0 events0].
    + rewrite Hnil by done. constructor.
    + specialize (Hcons ltac:(done)).
      destruct (log_max_events max_events) as [u | ex]; [| by rewrite Hcons].
      destruct Hcons as (l & fs2 & Heach & ->).
      apply (scrape_each_Forall env' extracted_event) in Heach; [done | | constructor].
      intros event fs0 e fs3. apply scrape_event_results_contests.
  - unfold run, bind. by rewrite Hdisc.
Qed.

End WithExtractionProperties.

(** The extraction at the examples: the table of the integration test
    gives the contest of the integration test; an empty caption raises; in
    a table with a percent column the row above 100 percent is dropped, the
    row named "Total" is skipped and the count written "1.234" is read as
    0. *)
Example extract_contests_examples :
  extract_contests (FL := binary64) float_of_digits (mk_results_page [example_table] [])
  = Ok [calculate_totals example_contest]
  ∧ extract_contests (FL := binary64) float_of_digits
      (mk_results_page [example_table; untitled_table] [])
    = Raise (ValueError (str "Office name cannot be empty"))
  ∧ match _extract_contest_from_table (FL := binary64) float_of_digits percent_table with
    | Ok (Some c) =>
        (office c, map (fun r => (candidate_name r, votes r)) (results c), total_votes c)
        = (str "Alcalde", [(str "Ana", 1200); (str "Eva", 0)], 1200)
    | _ => False
    end.
Proof. repeat split; vm_compute; reflexivity. Qed.

(** A count of four digits without a comma is cut after three digits by
    the pattern of the div fallback. *)
Example extract_contest_from_div_example :
  match _extract_contest_from_div (FL := binary64)
          (str "Resultados: Juan Perez 1234 votos, Maria Lopez: 1,500 votos") with
  | Ok (Some c) =>
      map (fun r => (candidate_name r, votes r)) (results c)
      = [(str "Juan Perez", 123); (str "Maria Lopez", 1500)]
  | _ => False
  end.
Proof. vm_compute. reflexivity. Qed.

(** With the extraction in place the run of the integration test is the
    run of [env_ok]; with a second table whose caption is empty the one
    event is lost, and the summary counts one event found and none
    processed. *)
Example run_with_extraction_examples :
  run env_tables None ∅ = run env_ok None ∅
  ∧ fst (run env_untitled None ∅) = Ok []
  ∧ snd (run env_untitled None ∅) !! summary_file
    = Some (Summary 1 0 (utcnow_isoformat env_ok) []).
Proof. repeat split; vm_compute; reflexivity. Qed.


(** ** The date classifier reads what [isoformat] writes *)

Lemma span_len_exact (p : ascii → bool) (cap t : pystr) :
  forallb p cap = true → span_len p (Some (length cap)) (cap ++ t) = length cap.
Proof.
  induction cap as [|c cap IH]; simpl.
  - intros _. apply span_len_zero.
  - intros [Hc Hcap]%andb_true_iff. by rewrite Hc, IH.
Qed.

Lemma give_back_exact {R} (k : pystr → option R) (s : pystr) (n : nat) (r : R) :
  k (drop n s) = Some r → give_back k s n n = Some (n, r).
Proof.
  intros Hk. destruct n; cbn [give_back]; by rewrite Nat.ltb_irrefl, Hk.
Qed.

(** A pattern of pieces with equal bounds has one way to match. *)
Lemma match_here_rigid (ps : list piece) (caps : list pystr) (rest : pystr) :
  Forall2 piece_takes_all ps caps →
  match_here ps (concat caps ++ rest) = Some (caps, rest).
Proof.
  induction 1 as [|pc cap ps caps (Hmax & Hlen & Hcls) _ IH]; [done |].
  cbn [match_here concat]. rewrite <- app_assoc, Hmax, <- Hlen, span_len_exact by done.
  rewrite (give_back_exact _ _ _ (caps, rest)) by (by rewrite drop_app_length).
  by rewrite take_app_length.
Qed.

Lemma re_search_here (ps : list piece) (s : pystr) (caps : list pystr) (rest : pystr) :
  match_here ps s = Some (caps, rest) → re_search ps s = Some caps.
Proof. intros H. destruct s; cbn [re_search]; by rewrite H. Qed.

(** A pattern with a piece that needs a character of a class finds nothing
    in a text without such a character. *)
Lemma re_search_missing_class (ps : list piece) (i : nat) (pc : piece) (s : pystr) :
  ps !! i = Some pc → (1 ≤ p_min pc)%nat →
  forallb (fun c => negb (p_class pc c)) s = true →
  re_search ps s = None.
Proof.
  intros Hi Hmin Hs. destruct (re_search ps s) as [caps |] eqn:Hsearch; [| done].
  exfalso. apply re_search_match in Hsearch as (pre & s' & rest & -> & Hm).
  apply match_here_sound in Hm as [-> Hcaps].
  destruct (Forall2_lookup_l _ _ _ _ _ Hcaps Hi) as (cap & Hcap & Hcls & Hlen & _).
  rewrite <- (take_drop_middle caps i cap Hcap), concat_app in Hs. simpl in Hs.
  rewrite !forallb_app in Hs.
  destruct cap as [|c cap]; [simpl in Hlen; lia |]. simpl in Hcls, Hs.
  apply andb_true_iff in Hcls as [Hc _].
  rewrite Hc in Hs. simpl in Hs. by rewrite !andb_false_r in Hs.
Qed.

Lemma digit_val_chr (k : Z) : 0 ≤ k ≤ 9 → digit_val (chr (48 + k)) = k.
Proof.
  intros Hk.
  assert (H : k = 0 ∨ k = 1 ∨ k = 2 ∨ k = 3 ∨ k = 4 ∨ k = 5 ∨ k = 6 ∨ k = 7
              ∨ k = 8 ∨ k = 9) by lia.
  repeat destruct H as [-> | H]; try reflexivity. by subst.
Qed.

Lemma decimal_value_snoc (s : pystr) (c : ascii) :
  decimal_value (s ++ [c]) = 10 * decimal_value s + digit_val c.
Proof. unfold decimal_value. by rewrite fold_left_app. Qed.

Lemma decimal_value_zfill (width : nat) (z : Z) :
  0 ≤ z → decimal_value (zfill_digits width z) = z mod 10 ^ Z.of_nat width.
Proof.
  revert z. induction width as [|w IH]; intros z Hz.
  - simpl. by rewrite Z.mod_1_r.
  - cbn [zfill_digits]. rewrite decimal_value_snoc, IH by (apply Z.div_pos; lia).
    rewrite digit_val_chr by (pose proof (Z.mod_pos_bound z 10); lia).
    rewrite Nat2Z.inj_succ, Z.pow_succ_r by lia.
    rewrite (Z.rem_mul_r z 10 (10 ^ Z.of_nat w)) by lia. lia.
Qed.

Lemma zfill_digits_length (width : nat) (z : Z) : length (zfill_digits width z) = width.
Proof.
  revert z. induction width as [|w IH]; intros z; simpl; [done |].
  rewrite length_app, IH. simpl. lia.
Qed.

Lemma py_int_zfill (width : nat) (z : Z) :
  (1 ≤ width ≤ int_max_str_digits)%nat → 0 ≤ z < 10 ^ Z.of_nat width →
  py_int (zfill_digits width z) = Ok z.
Proof.
  intros Hw Hz. rewrite py_int_decimal.
  - by rewrite decimal_value_zfill, Z.mod_small by lia.
  - intros Hnil. apply (f_equal length) in Hnil.
    rewrite zfill_digits_length in Hnil. simpl in Hnil. lia.
  - apply zfill_digits_decimal.
  - rewrite zfill_digits_length. lia.
Qed.

Lemma days_in_month_le (y m : Z) : days_in_month y m ≤ 31.
Proof.
  unfold days_in_month. destruct (m =? 2); [by destruct (is_leap y) |].
  by destruct (_ || _).
Qed.

(** X22.  The date classifier reads back what [isoformat] writes: for
    every date of the calendar, [_parse_event_date(d.isoformat())] is [d].
    The slash pattern, which is tried first, finds nothing in an ISO date. *)
Theorem parse_event_date_isoformat (d : date) :
  valid_date d → _parse_event_date (isoformat d) = Ok (Some d).
Proof.
  intros (Hy & Hm & Hd). pose proof (days_in_month_le (year d) (month d)) as Hdim.
  pose proof (isoformat_alphabet d) as Ha.
  destruct (alphabet_fixed _ Ha) as (_ & _ & Hns).
  unfold _parse_event_date. rewrite (strip_no_space _ Hns).
  set (caps := [zfill_digits 4 (year d); str "-"; zfill_digits 2 (month d); str "-";
                zfill_digits 2 (day d)]).
  assert (Hiso : isoformat d = concat caps ++ []).
  { unfold isoformat, caps. cbn [concat]. by rewrite !app_nil_r. }
  assert (Hmatch : match_here pat_Ymd (isoformat d) = Some (caps, [])).
  { rewrite Hiso. apply match_here_rigid. unfold pat_Ymd, caps.
    repeat (constructor;
            [unfold piece_takes_all; cbn [p_max p_min p_class rep lit_i one];
             rewrite ?zfill_digits_length, ?zfill_digits_decimal; by repeat split |]).
    constructor. }
  assert (Hslash : re_search pat_mdY (isoformat d) = None).
  { apply (re_search_missing_class pat_mdY 1 (lit_i "/")); [done | simpl; lia |].
    clear -Ha. induction (isoformat d) as [|c s IH]; [done |]. simpl in *.
    apply andb_true_iff in Ha as [Hc Hs]. rewrite IH by done. rewrite andb_true_r.
    assert (Hb : implb (id_alphabet c)
                   (negb (Ascii.eqb (lower_char c) (lower_char "/"))) = true)
      by (clear; ascii_cases c; reflexivity).
    by rewrite Hc in Hb. }
  assert (Hsearch : re_search pat_Ymd (isoformat d) = Some caps).
  { by apply (re_search_here _ _ _ []). }
  cbn [try_patterns patterns]. unfold try_pattern at 1. cbn [fst snd].
  rewrite Hslash. cbn [rbind]. unfold try_pattern at 1. cbn [fst snd].
  rewrite Hsearch. unfold strptime.
  replace (group0 caps) with (isoformat d) by (by rewrite Hiso, app_nil_r).
  rewrite Hmatch. unfold piece_text, caps. cbn [nth].
  rewrite !py_int_zfill by (unfold int_max_str_digits; lia). cbn [rbind].
  replace (negb _) with false by lia.
  unfold new_date.
  replace (negb ((1 <=? year d) && (year d <=? 9999))) with false by lia.
  replace (negb ((1 <=? month d) && (month d <=? 12))) with false by lia.
  replace (negb ((1 <=? day d) && (day d <=? days_in_month (year d) (month d))))
    with false by lia.
  by destruct d.
Qed.

(** ** The outcomes at the example environments *)

Lemma fetch_page_returned_witness :
  _fetch_page env_404 (str "https://example.com/notfound")
  = Ok (mk_ScrapedPage (str "https://example.com/notfound") (utcnow_isoformat env_ok)
          404 (md5_hexdigest env_ok []) (Some []) None (Some (str "HTTP 404")))
  ∧ ∃ status content,
      http_get env_404 (str "https://example.com/notfound") = Response status content
      ∧ truthy (str "https://example.com/notfound") = true ∧ 100 ≤ status < 600
      ∧ mk_ScrapedPage (str "https://example.com/notfound") (utcnow_isoformat env_ok)
          404 (md5_hexdigest env_ok []) (Some []) None (Some (str "HTTP 404"))
        = mk_ScrapedPage (str "https://example.com/notfound")
            (utcnow_isoformat env_404) status
            (md5_hexdigest env_404 content) (Some content) None
            (if 400 <=? status then Some (str "HTTP " ++ str_of_int status)
             else None)
      ∧ (truthy_opt
           (error (mk_ScrapedPage (str "https://example.com/notfound")
                     (utcnow_isoformat env_ok) 404 (md5_hexdigest env_ok [])
                     (Some []) None (Some (str "HTTP 404")))) = true
         ↔ 400 ≤ status).
Proof.
  split; [reflexivity |].
  apply (fetch_page_returned (FL := binary64) env_404 (str "https://example.com/notfound")).
  reflexivity.
Defined.


Lemma scrape_event_results_outcome_witness :
  named example_event
  ∧ match scrape_event_results env_ok example_event ∅ with
    | (Raise ex, fs') =>
        ∃ url, ev_results_url example_event = Some url
               ∧ ((fs' = ∅
                   ∧ (_fetch_page env_ok url = Raise ex
                      ∨ ∃ soup, _extract_contests env_ok soup url = Raise ex))
                  ∨ ∃ e soup,
                      ex = int_too_long
                      ∧ json_dumps_ok (EventData e) = false
                      ∧ fs' = <[event_file e := Unfinished (EventData e)]> ∅
                      ∧ name e = ev_name example_event
                      ∧ event_id e = generate_event_id (name e) (event_date e)
                      ∧ _extract_contests env_ok soup url = Ok (contests e))
    | (Ok None, fs') => fs' = ∅
    | (Ok (Some e), fs') =>
        fs' = <[event_file e := EventData e]> ∅
        ∧ json_dumps_ok (EventData e) = true
        ∧ name e = ev_name example_event
        ∧ event_type e = _determine_event_type (ev_name example_event)
        ∧ event_date e = default (mk_date 2024 1 1) (ev_event_date example_event)
        ∧ event_id e = generate_event_id (name e) (event_date e)
        ∧ results_url e = ev_results_url example_event
        ∧ source_url e = Some (ev_source_url example_event)
        ∧ ∃ url soup, ev_results_url example_event = Some url
                      ∧ _extract_contests env_ok soup url = Ok (contests e)
    end.
Proof.
  split; [reflexivity |].
  apply (scrape_event_results_outcome env_ok example_event ∅). reflexivity.
Defined.

Lemma run_respects_cap_witness :
  0 < 1
  ∧ match run env_ok (Some 1) ∅ with
    | (Ok electoral_events, _) => Z.of_nat (length electoral_events) ≤ 1
    | (Raise _, _) => True
    end.
Proof. split; [lia | apply (run_respects_cap env_ok 1 ∅); lia]. Defined.

Lemma calculate_totals_keeps_valid_witness :
  (ContestResult_post_init example_contest = Ok tt
   ∧ Forall (fun r => 0 ≤ votes r) (results example_contest))
  ∧ ContestResult_post_init (calculate_totals example_contest) = Ok tt
    ∧ 0 ≤ total_votes (calculate_totals example_contest)
    ∧ Forall (fun r => 0 ≤ votes r ≤ total_votes (calculate_totals example_contest))
        (results (calculate_totals example_contest)).
Proof.
  assert (H : Forall (fun r => 0 ≤ votes r) (results example_contest))
    by (repeat constructor; simpl; lia).
  split; [split; [reflexivity | exact H] |].
  apply (calculate_totals_keeps_valid example_contest); [reflexivity | exact H].
Defined.

Lemma scrape_event_results_with_extraction_witness :
  named example_event
  ∧ match scrape_event_results
            (with_extraction (FL := binary64) env_ok float_of_digits
               (fun _ => mk_results_page [example_table; untitled_table] []))
            example_event ∅ with
    | (Raise ex, fs') =>
        ∃ url, ev_results_url example_event = Some url
               ∧ ((fs' = ∅ ∧ _fetch_page env_ok url = Raise ex)
                  ∨ ∃ page,
                      _fetch_page env_ok url = Ok page
                      ∧ ((fs' = ∅
                          ∧ ex = ValueError (str "Office name cannot be empty")
                          ∧ ∃ t, t ∈ page_tables
                                       ((fun _ => mk_results_page
                                                    [example_table; untitled_table] [])
                                          (default [] (raw_html page)))
                                 ∧ table_office t = [])
                         ∨ (fs' = ∅
                            ∧ ∃ text, text ∈ page_divs
                                               ((fun _ => mk_results_page
                                                            [example_table; untitled_table]
                                                            [])
                                                  (default [] (raw_html page)))
                                      ∧ div_too_long text ex)
                         ∨ (ex = int_too_long
                            ∧ ∃ e, extracted_event e
                                   ∧ json_dumps_ok (EventData e) = false
                                   ∧ fs' = <[event_file e := Unfinished (EventData e)]> ∅)))
    | (Ok None, fs') => fs' = ∅
    | (Ok (Some e), fs') =>
        fs' = <[event_file e := EventData e]> ∅ ∧ extracted_event e
        ∧ json_dumps_ok (EventData e) = true
    end.
Proof.
  split; [reflexivity |].
  apply (scrape_event_results_with_extraction (FL := binary64) env_ok float_of_digits
           (fun _ => mk_results_page [example_table; untitled_table] [])
           example_event ∅).
  reflexivity.
Defined.

Lemma parse_event_date_isoformat_witness :
  valid_date (mk_date 2024 2 29)
  ∧ _parse_event_date (isoformat (mk_date 2024 2 29)) = Ok (Some (mk_date 2024 2 29)).
Proof.
  assert (H : valid_date (mk_date 2024 2 29)).
  { unfold valid_date. cbn [year month day].
    change (days_in_month 2024 2) with 29. lia. }
  split; [exact H | apply (parse_event_date_isoformat (mk_date 2024 2 29) H)].
Defined.

(** ** The columns of a results table *)

Lemma header_step_candidate (cols : columns) (i : nat) (header : pystr) :
  candidate_col (header_step cols i header)
  = if candidate_header header then Some i else candidate_col cols.
Proof.
  unfold header_step. fold (candidate_header header).
  destruct (candidate_header header); [done |].
  repeat (destruct (_ || _); [done |]). done.
Qed.

Lemma find_columns_candidate (i : nat) (headers : list pystr) (cols : columns) :
  match candidate_col (find_columns i headers cols) with
  | Some j =>
      (candidate_col cols = Some j
       ∧ Forall (fun h => candidate_header h = false) headers)
      ∨ ∃ k h, j = (i + k)%nat ∧ headers !! k = Some h ∧ candidate_header h = true
               ∧ Forall (fun h' => candidate_header h' = false) (drop (S k) headers)
  | None =>
      candidate_col cols = None ∧ Forall (fun h => candidate_header h = false) headers
  end.
Proof.
  revert i cols. induction headers as [|h headers IH]; intros i cols; simpl.
  - destruct (candidate_col cols); [left |]; by split.
  - specialize (IH (S i) (header_step cols i h)).
    rewrite header_step_candidate in IH.
    destruct (candidate_col (find_columns (S i) headers (header_step cols i h)))
      as [j |].
    + destruct IH as [[Hj Hall] | (k & h' & -> & Hk & Hh & Hlater)].
      * destruct (candidate_header h) eqn:Hh.
        -- injection Hj as <-. right. exists 0%nat, h.
           split; [lia |]. split; [done |]. split; [done |]. by rewrite drop_0.
        -- left. split; [done |]. by constructor.
      * right. exists (S k), h'. split; [lia |]. by split.
    + destruct IH as [Hnone Hall]. destruct (candidate_header h) eqn:Hh; [done |].
      split; [done |]. by constructor.
Qed.

(** X23.  The columns of a results table.  The candidate column is the last
    header cell that contains "candidato", "candidate" or "nombre".  When
    no header cell does and the header has at least two cells, the first
    column is taken as the candidate and the last column as the votes, also
    when another header cell was recognized as the votes column. *)
Theorem table_columns (headers : list pystr) :
  let found := find_columns 0 headers (mk_columns None None None None) in
  let cols := infer_columns headers found in
  match candidate_col found with
  | Some j =>
      cols = found
      ∧ ∃ h, headers !! j = Some h ∧ candidate_header h = true
             ∧ Forall (fun h' => candidate_header h' = false) (drop (S j) headers)
  | None =>
      Forall (fun h => candidate_header h = false) headers
      ∧ if (2 <=? length headers)%nat
        then cols = mk_columns (Some 0%nat) (party_col found)
                      (Some (length headers - 1)%nat) (percent_col found)
        else cols = found
  end.
Proof.
  intros found cols.
  pose proof (find_columns_candidate 0 headers (mk_columns None None None None)) as H.
  fold found in H. unfold cols, infer_columns.
  destruct (candidate_col found) as [j |].
  - split; [done |]. destruct H as [[? _] | (k & h & -> & Hk & Hh & Hl)]; [done |].
    exists h. by split.
  - destruct H as [_ Hall]. split; [done |]. by destruct (2 <=? length headers)%nat.
Qed.

(** In a table headed "Opcion | Votos | %" the counts are read from the
    last column: every option gets 0 votes and keeps the percentage of the
    page. *)
Example option_table_votes :
  match _extract_contest_from_table (FL := binary64) float_of_digits option_table with
  | Ok (Some c) =>
      (map (fun r => (candidate_name r, votes r)) (results c), total_votes c)
      = ([(str "Si", 0); (str "No", 0)], 0)
  | _ => False
  end.
Proof. vm_compute. reflexivity. Qed.

(** ** How a count is read *)

Lemma int_body_superscript (acc : Z) (after_digit : bool) (s : pystr) :
  forallb is_digit s = true → forallb is_decimal s = false →
  int_body acc after_digit s = None.
Proof.
  revert acc after_digit. induction s as [|c s IH]; intros acc b; simpl; [discriminate |].
  intros [Hc Hs]%andb_true_iff Hdec. destruct (is_decimal c) eqn:Hd.
  - simpl in Hdec. by apply IH.
  - assert (Hb : implb (is_digit c) (is_decimal c || negb (Ascii.eqb c "_")) = true)
      by (clear; ascii_cases c; reflexivity).
    rewrite Hc, Hd in Hb. simpl in Hb. apply negb_true_iff in Hb. by rewrite Hb.
Qed.

Lemma py_int_superscript (s : pystr) :
  forallb is_digit s = true → forallb is_decimal s = false →
  ∃ m, py_int s = Raise (ValueError m).
Proof.
  intros Hdig Hdec. unfold py_int, too_many_digits. cbv zeta.
  assert (Hlit : int_literal s = None);
    [| rewrite Hlit; destruct (int_digits s) as [n |];
       [destruct (_ <? _)%nat |]; eauto].
  assert (Hchar : ∀ c, is_digit c = true →
            int_space c = false ∧ c ≠ "+"%char ∧ c ≠ "-"%char).
  { intros c Hc.
    assert (Hb : implb (is_digit c)
                   (negb (int_space c) && negb (Ascii.eqb c "+")
                    && negb (Ascii.eqb c "-")) = true)
      by (clear; ascii_cases c; reflexivity).
    rewrite Hc in Hb. simpl in Hb.
    apply andb_true_iff in Hb as [[H1 H2]%andb_true_iff H3].
    apply negb_true_iff in H1. apply negb_true_iff, Ascii.eqb_neq in H2.
    apply negb_true_iff, Ascii.eqb_neq in H3. done. }
  assert (Hskip : ∀ t, forallb is_digit t = true → int_lskip t = t).
  { intros [|c t]; simpl; [done |]. intros [Hc _]%andb_true_iff.
    by destruct (Hchar c Hc) as [-> _]. }
  unfold int_literal. rewrite (Hskip s Hdig), Hskip, rev_involutive
    by (by rewrite forallb_rev).
  destruct s as [|c s]; [discriminate |].
  pose proof Hdig as [Hc _]%andb_true_iff. destruct (Hchar c Hc) as (_ & Hplus & Hminus).
  assert (Hbody : int_body 0 false (c :: s) = None) by (by apply int_body_superscript).
  destruct c as [[|] [|] [|] [|] [|] [|] [|] [|]]; try exact Hbody; done.
Qed.

(** X24.  How the count of a row is read: commas and white space are
    removed from the text of the votes cell; if what is left is made of
    decimal digits, at most 4300 of them, the count is its value (0 when
    nothing is left); if it is made of more than 4300 decimal digits, [int]
    raises the [ValueError] of its limit and the row is lost; if it holds a
    superscript digit among digits, [int] raises and the row is lost; in
    every other case, as for "1.234" or "n/a", the count is 0 and the row is
    kept. *)
Theorem row_votes_read (cols : columns) (cells : list pystr) (j : nat) (text : pystr) :
  votes_col cols = Some j → cells !! j = Some text →
  let digits := List.filter (fun c => negb (comma_or_space c)) text in
  if forallb is_decimal digits
  then if (int_max_str_digits <? length digits)%nat
       then row_votes cols cells = Raise (too_many_digits (length digits))
       else row_votes cols cells = Ok (decimal_value digits)
  else if forallb is_digit digits then ∃ m, row_votes cols cells = Raise (ValueError m)
  else row_votes cols cells = Ok 0.
Proof.
  intros Hj Htext digits. unfold row_votes. rewrite Hj, Htext. cbv zeta.
  rewrite re_sub_one. fold digits. unfold py_isdigit.
  destruct (forallb is_decimal digits) eqn:Hdec.
  - assert (Hdig : forallb is_digit digits = true).
    { clear -Hdec. induction digits as [|c l IH]; [done |]. simpl in *.
      apply andb_true_iff in Hdec as [Hc Hl]. rewrite IH by done.
      unfold is_digit. by rewrite Hc. }
    rewrite Hdig, andb_true_r.
    destruct (int_max_str_digits <? length digits)%nat eqn:Hlen.
    + apply Nat.ltb_lt in Hlen.
      destruct digits as [|c l] eqn:Hd; [simpl in Hlen; lia |].
      cbn [truthy]. by apply py_int_too_long.
    + apply Nat.ltb_ge in Hlen. destruct digits as [|c l] eqn:Hd; [done |].
      cbn [truthy]. by apply py_int_decimal.
  - destruct (forallb is_digit digits) eqn:Hdig.
    + rewrite andb_true_r. destruct digits as [|c l] eqn:Hd; [discriminate |].
      cbn [truthy]. by apply py_int_superscript.
    + by rewrite andb_false_r.
Qed.

(** ** The date classifier on the three formats *)

Lemma span_len_greedy (p : ascii → bool) (limit : option nat) (cap t : pystr) :
  forallb p cap = true →
  match limit with Some l => (length cap ≤ l)%nat | None => True end →
  limit = Some (length cap) ∨ match t with [] => True | c :: _ => p c = false end →
  span_len p limit (cap ++ t) = length cap.
Proof.
  revert limit. induction cap as [|c cap IH]; intros limit; simpl.
  - intros _ _ [-> | Ht]; [apply span_len_zero |].
    destruct t as [|c t]; [done |]. simpl. by rewrite Ht.
  - intros [Hc Hcap]%andb_true_iff Hl Hstop. rewrite Hc.
    destruct limit as [[|l] |]; [lia | |].
    + f_equal. apply IH; [done | simpl; lia |].
      destruct Hstop as [[= ->] | ?]; [by left | by right].
    + f_equal. apply IH; [done | done |]. destruct Hstop as [? | ?]; [done | by right].
Qed.

Lemma give_back_first {R} (k : pystr → option R) (s : pystr) (lo n : nat) (r : R) :
  (lo ≤ n)%nat → k (drop n s) = Some r → give_back k s lo n = Some (n, r).
Proof.
  intros Hlo Hk. destruct n; cbn [give_back];
    (replace (_ <? lo)%nat with false by (symmetry; apply Nat.ltb_ge; lia));
    by rewrite Hk.
Qed.

(** The first try of the matcher succeeds when every piece takes all it can
    and the next piece still matches. *)
Lemma match_here_greedy (ps : list piece) (caps : list pystr) (rest : pystr) :
  takes_greedily ps caps rest →
  match_here ps (concat caps ++ rest) = Some (caps, rest).
Proof.
  revert caps. induction ps as [|pc ps IH]; intros [|cap caps]; simpl; try done.
  intros (Hmin & Hspan & Hrest). rewrite <- app_assoc, Hspan.
  rewrite (give_back_first _ _ _ _ (caps, rest)); [| done |].
  - by rewrite take_app_length.
  - rewrite drop_app_length. by apply IH.
Qed.

Lemma decimal_not_separator (s : pystr) (sep : ascii) :
  forallb is_decimal s = true → is_decimal sep = false →
  forallb (fun c => negb (Ascii.eqb (lower_char c) (lower_char sep))) s = true.
Proof.
  intros Hs Hsep. induction s as [|c s IH]; [done |]. simpl in *.
  apply andb_true_iff in Hs as [Hc Hs]. rewrite IH by done. rewrite andb_true_r.
  apply negb_true_iff, Ascii.eqb_neq. intros Heq.
  assert (Hb : implb (is_decimal c) (Ascii.eqb (lower_char c) c) = true)
    by (clear; ascii_cases c; reflexivity).
  rewrite Hc in Hb. simpl in Hb. apply Ascii.eqb_eq in Hb. rewrite Hb in Heq.
  assert (Hb' : implb (is_decimal (lower_char sep)) (is_decimal sep) = true)
    by (clear; ascii_cases sep; reflexivity).
  rewrite <- Heq, Hc, Hsep in Hb'. done.
Qed.

(** X25.  The date classifier on a date written with slashes: a month and
    a day of one or two digits and a year of four digits, which together
    name a date of the calendar, are read as that date, month first. *)
Theorem parse_event_date_slashes (mm dd yyyy : pystr) :
  forallb is_decimal mm = true → (1 ≤ length mm ≤ 2)%nat →
  forallb is_decimal dd = true → (1 ≤ length dd ≤ 2)%nat →
  forallb is_decimal yyyy = true → length yyyy = 4%nat →
  valid_date (mk_date (decimal_value yyyy) (decimal_value mm) (decimal_value dd)) →
  _parse_event_date (mm ++ str "/" ++ dd ++ str "/" ++ yyyy)
  = Ok (Some (mk_date (decimal_value yyyy) (decimal_value mm) (decimal_value dd))).
Proof.
  intros Hm Hlm Hd Hld Hy Hly (Hvy & Hvm & Hvd). cbn [year month day] in *.
  pose proof (days_in_month_le (decimal_value yyyy) (decimal_value mm)) as Hdim.
  set (text := mm ++ str "/" ++ dd ++ str "/" ++ yyyy).
  set (caps := [mm; str "/"; dd; str "/"; yyyy]).
  assert (Htext : text = concat caps ++ []).
  { unfold text, caps. cbn [concat]. by rewrite !app_nil_r. }
  assert (Hmatch : match_here pat_mdY text = Some (caps, [])).
  { rewrite Htext. apply match_here_greedy. unfold pat_mdY, caps.
    cbn [takes_greedily p_min p_max p_class rep lit_i one].
    split; [lia |]. split; [apply span_len_greedy; [done | lia | right; reflexivity] |].
    split; [simpl; lia |]. split; [by apply span_len_greedy; [| simpl; lia | left] |].
    split; [lia |]. split; [apply span_len_greedy; [done | lia | right; reflexivity] |].
    split; [simpl; lia |]. split; [by apply span_len_greedy; [| simpl; lia | left] |].
    split; [lia |]. split; [| done].
    apply span_len_greedy; [done | lia | left; by rewrite Hly]. }
  assert (Hstrip : py_strip text = text).
  { apply strip_no_space. unfold text. rewrite !forallb_app.
    assert (Hns : ∀ s, forallb is_decimal s = true →
                       forallb (fun c => negb (is_space c)) s = true).
    { intros s Hs. induction s as [|c s IH]; [done |]. simpl in *.
      apply andb_true_iff in Hs as [Hc Hs]. rewrite IH by done. rewrite andb_true_r.
      assert (Hb : implb (is_decimal c) (negb (is_space c)) = true)
        by (clear; ascii_cases c; reflexivity).
      by rewrite Hc in Hb. }
    rewrite (Hns mm), (Hns dd), (Hns yyyy) by done. reflexivity. }
  unfold _parse_event_date. rewrite Hstrip.
  cbn [try_patterns patterns]. unfold try_pattern at 1. cbn [fst snd].
  rewrite (re_search_here _ _ _ _ Hmatch). unfold strptime.
  replace (group0 caps) with text by (by rewrite Htext, app_nil_r).
  rewrite Hmatch. unfold piece_text, caps. cbn [nth].
  rewrite !py_int_decimal
    by (done || (intros ->; simpl in *; lia) || (unfold int_max_str_digits; lia)).
  cbn [rbind].
  replace (negb _) with false by lia.
  unfold new_date.
  replace (negb ((1 <=? decimal_value yyyy) && (decimal_value yyyy <=? 9999)))
    with false by lia.
  replace (negb ((1 <=? decimal_value mm) && (decimal_value mm <=? 12)))
    with false by lia.
  by replace (negb ((1 <=? decimal_value dd)
                    && (decimal_value dd
                        <=? days_in_month (decimal_value yyyy) (decimal_value mm))))
    with false by lia.
Qed.

Lemma spanish_months_keys (k : pystr) (m : Z) :
  spanish_months !! k = Some m →
  forallb (in_range 97 122) k = true ∧ k ≠ [] ∧ m ≠ 0.
Proof.
  unfold spanish_months. intros H%elem_of_list_to_map_2.
  repeat (apply elem_of_cons in H as [[= -> ->] | H]; [by repeat split |]).
  by apply elem_of_nil in H.
Qed.

Lemma letters_of_lower (name : pystr) :
  forallb (in_range 97 122) (py_lower name) = true →
  forallb is_word name = true
  ∧ forallb (fun c => negb (is_space c)) name = true
  ∧ forallb (fun c => negb (Ascii.eqb (lower_char c) (lower_char "/"))) name = true
  ∧ forallb (fun c => negb (Ascii.eqb (lower_char c) (lower_char "-"))) name = true.
Proof.
  unfold py_lower. induction name as [|c name IH]; simpl; [done |].
  intros [Hc Hn]%andb_true_iff. destruct (IH Hn) as (H1 & H2 & H3 & H4).
  assert (Hb : implb (in_range 97 122 (lower_char c))
                 (is_word c && negb (is_space c)
                  && negb (Ascii.eqb (lower_char c) (lower_char "/"))
                  && negb (Ascii.eqb (lower_char c) (lower_char "-"))) = true)
    by (clear; ascii_cases c; reflexivity).
  rewrite Hc in Hb. simpl in Hb.
  apply andb_true_iff in Hb as [[[-> ->]%andb_true_iff ->]%andb_true_iff ->].
  by rewrite H1, H2, H3, H4.
Qed.

Lemma strip_ends (s : pystr) :
  (∃ a s', s = a :: s' ∧ is_space a = false) →
  (∃ s' b, s = s' ++ [b] ∧ is_space b = false) →
  py_strip s = s.
Proof.
  intros (a & s1 & H1 & Ha) (s2 & b & H2 & Hb). unfold py_strip.
  assert (lstrip s = s) as -> by (rewrite H1; simpl; by rewrite Ha).
  rewrite H2. by apply rstrip_snoc.
Qed.

Lemma decimal_no_space (c : ascii) : is_decimal c = true → is_space c = false.
Proof.
  intros Hc.
  assert (Hb : implb (is_decimal c) (negb (is_space c)) = true)
    by (clear; ascii_cases c; reflexivity).
  rewrite Hc in Hb. by apply negb_true_iff in Hb.
Qed.

(** X26.  The date classifier on a date written in Spanish: a day of one
    or two digits, " de ", the name of a month in any case, " de " and a
    year of four digits, which together name a date of the calendar, are
    read as that date. *)
Theorem parse_event_date_spanish (dd name yyyy : pystr) (m : Z) :
  forallb is_decimal dd = true → (1 ≤ length dd ≤ 2)%nat →
  spanish_months !! py_lower name = Some m →
  forallb is_decimal yyyy = true → length yyyy = 4%nat →
  valid_date (mk_date (decimal_value yyyy) m (decimal_value dd)) →
  _parse_event_date (dd ++ str " de " ++ name ++ str " de " ++ yyyy)
  = Ok (Some (mk_date (decimal_value yyyy) m (decimal_value dd))).
Proof.
  intros Hd Hld Hmonth Hy Hly (Hvy & Hvm & Hvd). cbn [year month day] in *.
  destruct (spanish_months_keys _ _ Hmonth) as (Hkey & Hne & Hm0).
  destruct (letters_of_lower name Hkey) as (Hword & Hnsp & Hnslash & Hnhyphen).
  assert (Hname : (1 ≤ length name)%nat).
  { destruct name; [done | simpl; lia]. }
  set (text := dd ++ str " de " ++ name ++ str " de " ++ yyyy).
  set (caps := [dd; str " "; str "d"; str "e"; str " "; name;
                str " "; str "d"; str "e"; str " "; yyyy]).
  assert (Htext : text = concat caps ++ []).
  { unfold text, caps. cbn [concat]. rewrite !app_nil_r. reflexivity. }
  assert (Hmatch : match_here pat_es text = Some (caps, [])).
  { rewrite Htext. apply match_here_greedy. unfold pat_es, caps.
    cbn [takes_greedily p_min p_max p_class rep lit_i one plus].
    split; [lia |]. split; [apply span_len_greedy; [done | lia | right; reflexivity] |].
    do 4 (split; [simpl; lia |];
          split; [by apply span_len_greedy; [| simpl; lia | left] |]).
    split; [lia |]. split; [apply span_len_greedy; [done | done | right; reflexivity] |].
    do 4 (split; [simpl; lia |];
          split; [by apply span_len_greedy; [| simpl; lia | left] |]).
    split; [lia |]. split; [| done].
    apply span_len_greedy; [done | lia | left; by rewrite Hly]. }
  assert (Hstrip : py_strip text = text).
  { apply strip_ends.
    - destruct dd as [|a dd']; [simpl in Hld; lia |]. eexists _, _.
      split; [reflexivity |]. apply decimal_no_space.
      simpl in Hd. by apply andb_true_iff in Hd as [? _].
    - destruct (exists_last (l := yyyy)) as (y' & b & Hlast); [by intros -> |].
      exists (dd ++ str " de " ++ name ++ str " de " ++ y'), b. split.
      + unfold text. rewrite Hlast. by rewrite <- !List.app_assoc.
      + apply decimal_no_space. rewrite Hlast, forallb_app in Hy. simpl in Hy.
        apply andb_true_iff in Hy as [_ Hb]. by rewrite andb_true_r in Hb. }
  assert (Hnone : ∀ sep : ascii,
            is_decimal sep = false →
            negb (Ascii.eqb (lower_char " ") (lower_char sep)) = true →
            negb (Ascii.eqb (lower_char "d") (lower_char sep)) = true →
            negb (Ascii.eqb (lower_char "e") (lower_char sep)) = true →
            forallb (fun c => negb (Ascii.eqb (lower_char c) (lower_char sep))) name
            = true →
            forallb (fun c => negb (p_class (lit_i sep) c)) text = true).
  { intros sep Hsep Hs1 Hs2 Hs3 Hn. unfold text.
    cbn [p_class lit_i one]. rewrite !forallb_app.
    rewrite (decimal_not_separator dd sep), (decimal_not_separator yyyy sep), Hn
      by done.
    cbn [forallb str list_ascii_of_string]. by rewrite Hs1, Hs2, Hs3. }
  unfold _parse_event_date. rewrite Hstrip.
  cbn [try_patterns patterns]. unfold try_pattern at 1. cbn [fst snd].
  rewrite (re_search_missing_class pat_mdY 1 (lit_i "/"));
    [| done | simpl; lia | by apply Hnone].
  cbn [rbind]. unfold try_pattern at 1. cbn [fst snd].
  rewrite (re_search_missing_class pat_Ymd 1 (lit_i "-"));
    [| done | simpl; lia | by apply Hnone].
  cbn [rbind]. unfold try_pattern at 1. cbn [fst snd].
  rewrite (re_search_here _ _ _ _ Hmatch).
  unfold piece_text, caps. cbn [nth]. rewrite Hmonth.
  replace (m =? 0) with false by lia.
  rewrite !py_int_decimal
    by (done || (intros ->; simpl in *; lia) || (unfold int_max_str_digits; lia)).
  cbn [rbind].
  unfold new_date.
  replace (negb ((1 <=? decimal_value yyyy) && (decimal_value yyyy <=? 9999)))
    with false by lia.
  replace (negb ((1 <=? m) && (m <=? 12))) with false by lia.
  by replace (negb ((1 <=? decimal_value dd)
                    && (decimal_value dd <=? days_in_month (decimal_value yyyy) m)))
    with false by lia.
Qed.

(** ** The order of a run *)

Lemma sublist_map {A B} (f : A → B) (l k : list A) :
  sublist l k → sublist (map f l) (map f k).
Proof.
  induction 1; simpl; [constructor | by apply sublist_skip | by apply sublist_cons].
Qed.

Section RunOrder.
Context {FL : PyFloat}.
Variable env : environment.

Lemma scrape_events_list_NoDup (fs : output_dir) (events : list event_dict) :
  fst (scrape_events_list env fs) = Ok events → NoDup (map dedup_key events).
Proof.
  unfold scrape_events_list, bind, lift.
  destruct (_fetch_page env CEE_EVENTS_URL) as [page | ex]; [| discriminate].
  destruct (truthy_opt (error page)); [intros [= <-]; constructor |].
  pose proof (discover_ok (urljoin env) (BeautifulSoup env (default [] (raw_html page))))
    as Hd.
  destruct (discover _ _) as [found | ex]; [| discriminate].
  destruct Hd as [Hwf _].
  cbn. intros [= <-].
  rewrite (deduplicate_named found) by (by apply well_formed_named).
  rewrite first_from_nil. apply first_from_NoDup.
Qed.

Lemma scrape_event_results_key (event : event_dict) (fs : output_dir)
    (e : ElectoralEvent) (fs' : output_dir) :
  scrape_event_results env event fs = (Ok (Some e), fs') →
  event_key e = dedup_key event.
Proof.
  unfold scrape_event_results, bind, lift, ret.
  destruct (ev_results_url event) as [url |] eqn:Hurl; [| discriminate].
  destruct (truthy url); cbn [negb]; [| discriminate].
  destruct (_fetch_page env url) as [page | ex]; [| discriminate].
  destruct (truthy_opt (error page)); [discriminate |].
  destruct (new_ElectoralEvent _ _ _ _ _ _ _) as [e0 | ex] eqn:Hnew; [| discriminate].
  destruct (_extract_contests env _ url) as [contests | ex]; [| discriminate].
  unfold _save_electoral_event, _save_json.
  destruct (json_dumps_ok _); [| discriminate]. intros [= <- _].
  apply new_ElectoralEvent_ok in Hnew as (_ & _ & _ & ->).
  unfold event_key, dedup_key, set_contests. cbn. by rewrite Hurl.
Qed.

Lemma scrape_each_keys (events : list event_dict) (acc : list ElectoralEvent)
    (fs : output_dir) (l : list ElectoralEvent) (fs' : output_dir) :
  scrape_each env events acc fs = (Ok l, fs') →
  ∃ l', l = acc ++ l' ∧ sublist (map event_key l') (map dedup_key events).
Proof.
  revert acc fs. induction events as [|event events IH]; intros acc fs; simpl.
  - unfold ret. intros [= <- _]. exists []. by rewrite app_nil_r.
  - destruct (scrape_event_results env event fs) as [[[e |] | ex] fs1] eqn:Hres.
    + intros (l' & -> & Hsub)%IH. exists (e :: l').
      split; [by rewrite <- app_assoc |]. simpl.
      rewrite (scrape_event_results_key _ _ _ _ Hres). by apply sublist_skip.
    + intros (l' & -> & Hsub)%IH. exists l'. split; [done |]. by apply sublist_cons.
    + intros (l' & -> & Hsub)%IH. exists l'. split; [done |]. by apply sublist_cons.
Qed.

(** X27.  A run keeps the order of discovery and processes no event
    twice: the (name, results URL) keys of the events that [run] returns
    are, in order, keys of the descriptors that discovery returned, taken
    from the part left by the cap, and no two returned events have the same
    key. *)
Theorem run_keeps_order (max_events : option Z) (fs : output_dir) :
  match scrape_events_list env fs, run env max_events fs with
  | (Ok events, _), (Ok electoral_events, _) =>
      sublist (map event_key electoral_events)
        (map dedup_key (apply_max_events max_events events))
      ∧ sublist (apply_max_events max_events events) events
      ∧ NoDup (map event_key electoral_events)
  | _, _ => True
  end.
Proof.
  pose proof (scrape_events_list_NoDup fs) as Hnd.
  destruct (scrape_events_list env fs) as [[events | ex] fs1] eqn:Hdisc; [| done].
  specialize (Hnd events eq_refl).
  assert (Hcap : sublist (apply_max_events max_events events) events).
  { unfold apply_max_events, slice_to. destruct max_events as [n |]; [| done].
    destruct (n =? 0); [done |]. destruct (0 <=? n); apply sublist_take. }
  destruct (run_after_discovery env max_events fs events fs1 Hdisc) as [Hnil Hcons].
  destruct events as [|e0 events0].
  - rewrite Hnil by done. split; [apply sublist_nil_l |]. split; [done | constructor].
  - specialize (Hcons ltac:(done)).
    destruct (log_max_events max_events) as [u | ex]; [| by rewrite Hcons].
    destruct Hcons as (l & fs2 & Heach & ->).
    apply scrape_each_keys in Heach as (l' & -> & Hsub). simpl.
    split; [done |]. split; [done |].
    apply (sublist_NoDup _ (map dedup_key (apply_max_events max_events (e0 :: events0))));
      [| done].
    apply (sublist_NoDup _ (map dedup_key (e0 :: events0))); [done |].
    by apply sublist_map.
Qed.

End RunOrder.

(** A negative cap is a slice from the end: it drops the last events. *)
Example apply_max_events_negative :
  apply_max_events (Some (-1)) duplicate_events
  = take (length duplicate_events - 1) duplicate_events.
Proof. reflexivity. Qed.

(** ** More outcomes at the examples *)

Lemma row_votes_read_witness :
  (votes_col (mk_columns (Some 0%nat) None (Some 1%nat) None) = Some 1%nat
   ∧ [str "Ana"; str "1,234"] !! 1%nat = Some (str "1,234"))
  ∧ let digits := List.filter (fun c => negb (comma_or_space c)) (str "1,234") in
    if forallb is_decimal digits
    then if (int_max_str_digits <? length digits)%nat
         then row_votes (mk_columns (Some 0%nat) None (Some 1%nat) None)
                [str "Ana"; str "1,234"] = Raise (too_many_digits (length digits))
         else row_votes (mk_columns (Some 0%nat) None (Some 1%nat) None)
                [str "Ana"; str "1,234"] = Ok (decimal_value digits)
    else if forallb is_digit digits
    then ∃ m, row_votes (mk_columns (Some 0%nat) None (Some 1%nat) None)
                [str "Ana"; str "1,234"] = Raise (ValueError m)
    else row_votes (mk_columns (Some 0%nat) None (Some 1%nat) None)
           [str "Ana"; str "1,234"] = Ok 0.
Proof.
  split; [split; reflexivity |].
  apply (row_votes_read (mk_columns (Some 0%nat) None (Some 1%nat) None)
           [str "Ana"; str "1,234"] 1 (str "1,234")); reflexivity.
Defined.

Lemma parse_event_date_slashes_witness :
  (forallb is_decimal (str "11") = true ∧ (1 ≤ length (str "11") ≤ 2)%nat
   ∧ forallb is_decimal (str "5") = true ∧ (1 ≤ length (str "5") ≤ 2)%nat
   ∧ forallb is_decimal (str "2024") = true ∧ length (str "2024") = 4%nat
   ∧ valid_date (mk_date (decimal_value (str "2024")) (decimal_value (str "11"))
                   (decimal_value (str "5"))))
  ∧ _parse_event_date (str "11" ++ str "/" ++ str "5" ++ str "/" ++ str "2024")
    = Ok (Some (mk_date (decimal_value (str "2024")) (decimal_value (str "11"))
                  (decimal_value (str "5")))).
Proof.
  assert (H : valid_date (mk_date (decimal_value (str "2024"))
                            (decimal_value (str "11")) (decimal_value (str "5")))).
  { unfold valid_date. cbn [year month day].
    change (decimal_value (str "2024")) with 2024.
    change (decimal_value (str "11")) with 11.
    change (decimal_value (str "5")) with 5.
    change (days_in_month 2024 11) with 30. lia. }
  split; [repeat split; first [reflexivity | simpl; lia | apply H] |].
  apply (parse_event_date_slashes (str "11") (str "5") (str "2024"));
    first [reflexivity | simpl; lia | exact H].
Defined.

Lemma parse_event_date_spanish_witness :
  (forallb is_decimal (str "5") = true ∧ (1 ≤ length (str "5") ≤ 2)%nat
   ∧ spanish_months !! py_lower (str "Noviembre") = Some 11
   ∧ forallb is_decimal (str "2024") = true ∧ length (str "2024") = 4%nat
   ∧ valid_date (mk_date (decimal_value (str "2024")) 11 (decimal_value (str "5"))))
  ∧ _parse_event_date (str "5" ++ str " de " ++ str "Noviembre" ++ str " de "
                       ++ str "2024")
    = Ok (Some (mk_date (decimal_value (str "2024")) 11 (decimal_value (str "5")))).
Proof.
  assert (H : valid_date (mk_date (decimal_value (str "2024")) 11
                            (decimal_value (str "5")))).
  { unfold valid_date. cbn [year month day].
    change (decimal_value (str "2024")) with 2024.
    change (decimal_value (str "5")) with 5.
    change (days_in_month 2024 11) with 30. lia. }
  assert (Hm : spanish_months !! py_lower (str "Noviembre") = Some 11)
    by (vm_compute; reflexivity).
  split; [repeat split; first [reflexivity | simpl; lia | exact Hm | apply H] |].
  apply (parse_event_date_spanish (str "5") (str "Noviembre") (str "2024") 11);
    first [reflexivity | simpl; lia | exact Hm | exact H].
Defined.
